(** * qudi GUI front-ends: laser-scanning viewer and confocal scan console

    A shallow embedding of [gui/LaserScanningGui.py] and
    [gui/confocal/confocalgui2.py].  Both modules are glue between Qt
    widgets and an external "logic" layer, so the embedding consists of
    - the numbers the widgets carry (Python [int] as [Z], Python [float]
      behind a small arithmetic interface with an exact and a binary64
      instance),
    - the Qt widgets the handlers touch, with the part of their behaviour
      the handlers rely on (range clamping, change signals, signal
      blocking),
    - the handlers themselves, written in a state/exception monad that also
      records every call made to a collaborator and every signal emitted. *)

From Stdlib Require Import ZArith QArith Qround Lia Lqa String List PrimFloat Uint63.
From Stdlib Require Import Reals Lra Floats.
From stdpp Require Import base option strings gmap.

#[local] Open Scope Z_scope.
#[local] Open Scope string_scope.

(** ** Numbers *)

(** [ltb] is Python's [<] on the carried number type. *)
Class Ordered (V : Type) := ltb : V -> V -> bool.

(** The float operations used by the source: literals, [+], [-], [/]. *)
Class Arith (F : Type) := {
  of_Z : Z -> F;
  fadd : F -> F -> F;
  fsub : F -> F -> F;
  fdiv : F -> F -> F
}.

(** Rounding to a number of decimals, as a [QDoubleSpinBox] does before it
    stores a value. *)
Class Decimals (F : Type) := round_decimals : nat -> F -> F.

#[global] Instance Z_ordered : Ordered Z := Z.ltb.

(** Exact arithmetic: a Python float read as the rational it denotes. *)
Definition Qltb (x y : Q) : bool := negb (Qle_bool y x).
Definition Qround_decimals (d : nat) (v : Q) : Q :=
  let scale := (10 ^ Z.of_nat d)%Z in
  Qred (Qmake (Qfloor (v * inject_Z scale + (1 # 2))) (Z.to_pos scale)).

#[global] Instance Q_ordered : Ordered Q := Qltb.
#[global] Instance Q_arith : Arith Q :=
  {| of_Z := inject_Z; fadd := Qplus; fsub := Qminus; fdiv := Qdiv |}.
#[global] Instance Q_decimals : Decimals Q := Qround_decimals.

(** IEEE 754 binary64, the arithmetic of Python and numpy floats. *)
#[global] Instance float_ordered : Ordered float := PrimFloat.ltb.
#[global] Instance float_arith : Arith float :=
  {| of_Z := fun z => PrimFloat.of_uint63 (Uint63.of_Z z);
     fadd := PrimFloat.add; fsub := PrimFloat.sub; fdiv := PrimFloat.div |}.

(** ** Effects *)

(** Commands the GUI sends to the laser-scanning logic, named after the
    methods of the logic object. *)
Module Logic.
Inductive command (F : Type) :=
| start_scanning
| stop_scanning
| save_data
| recalculate_histogram (bins : Z) (xmin xmax : F).
Arguments start_scanning {F}.
Arguments stop_scanning {F}.
Arguments save_data {F}.
Arguments recalculate_histogram {F} bins xmin xmax.
End Logic.
Abbreviation command := Logic.command.

Inductive image_format := SVG | PNG.

(** What a handler does to the outside world, in order. *)
Inductive event (F : Type) :=
| Query (collaborator member : string)
| Command (c : command F)
| Export (fmt : image_format) (filename : string)
| Emit (widget signal : string).
Arguments Query {F} collaborator member.
Arguments Command {F} _.
Arguments Export {F} fmt filename.
Arguments Emit {F} widget signal.

Definition is_command {F} (e : event F) : bool :=
  match e with Command _ => true | _ => false end.
Definition is_export {F} (e : event F) : bool :=
  match e with Export _ _ => true | _ => false end.
Definition is_emit {F} (e : event F) : bool :=
  match e with Emit _ _ => true | _ => false end.

(** The commands, image exports and signal emissions of a run. *)
Definition commands {F} (t : list (event F)) : list (event F) := List.filter is_command t.
Definition exports {F} (t : list (event F)) : list (event F) := List.filter is_export t.
Definition emissions {F} (t : list (event F)) : list (event F) := List.filter is_emit t.

(** Python exceptions the handlers can raise on their own. *)
Inductive exn :=
| KeyError (key : string)
| UnboundLocalError (name : string).

(** A handler run: the final state and the events of this run, whether it
    returned or raised (a Python exception keeps the mutations made so far). *)
Inductive outcome (F S A : Type) :=
| Ok (a : A) (s : S) (t : list (event F))
| Raise (e : exn) (s : S) (t : list (event F)).
Arguments Ok {F S A} a s t.
Arguments Raise {F S A} e s t.

Definition M (F S A : Type) : Type := S -> outcome F S A.

Definition ret {F S A} (a : A) : M F S A := fun s => Ok a s [].
Definition bind {F S A B} (f : A -> M F S B) (m : M F S A) : M F S B :=
  fun s =>
    match m s with
    | Ok a s1 t1 =>
        match f a s1 with
        | Ok b s2 t2 => Ok b s2 (t1 ++ t2)
        | Raise e s2 t2 => Raise e s2 (t1 ++ t2)
        end
    | Raise e s1 t1 => Raise e s1 t1
    end.

#[global] Instance M_ret {F S} : MRet (M F S) := @ret F S.
#[global] Instance M_bind {F S} : MBind (M F S) := @bind F S.

Definition get {F S} : M F S S := fun s => Ok s s [].
Definition gets {F S A} (f : S -> A) : M F S A := fun s => Ok (f s) s [].
Definition modify {F S} (f : S -> S) : M F S unit := fun s => Ok tt (f s) [].
Definition emit {F S} (e : event F) : M F S unit := fun s => Ok tt s [e].
Definition raise {F S A} (e : exn) : M F S A := fun s => Raise e s [].
(** [if b: emit e] *)
Definition emit_if {F S} (b : bool) (e : event F) : M F S unit :=
  fun s => Ok tt s (if b then [e] else []).

Definition events {F S A} (o : outcome F S A) : list (event F) :=
  match o with Ok _ _ t => t | Raise _ _ t => t end.
Definition final {F S A} (o : outcome F S A) : S :=
  match o with Ok _ s _ => s | Raise _ s _ => s end.
Definition returned {F S A} (o : outcome F S A) : bool :=
  match o with Ok _ _ _ => true | Raise _ _ _ => false end.

(** ** Qt widgets *)

(** [QAbstractSpinBoxPrivate::bound]: a value outside the range is moved to
    the nearest limit. *)
Definition bound {V} `{Ordered V} (lo hi v : V) : V :=
  let v1 := if ltb v lo then lo else v in
  if ltb hi v1 then hi else v1.

(** State shared by [QSpinBox], [QSlider], [QDoubleSpinBox] and
    [ScienDSpinBox]: a range, a value inside it and the [blockSignals]
    flag. *)
Record RangedWidget (V : Type) := {
  minimum : V;
  maximum : V;
  value : V;
  signalsBlocked : bool
}.
Arguments minimum {V} _.
Arguments maximum {V} _.
Arguments value {V} _.
Arguments signalsBlocked {V} _.

Definition with_value {V} (w : RangedWidget V) (v : V) : RangedWidget V :=
  {| minimum := minimum w; maximum := maximum w; value := v;
     signalsBlocked := signalsBlocked w |}.

(** [blockSignals(b)] *)
Definition blockSignals {V} (b : bool) (w : RangedWidget V) : RangedWidget V :=
  {| minimum := minimum w; maximum := maximum w; value := value w;
     signalsBlocked := b |}.

(** [setRange(lo, hi)]: Qt keeps [maximum >= minimum] and re-bounds the
    current value. *)
Definition setRange {V} `{Ordered V} (lo hi : V) (w : RangedWidget V) : RangedWidget V :=
  let hi' := if ltb lo hi then hi else lo in
  {| minimum := lo; maximum := hi'; value := bound lo hi' (value w);
     signalsBlocked := signalsBlocked w |}.

(** Qt emits [valueChanged] only when the stored value really changes. *)
Definition changed {V} `{Ordered V} (old new : V) : bool :=
  ltb old new || ltb new old.

(** [setValue(v)] on an integer widget ([QSpinBox], [QSlider]) or on a
    [ScienDSpinBox]: the value is bounded to the range; the second
    component tells whether [valueChanged] goes out. *)
Definition setValue {V} `{Ordered V} (v : V) (w : RangedWidget V) : RangedWidget V * bool :=
  let v' := bound (minimum w) (maximum w) v in
  (with_value w v', changed (value w) v' && negb (signalsBlocked w)).

(** [QDoubleSpinBox]: a ranged widget whose values are rounded to
    [decimals] places before they are bounded and stored. *)
Record QDoubleSpinBox (F : Type) := {
  spin : RangedWidget F;
  decimals : nat
}.
Arguments spin {F} _.
Arguments decimals {F} _.

Definition setDecimals {F} `{Ordered F} `{Decimals F} (d : nat) (w : QDoubleSpinBox F) : QDoubleSpinBox F :=
  {| spin := setRange (round_decimals d (minimum (spin w)))
                      (round_decimals d (maximum (spin w)))
                      (with_value (spin w) (round_decimals d (value (spin w))));
     decimals := d |}.

Definition setRange_double {F} `{Ordered F} `{Decimals F} (lo hi : F) (w : QDoubleSpinBox F) : QDoubleSpinBox F :=
  {| spin := setRange (round_decimals (decimals w) lo) (round_decimals (decimals w) hi) (spin w);
     decimals := decimals w |}.

Definition setValue_double {F} `{Ordered F} `{Decimals F} (v : F) (w : QDoubleSpinBox F) : QDoubleSpinBox F * bool :=
  let '(s, ch) := setValue (round_decimals (decimals w) v) (spin w) in
  ({| spin := s; decimals := decimals w |}, ch).

(** A plot curve holds the last data handed to [setData]. *)
Record PlotCurve (F : Type) := { xData : list F; yData : list F }.
Arguments xData {F} _.
Arguments yData {F} _.

(** * The laser-scanning GUI ([gui/LaserScanningGui.py]) *)
Module Laser.

(** The part of the external [LaserScanningLogic] object the GUI reads:
    attributes and getters.  [getState] is the module state machine's
    current state name. *)
Record LaserScanningLogic (F : Type) := {
  current_wavelength : F;
  intern_xmin : F;
  intern_xmax : F;
  histogram_axis : list F;
  histogram : list F;
  sumhisto : list F;
  getState : string;
  get_bins : Z;
  get_min_wavelength : F;
  get_max_wavelength : F
}.
Arguments current_wavelength {F} _.
Arguments intern_xmin {F} _.
Arguments intern_xmax {F} _.
Arguments histogram_axis {F} _.
Arguments histogram {F} _.
Arguments sumhisto {F} _.
Arguments getState {F} _.
Arguments get_bins {F} _.
Arguments get_min_wavelength {F} _.
Arguments get_max_wavelength {F} _.

(** The external [SaveLogic] object. *)
Record SaveLogic := { get_path_for_module : string -> string }.

(** The attributes [initUI] creates and the handlers use. *)
Record LaserScanningGui (F : Type) := {
  _start_stop_button : string;
  _bins_display : RangedWidget Z;
  _min_wavelength_display : QDoubleSpinBox F;
  _max_wavelength_display : QDoubleSpinBox F;
  _wavelength_label : string;
  _auto_min_label : string;
  _auto_max_label : string;
  _curve1 : PlotCurve F;
  _curve2 : PlotCurve F;
  _curve3 : PlotCurve F;
  _save_PNG : bool
}.
Arguments _start_stop_button {F} _.
Arguments _bins_display {F} _.
Arguments _min_wavelength_display {F} _.
Arguments _max_wavelength_display {F} _.
Arguments _wavelength_label {F} _.
Arguments _auto_min_label {F} _.
Arguments _auto_max_label {F} _.
Arguments _curve1 {F} _.
Arguments _curve2 {F} _.
Arguments _curve3 {F} _.
Arguments _save_PNG {F} _.

(** What a handler runs against: the GUI object, its two collaborators and
    the wall clock as [time.strftime] sees it. *)
Record world (F : Type) := {
  gui : LaserScanningGui F;
  _scanning_logic : LaserScanningLogic F;
  _save_logic : SaveLogic;
  strftime : string -> string
}.
Arguments gui {F} _.
Arguments _scanning_logic {F} _.
Arguments _save_logic {F} _.
Arguments strftime {F} _.

Section Handlers.
Context {F : Type} `{Ordered F} `{Arith F} `{Decimals F}.

(** [fmt.format(x)] for a one-float format string; Python's own. *)
Variable format_float : string -> F -> string.
(** What the logic layer does with a command; it lives outside this
    repository. *)
Variable logic_exec : command F -> LaserScanningLogic F -> LaserScanningLogic F.

Definition set_gui (g : LaserScanningGui F) (w : world F) : world F :=
  {| gui := g; _scanning_logic := _scanning_logic w;
     _save_logic := _save_logic w; strftime := strftime w |}.
Definition set_logic (l : LaserScanningLogic F) (w : world F) : world F :=
  {| gui := gui w; _scanning_logic := l;
     _save_logic := _save_logic w; strftime := strftime w |}.

Definition set_start_stop_button (t : string) (g : LaserScanningGui F) :=
  {| _start_stop_button := t; _bins_display := _bins_display g;
     _min_wavelength_display := _min_wavelength_display g;
     _max_wavelength_display := _max_wavelength_display g;
     _wavelength_label := _wavelength_label g;
     _auto_min_label := _auto_min_label g; _auto_max_label := _auto_max_label g;
     _curve1 := _curve1 g; _curve2 := _curve2 g; _curve3 := _curve3 g;
     _save_PNG := _save_PNG g |}.
Definition set_min_wavelength_display (d : QDoubleSpinBox F) (g : LaserScanningGui F) :=
  {| _start_stop_button := _start_stop_button g; _bins_display := _bins_display g;
     _min_wavelength_display := d;
     _max_wavelength_display := _max_wavelength_display g;
     _wavelength_label := _wavelength_label g;
     _auto_min_label := _auto_min_label g; _auto_max_label := _auto_max_label g;
     _curve1 := _curve1 g; _curve2 := _curve2 g; _curve3 := _curve3 g;
     _save_PNG := _save_PNG g |}.
Definition set_max_wavelength_display (d : QDoubleSpinBox F) (g : LaserScanningGui F) :=
  {| _start_stop_button := _start_stop_button g; _bins_display := _bins_display g;
     _min_wavelength_display := _min_wavelength_display g;
     _max_wavelength_display := d;
     _wavelength_label := _wavelength_label g;
     _auto_min_label := _auto_min_label g; _auto_max_label := _auto_max_label g;
     _curve1 := _curve1 g; _curve2 := _curve2 g; _curve3 := _curve3 g;
     _save_PNG := _save_PNG g |}.
Definition set_bins_display (d : RangedWidget Z) (g : LaserScanningGui F) :=
  {| _start_stop_button := _start_stop_button g; _bins_display := d;
     _min_wavelength_display := _min_wavelength_display g;
     _max_wavelength_display := _max_wavelength_display g;
     _wavelength_label := _wavelength_label g;
     _auto_min_label := _auto_min_label g; _auto_max_label := _auto_max_label g;
     _curve1 := _curve1 g; _curve2 := _curve2 g; _curve3 := _curve3 g;
     _save_PNG := _save_PNG g |}.
Definition set_labels (wl amin amax : string) (g : LaserScanningGui F) :=
  {| _start_stop_button := _start_stop_button g; _bins_display := _bins_display g;
     _min_wavelength_display := _min_wavelength_display g;
     _max_wavelength_display := _max_wavelength_display g;
     _wavelength_label := wl; _auto_min_label := amin; _auto_max_label := amax;
     _curve1 := _curve1 g; _curve2 := _curve2 g; _curve3 := _curve3 g;
     _save_PNG := _save_PNG g |}.
Definition set_curves (c1 c2 c3 : PlotCurve F) (g : LaserScanningGui F) :=
  {| _start_stop_button := _start_stop_button g; _bins_display := _bins_display g;
     _min_wavelength_display := _min_wavelength_display g;
     _max_wavelength_display := _max_wavelength_display g;
     _wavelength_label := _wavelength_label g;
     _auto_min_label := _auto_min_label g; _auto_max_label := _auto_max_label g;
     _curve1 := c1; _curve2 := c2; _curve3 := c3;
     _save_PNG := _save_PNG g |}.

(** Reading an attribute or calling a getter of the logic object. *)
Definition query {A} (member : string) (proj : LaserScanningLogic F -> A)
  : M F (world F) A :=
  emit (Query "_scanning_logic" member);;
  gets (fun w => proj (_scanning_logic w)).

(** Sending a command to the logic object. *)
Definition call (c : command F) : M F (world F) unit :=
  emit (Command c);;
  modify (fun w => set_logic (logic_exec c (_scanning_logic w)) w).

Definition update_gui (f : LaserScanningGui F -> LaserScanningGui F)
  : M F (world F) unit :=
  modify (fun w => set_gui (f (gui w)) w).

(** Lines 227-228: the wavelength axis (nm) turned into a frequency
    axis relative to the centre of the displayed range.  numpy applies
    the scalar expression to every element of [x_axis]. *)
Definition frequency (xmax xmin x : F) : F :=
  fsub (fdiv (of_Z 300000000000000000) x)
       (fdiv (of_Z 600000000000000000) (fadd xmax xmin)).

Definition x_axis_hz (x_axis : list F) (xmax xmin : F) : list F :=
  map (frequency xmax xmin) x_axis.

(** [updateData], the slot of the logic's [sig_data_updated]. *)
Definition updateData : M F (world F) unit :=
  cw ← query "current_wavelength" current_wavelength;
  imin ← query "intern_xmin" intern_xmin;
  imax ← query "intern_xmax" intern_xmax;
  update_gui (set_labels (format_float "{0:,.6f} nm" cw)
                         (format_float "Minimum: {0:3.6f} (nm)   " imin)
                         (format_float "Maximum: {0:3.6f} (nm)   " imax));;
  x_axis ← query "histogram_axis" histogram_axis;
  xmax ← query "get_max_wavelength" get_max_wavelength;
  xmin ← query "get_min_wavelength" get_min_wavelength;
  let hz := x_axis_hz x_axis xmax xmin in
  h1 ← query "histogram" histogram;
  s ← query "sumhisto" sumhisto;
  h3 ← query "histogram" histogram;
  update_gui (set_curves {| xData := x_axis; yData := h1 |}
                         {| xData := x_axis; yData := s |}
                         {| xData := hz; yData := h3 |});;
  st ← query "getState" getState;
  if String.eqb st "running"
  then update_gui (set_start_stop_button "Stop")
  else update_gui (set_start_stop_button "Start").

(** [start_clicked], the slot of the Start/Stop button. *)
Definition start_clicked : M F (world F) unit :=
  st ← query "getState" getState;
  if String.eqb st "running"
  then update_gui (set_start_stop_button "Start");;
       call Logic.stop_scanning
  else update_gui (set_start_stop_button "Stop");;
       call Logic.start_scanning.

(** [save_clicked], the slot of the Save button. *)
Definition save_clicked : M F (world F) unit :=
  emit (Query "_save_logic" "get_path_for_module");;
  filepath ← gets (fun w => get_path_for_module (_save_logic w) "LaserScanning");
  stamp ← gets (fun w => strftime w "\%Y-%m-%d_laser_scan_from_%Hh%Mm%Ss");
  let filename := String.append filepath stamp in
  emit (Export SVG (String.append filename ".svg"));;
  png ← gets (fun w => _save_PNG (gui w));
  emit_if png (Export PNG (String.append filename ".png"));;
  call Logic.save_data.

(** [recalculate_histogram], the slot of [editingFinished] of the three
    spin boxes. *)
Definition recalculate_histogram : M F (world F) unit :=
  bins ← gets (fun w => value (_bins_display (gui w)));
  xmin ← gets (fun w => value (spin (_min_wavelength_display (gui w))));
  xmax ← gets (fun w => value (spin (_max_wavelength_display (gui w))));
  call (Logic.recalculate_histogram bins xmin xmax).

(** [self._min_wavelength_display.setValue(v)] and its sibling. *)
Definition min_wavelength_setValue (v : F) : M F (world F) unit :=
  d ← gets (fun w => _min_wavelength_display (gui w));
  let '(d', ch) := setValue_double v d in
  update_gui (set_min_wavelength_display d');;
  emit_if ch (Emit "_min_wavelength_display" "valueChanged").

Definition max_wavelength_setValue (v : F) : M F (world F) unit :=
  d ← gets (fun w => _max_wavelength_display (gui w));
  let '(d', ch) := setValue_double v d in
  update_gui (set_max_wavelength_display d');;
  emit_if ch (Emit "_max_wavelength_display" "valueChanged").

Definition bins_setValue (v : Z) : M F (world F) unit :=
  d ← gets (fun w => _bins_display (gui w));
  let '(d', ch) := setValue v d in
  update_gui (set_bins_display d');;
  emit_if ch (Emit "_bins_display" "valueChanged").

(** [set_auto_range], the slot of the Set Auto Range button. *)
Definition set_auto_range : M F (world F) unit :=
  imin ← query "intern_xmin" intern_xmin;
  min_wavelength_setValue imin;;
  imax ← query "intern_xmax" intern_xmax;
  max_wavelength_setValue imax;;
  recalculate_histogram.

(** [show] and [_update_plot_views] only touch window geometry. *)
Definition show : M F (world F) unit := mret tt.
Definition _update_plot_views : M F (world F) unit := mret tt.

(** A freshly constructed [QSpinBox] / [QDoubleSpinBox] (Qt defaults). *)
Definition QSpinBox_new : RangedWidget Z :=
  {| minimum := 0; maximum := 99; value := 0; signalsBlocked := false |}.
Definition QDoubleSpinBox_new : QDoubleSpinBox F :=
  {| spin := {| minimum := of_Z 0; maximum := fdiv (of_Z 9999) (of_Z 100);
                value := of_Z 0; signalsBlocked := false |};
     decimals := 2 |}.
Definition PlotCurve_new : PlotCurve F := {| xData := []; yData := [] |}.

(** [initUI], run on activation: builds the window and its widgets from
    the current logic values. *)
Definition initUI : M F (world F) unit :=
  _update_plot_views;;
  bins ← query "get_bins" get_bins;
  let bins_display := fst (setValue bins (setRange 1 10000 QSpinBox_new)) in
  xmin ← query "get_min_wavelength" get_min_wavelength;
  let min_display :=
    fst (setValue_double xmin
           (setRange_double (of_Z 1) (of_Z 1000000)
              (setDecimals 6 QDoubleSpinBox_new))) in
  xmax ← query "get_max_wavelength" get_max_wavelength;
  let max_display :=
    fst (setValue_double xmax
           (setRange_double (of_Z 1) (of_Z 10000)
              (setDecimals 6 QDoubleSpinBox_new))) in
  update_gui (fun _ =>
    {| _start_stop_button := "Start";
       _bins_display := bins_display;
       _min_wavelength_display := min_display;
       _max_wavelength_display := max_display;
       _wavelength_label := "xxx";
       _auto_min_label := "Minimum: xxx.xxxxxx (nm)   ";
       _auto_max_label := "Maximum: xxx.xxxxxx (nm)   ";
       _curve1 := PlotCurve_new; _curve2 := PlotCurve_new; _curve3 := PlotCurve_new;
       _save_PNG := true |}).

(** The user finishes editing one of the spin boxes: Qt stores the
    typed value like [setValue] does and emits [editingFinished], whose
    slot is [recalculate_histogram]. *)
Definition edit_bins (v : Z) : M F (world F) unit :=
  bins_setValue v;;
  emit (Emit "_bins_display" "editingFinished");;
  recalculate_histogram.
Definition edit_min_wavelength (v : F) : M F (world F) unit :=
  min_wavelength_setValue v;;
  emit (Emit "_min_wavelength_display" "editingFinished");;
  recalculate_histogram.
Definition edit_max_wavelength (v : F) : M F (world F) unit :=
  max_wavelength_setValue v;;
  emit (Emit "_max_wavelength_display" "editingFinished");;
  recalculate_histogram.

(** Everything that can happen to an activated GUI through its methods
    and its widgets. *)
Inductive operation :=
| op_initUI
| op_show
| op_updateData
| op_start_clicked
| op_save_clicked
| op_recalculate_histogram
| op_set_auto_range
| op_update_plot_views
| op_edit_bins (v : Z)
| op_edit_min_wavelength (v : F)
| op_edit_max_wavelength (v : F).

Definition run (o : operation) : M F (world F) unit :=
  match o with
  | op_initUI => initUI
  | op_show => show
  | op_updateData => updateData
  | op_start_clicked => start_clicked
  | op_save_clicked => save_clicked
  | op_recalculate_histogram => recalculate_histogram
  | op_set_auto_range => set_auto_range
  | op_update_plot_views => _update_plot_views
  | op_edit_bins v => edit_bins v
  | op_edit_min_wavelength v => edit_min_wavelength v
  | op_edit_max_wavelength v => edit_max_wavelength v
  end.

(** The states an activated GUI can be in: [initUI] has run, then any
    sequence of operations, while the collaborators and the clock move
    on their own. *)
Inductive reachable : world F -> Prop :=
| reach_activate w : reachable (final (initUI w))
| reach_operation w o : reachable w -> reachable (final (run o w))
| reach_environment w l s c :
    reachable w ->
    reachable {| gui := gui w; _scanning_logic := l; _save_logic := s; strftime := c |}.

End Handlers.

(** The signal connections [initUI] makes: (sender, signal, slot). *)
Definition connections : list (string * string * string) :=
  [ ("_plot_item.vb", "sigResized", "_update_plot_views");
    ("_start_stop_button", "clicked", "start_clicked");
    ("_save_button", "clicked", "save_clicked");
    ("_bins_display", "editingFinished", "recalculate_histogram");
    ("_min_wavelength_display", "editingFinished", "recalculate_histogram");
    ("_max_wavelength_display", "editingFinished", "recalculate_histogram");
    ("_set_auto_range", "clicked", "set_auto_range");
    ("_scanning_logic", "sig_data_updated", "updateData") ].

End Laser.

(** * The confocal GUI ([gui/confocal/confocalgui2.py]) *)
Module Confocal.

(** Python's [int(x)] on a float: truncation towards zero.  This is how a
    float handed to an integer Qt slot ([QSlider.setValue], [setRange])
    arrives on the C++ side. *)
Definition Qtruncate (q : Q) : Z := Z.quot (Qnum q) (Zpos (Qden q)).

(** Modelled from the spec: [ScienDSpinBox] and [ScienSpinBox]
    ([qtwidgets/scientific_spinbox.py], not among the sources) are the
    numeric input widgets the scan settings are mirrored into; like the Qt
    spin boxes they replace they keep a value range and clamp what
    [setValue] is given to it ("range clamping").  The suffix is the unit
    shown after the number. *)
Record ScienDSpinBox := {
  box : RangedWidget Q;
  suffix : string
}.

Definition setRange_scien (lo hi : Q) (w : ScienDSpinBox) : ScienDSpinBox :=
  {| box := setRange lo hi (box w); suffix := suffix w |}.
Definition setSuffix (u : string) (w : ScienDSpinBox) : ScienDSpinBox :=
  {| box := box w; suffix := u |}.
Definition setValue_scien (v : Q) (w : ScienDSpinBox) : ScienDSpinBox * bool :=
  let '(b, ch) := setValue v (box w) in ({| box := b; suffix := suffix w |}, ch).
Definition blockSignals_scien (b : bool) (w : ScienDSpinBox) : ScienDSpinBox :=
  {| box := blockSignals b (box w); suffix := suffix w |}.

(** One entry of [axes_control_widgets]: the widgets of one scan axis. *)
Record AxisControl := {
  label : string;
  res_spinbox : RangedWidget Z;
  min_spinbox : ScienDSpinBox;
  max_spinbox : ScienDSpinBox;
  slider : RangedWidget Z;
  pos_spinbox : ScienDSpinBox
}.

(** One entry of [optimizer_settings_axes_widgets]. *)
Record OptimizerAxis := {
  opt_label : string;
  range_spinbox : ScienDSpinBox;
  opt_res_spinbox : RangedWidget Z
}.

Definition array := list (list Q).
Definition extent := list (Q * Q).

(** [ScanImageItem]: the image shown and the area it covers. *)
Record ScanImageItem := { image : array; image_extent : extent }.
(** A 2D scan dock widget, as far as the handlers touch it: the label of
    its colour bar. *)
Record Scan2dDock := { colorbar_text : string; colorbar_unit : string }.
(** A 1D scan dock widget: the left axis label of its plot. *)
Record Scan1dDock := { left_text : string; left_units : string }.

Record ConfocalGui := {
  pixel_clock_frequency_scienSpinBox : RangedWidget Q;
  backscan_speed_scienSpinBox : RangedWidget Q;
  axes_control_widgets : gmap string AxisControl;
  optimizer_settings_axes_widgets : gmap string OptimizerAxis;
  scan_2d_images : gmap string ScanImageItem;
  scan_1d_plots : gmap string array;
  scan_2d_dockwidgets : gmap string Scan2dDock;
  scan_1d_dockwidgets : gmap string Scan1dDock
}.

(** The settings dict: a key that may be missing is an [option], an inner
    dict is the list of its items in iteration order. *)
Record ScannerSettings := {
  pixel_clock_frequency : option Q;
  backscan_speed : option Q;
  scan_resolution : option (list (string * Z));
  scan_range : option (list (string * (Q * Q)))
}.

(** One value of the [scanner_constraints] dict. *)
Record AxisConstraints := {
  min_resolution : Z;
  max_resolution : Z;
  min_value : Q;
  max_value : Q;
  axis_unit : string
}.

(** One element of [scan_data]: [data['axes']['names']],
    [data['axes']['extent']], the optional [data['scan']] and
    [data['unit']]. *)
Record ScanData := {
  axes_names : list string;
  axes_extent : extent;
  scan : option array;
  data_unit : string
}.

(** The attributes of the external [ConfocalLogic] object the GUI reads. *)
Record ConfocalLogic := {
  scanner_settings : ScannerSettings;
  scanner_position : list (string * Q);
  scan_data : list ScanData;
  scanner_constraints : list (string * AxisConstraints);
  scanner_axes_names : list string
}.

Record world := {
  gui : ConfocalGui;
  scannerlogic : ConfocalLogic
}.

Abbreviation handler := (M Q world).

Definition set_gui (g : ConfocalGui) (w : world) : world :=
  {| gui := g; scannerlogic := scannerlogic w |}.

Definition set_pixel_clock (b : RangedWidget Q) (g : ConfocalGui) : ConfocalGui :=
  {| pixel_clock_frequency_scienSpinBox := b;
     backscan_speed_scienSpinBox := backscan_speed_scienSpinBox g;
     axes_control_widgets := axes_control_widgets g;
     optimizer_settings_axes_widgets := optimizer_settings_axes_widgets g;
     scan_2d_images := scan_2d_images g; scan_1d_plots := scan_1d_plots g;
     scan_2d_dockwidgets := scan_2d_dockwidgets g;
     scan_1d_dockwidgets := scan_1d_dockwidgets g |}.
Definition set_backscan_speed (b : RangedWidget Q) (g : ConfocalGui) : ConfocalGui :=
  {| pixel_clock_frequency_scienSpinBox := pixel_clock_frequency_scienSpinBox g;
     backscan_speed_scienSpinBox := b;
     axes_control_widgets := axes_control_widgets g;
     optimizer_settings_axes_widgets := optimizer_settings_axes_widgets g;
     scan_2d_images := scan_2d_images g; scan_1d_plots := scan_1d_plots g;
     scan_2d_dockwidgets := scan_2d_dockwidgets g;
     scan_1d_dockwidgets := scan_1d_dockwidgets g |}.
Definition set_axes_control_widgets (m : gmap string AxisControl) (g : ConfocalGui) : ConfocalGui :=
  {| pixel_clock_frequency_scienSpinBox := pixel_clock_frequency_scienSpinBox g;
     backscan_speed_scienSpinBox := backscan_speed_scienSpinBox g;
     axes_control_widgets := m;
     optimizer_settings_axes_widgets := optimizer_settings_axes_widgets g;
     scan_2d_images := scan_2d_images g; scan_1d_plots := scan_1d_plots g;
     scan_2d_dockwidgets := scan_2d_dockwidgets g;
     scan_1d_dockwidgets := scan_1d_dockwidgets g |}.
Definition set_optimizer_widgets (m : gmap string OptimizerAxis) (g : ConfocalGui) : ConfocalGui :=
  {| pixel_clock_frequency_scienSpinBox := pixel_clock_frequency_scienSpinBox g;
     backscan_speed_scienSpinBox := backscan_speed_scienSpinBox g;
     axes_control_widgets := axes_control_widgets g;
     optimizer_settings_axes_widgets := m;
     scan_2d_images := scan_2d_images g; scan_1d_plots := scan_1d_plots g;
     scan_2d_dockwidgets := scan_2d_dockwidgets g;
     scan_1d_dockwidgets := scan_1d_dockwidgets g |}.
Definition set_scan_2d_images (m : gmap string ScanImageItem) (g : ConfocalGui) : ConfocalGui :=
  {| pixel_clock_frequency_scienSpinBox := pixel_clock_frequency_scienSpinBox g;
     backscan_speed_scienSpinBox := backscan_speed_scienSpinBox g;
     axes_control_widgets := axes_control_widgets g;
     optimizer_settings_axes_widgets := optimizer_settings_axes_widgets g;
     scan_2d_images := m; scan_1d_plots := scan_1d_plots g;
     scan_2d_dockwidgets := scan_2d_dockwidgets g;
     scan_1d_dockwidgets := scan_1d_dockwidgets g |}.
Definition set_scan_1d_plots (m : gmap string array) (g : ConfocalGui) : ConfocalGui :=
  {| pixel_clock_frequency_scienSpinBox := pixel_clock_frequency_scienSpinBox g;
     backscan_speed_scienSpinBox := backscan_speed_scienSpinBox g;
     axes_control_widgets := axes_control_widgets g;
     optimizer_settings_axes_widgets := optimizer_settings_axes_widgets g;
     scan_2d_images := scan_2d_images g; scan_1d_plots := m;
     scan_2d_dockwidgets := scan_2d_dockwidgets g;
     scan_1d_dockwidgets := scan_1d_dockwidgets g |}.
Definition set_scan_2d_dockwidgets (m : gmap string Scan2dDock) (g : ConfocalGui) : ConfocalGui :=
  {| pixel_clock_frequency_scienSpinBox := pixel_clock_frequency_scienSpinBox g;
     backscan_speed_scienSpinBox := backscan_speed_scienSpinBox g;
     axes_control_widgets := axes_control_widgets g;
     optimizer_settings_axes_widgets := optimizer_settings_axes_widgets g;
     scan_2d_images := scan_2d_images g; scan_1d_plots := scan_1d_plots g;
     scan_2d_dockwidgets := m;
     scan_1d_dockwidgets := scan_1d_dockwidgets g |}.
Definition set_scan_1d_dockwidgets (m : gmap string Scan1dDock) (g : ConfocalGui) : ConfocalGui :=
  {| pixel_clock_frequency_scienSpinBox := pixel_clock_frequency_scienSpinBox g;
     backscan_speed_scienSpinBox := backscan_speed_scienSpinBox g;
     axes_control_widgets := axes_control_widgets g;
     optimizer_settings_axes_widgets := optimizer_settings_axes_widgets g;
     scan_2d_images := scan_2d_images g; scan_1d_plots := scan_1d_plots g;
     scan_2d_dockwidgets := scan_2d_dockwidgets g;
     scan_1d_dockwidgets := m |}.

Definition update_gui (f : ConfocalGui -> ConfocalGui) : handler unit :=
  modify (fun w => set_gui (f (gui w)) w).

(** Reading an attribute of [self.scannerlogic()]. *)
Definition query {A} (member : string) (proj : ConfocalLogic -> A) : handler A :=
  emit (Query "scannerlogic" member);;
  gets (fun w => proj (scannerlogic w)).

(** [d[key]] on one of the widget dicts: [KeyError] when the key is
    missing. *)
Definition getitem {A} (d : world -> gmap string A) (key : string) : handler A :=
  o ← gets (fun w => d w !! key);
  match o with
  | Some a => mret a
  | None => raise (KeyError key)
  end.

(** [for x in l: body(x)] *)
Fixpoint for_each {A} (body : A -> handler unit) (l : list A) : handler unit :=
  match l with
  | [] => mret tt
  | x :: l' => body x;; for_each body l'
  end.

Definition update_axis (axis : string) (f : AxisControl -> AxisControl) : handler unit :=
  update_gui (fun g => set_axes_control_widgets (alter f axis (axes_control_widgets g)) g).
Definition update_optimizer_axis (axis : string) (f : OptimizerAxis -> OptimizerAxis)
  : handler unit :=
  update_gui (fun g =>
    set_optimizer_widgets (alter f axis (optimizer_settings_axes_widgets g)) g).

Definition with_res_spinbox (r : RangedWidget Z) (a : AxisControl) : AxisControl :=
  {| label := label a; res_spinbox := r; min_spinbox := min_spinbox a;
     max_spinbox := max_spinbox a; slider := slider a; pos_spinbox := pos_spinbox a |}.
Definition with_range_spinboxes (lo hi : ScienDSpinBox) (a : AxisControl) : AxisControl :=
  {| label := label a; res_spinbox := res_spinbox a; min_spinbox := lo;
     max_spinbox := hi; slider := slider a; pos_spinbox := pos_spinbox a |}.
Definition with_position_widgets (sl : RangedWidget Z) (sp : ScienDSpinBox) (a : AxisControl)
  : AxisControl :=
  {| label := label a; res_spinbox := res_spinbox a; min_spinbox := min_spinbox a;
     max_spinbox := max_spinbox a; slider := sl; pos_spinbox := sp |}.

(** Body of the loop of [apply_scanner_constraints] for one item of the
    constraints dict. *)
Definition apply_axis_constraints (item : string * AxisConstraints) : handler unit :=
  let '(axis, axis_dict) := item in
  let res_lo := Z.max 2 (min_resolution axis_dict) in
  let res_hi := Z.min (2 ^ 31 - 1) (max_resolution axis_dict) in
  let lo := min_value axis_dict in
  let hi := max_value axis_dict in
  _ ← getitem (fun w => axes_control_widgets (gui w)) axis;
  update_axis axis (fun a =>
    {| label := label a;
       res_spinbox := setRange res_lo res_hi (res_spinbox a);
       min_spinbox := setRange_scien lo hi (min_spinbox a);
       max_spinbox := setRange_scien lo hi (max_spinbox a);
       slider := setRange (Qtruncate lo) (Qtruncate hi) (slider a);
       pos_spinbox := setRange_scien lo hi (pos_spinbox a) |});;
  _ ← getitem (fun w => optimizer_settings_axes_widgets (gui w)) axis;
  update_optimizer_axis axis (fun o =>
    {| opt_label := opt_label o;
       range_spinbox := setRange_scien 0 (hi - lo) (range_spinbox o);
       opt_res_spinbox := setRange res_lo res_hi (opt_res_spinbox o) |});;
  update_axis axis (fun a =>
    {| label := label a;
       res_spinbox := res_spinbox a;
       min_spinbox := setSuffix (axis_unit axis_dict) (min_spinbox a);
       max_spinbox := setSuffix (axis_unit axis_dict) (max_spinbox a);
       slider := slider a;
       pos_spinbox := setSuffix (axis_unit axis_dict) (pos_spinbox a) |});;
  update_optimizer_axis axis (fun o =>
    {| opt_label := opt_label o;
       range_spinbox := setSuffix (axis_unit axis_dict) (range_spinbox o);
       opt_res_spinbox := opt_res_spinbox o |}).

(** [apply_scanner_constraints] *)
Definition apply_scanner_constraints : handler unit :=
  constraints ← query "scanner_constraints" scanner_constraints;
  for_each apply_axis_constraints constraints.

(** Lines 648-652: one item of [settings['scan_resolution']]. *)
Definition mirror_resolution (item : string * Z) : handler unit :=
  let '(axis, resolution) := item in
  a ← getitem (fun w => axes_control_widgets (gui w)) axis;
  let blocked := blockSignals true (res_spinbox a) in
  let '(set, ch) := setValue resolution blocked in
  update_axis axis (with_res_spinbox (blockSignals false set));;
  emit_if ch (Emit (String.append axis ".res_spinbox") "valueChanged").

(** Lines 654-662: one item of [settings['scan_range']]. *)
Definition mirror_range (item : string * (Q * Q)) : handler unit :=
  let '(axis, axis_range) := item in
  a ← getitem (fun w => axes_control_widgets (gui w)) axis;
  let min_blocked := blockSignals_scien true (min_spinbox a) in
  let max_blocked := blockSignals_scien true (max_spinbox a) in
  let '(min_set, min_ch) := setValue_scien (fst axis_range) min_blocked in
  let '(max_set, max_ch) := setValue_scien (snd axis_range) max_blocked in
  update_axis axis (with_range_spinboxes (blockSignals_scien false min_set)
                                         (blockSignals_scien false max_set));;
  emit_if min_ch (Emit (String.append axis ".min_spinbox") "valueChanged");;
  emit_if max_ch (Emit (String.append axis ".max_spinbox") "valueChanged").

(** Lines 643-646: the two spin boxes of the settings dialog. *)
Definition mirror_pixel_clock_frequency (v : Q) : handler unit :=
  b ← gets (fun w => pixel_clock_frequency_scienSpinBox (gui w));
  let '(b', ch) := setValue v b in
  update_gui (set_pixel_clock b');;
  emit_if ch (Emit "_ssd.pixel_clock_frequency_scienSpinBox" "valueChanged").

Definition mirror_backscan_speed (v : Q) : handler unit :=
  b ← gets (fun w => backscan_speed_scienSpinBox (gui w));
  let '(b', ch) := setValue v b in
  update_gui (set_backscan_speed b');;
  emit_if ch (Emit "_ssd.backscan_speed_scienSpinBox" "valueChanged").

(** [if key in settings: body(settings[key])] *)
Definition if_present {A} (o : option A) (body : A -> handler unit) : handler unit :=
  match o with
  | Some a => body a
  | None => mret tt
  end.

(** [scanner_settings_updated(settings)]; [None] stands for a call without
    a dict, which reads the settings from the logic. *)
Definition scanner_settings_updated (arg : option ScannerSettings) : handler unit :=
  settings ← match arg with
             | Some s => mret s
             | None => query "scanner_settings" scanner_settings
             end;
  if_present (pixel_clock_frequency settings) mirror_pixel_clock_frequency;;
  if_present (backscan_speed settings) mirror_backscan_speed;;
  if_present (scan_resolution settings) (for_each mirror_resolution);;
  if_present (scan_range settings) (for_each mirror_range).

(** Lines 677-685: one item of the position dict. *)
Definition mirror_position (item : string * Q) : handler unit :=
  let '(axis, pos) := item in
  a ← getitem (fun w => axes_control_widgets (gui w)) axis;
  let slider_blocked := blockSignals true (slider a) in
  let spinbox_blocked := blockSignals_scien true (pos_spinbox a) in
  let '(slider_set, slider_ch) := setValue (Qtruncate pos) slider_blocked in
  let '(spinbox_set, spinbox_ch) := setValue_scien pos spinbox_blocked in
  update_axis axis (with_position_widgets (blockSignals false slider_set)
                                          (blockSignals_scien false spinbox_set));;
  emit_if slider_ch (Emit (String.append axis ".slider") "valueChanged");;
  emit_if spinbox_ch (Emit (String.append axis ".pos_spinbox") "valueChanged").

(** [scanner_position_updated(position)] *)
Definition scanner_position_updated (arg : option (list (string * Q))) : handler unit :=
  position ← match arg with
             | Some p => mret p
             | None => query "scanner_position" scanner_position
             end;
  for_each mirror_position position.

(** The format string ['{0},{1}'] applied to a two-element [axes]. *)
Definition key_of (a0 a1 : string) : string :=
  String.append a0 (String.append "," a1).

(** Lines 702-714: the loop body of [scan_data_updated].  [key] is the
    function-local variable of that name: it is bound by the first
    two-axis frame that carries a ['scan'] entry and keeps its value over
    the following iterations. *)
Definition show_frame (key : option string) (data : ScanData) : handler (option string) :=
  match axes_names data with
  | [a0; a1] =>
      key ← match scan data with
            | Some img =>
                let k := key_of a0 a1 in
                item ← getitem (fun w => scan_2d_images (gui w)) k;
                update_gui (fun g =>
                  set_scan_2d_images
                    (<[k := {| image := img; image_extent := image_extent item |}]>
                       (scan_2d_images g)) g);;
                mret (Some k)
            | None => mret key
            end;
      match key with
      | None => raise (UnboundLocalError "key")
      | Some k =>
          item ← getitem (fun w => scan_2d_images (gui w)) k;
          update_gui (fun g =>
            set_scan_2d_images
              (<[k := {| image := image item; image_extent := axes_extent data |}]>
                 (scan_2d_images g)) g);;
          _ ← getitem (fun w => scan_2d_dockwidgets (gui w)) k;
          update_gui (fun g =>
            set_scan_2d_dockwidgets
              (<[k := {| colorbar_text := "scan data"; colorbar_unit := data_unit data |}]>
                 (scan_2d_dockwidgets g)) g);;
          mret (Some k)
      end
  | [a0] =>
      match scan data with
      | Some img =>
          _ ← getitem (fun w => scan_1d_plots (gui w)) a0;
          update_gui (fun g => set_scan_1d_plots (<[a0 := img]> (scan_1d_plots g)) g)
      | None => mret tt
      end;;
      _ ← getitem (fun w => scan_1d_dockwidgets (gui w)) a0;
      update_gui (fun g =>
        set_scan_1d_dockwidgets
          (<[a0 := {| left_text := "scan data"; left_units := data_unit data |}]>
             (scan_1d_dockwidgets g)) g);;
      mret key
  | _ => mret key
  end.

Fixpoint show_frames (key : option string) (frames : list ScanData) : handler unit :=
  match frames with
  | [] => mret tt
  | data :: rest => key' ← show_frame key data; show_frames key' rest
  end.

(** [scan_data_updated(scan_data)]; [None] stands for a call without a
    list or tuple, which reads the frames from the logic. *)
Definition scan_data_updated (arg : option (list ScanData)) : handler unit :=
  frames ← match arg with
           | Some l => mret l
           | None => query "scan_data" scan_data
           end;
  show_frames None frames.

(** A key press as Qt delivers it. *)
Record QKeyEvent := { key : Z; modifiers : Z }.

(** [move_scanner_by_keyboard_event]: the body is [pass]. *)
Definition move_scanner_by_keyboard_event (event : QKeyEvent) : handler unit :=
  mret tt.

(** [ConfocalMainWindow.keyPressEvent]: re-emits the event as
    [sigKeyboardPressed] and hands it to [QMainWindow]. *)
Definition keyPressEvent (event : QKeyEvent) : handler unit :=
  emit (Emit "_mw" "sigKeyboardPressed").

(** The slots [on_activate] connects to [sigKeyboardPressed]: none.  (The
    only [connect] on that signal is in [init_main], which nothing
    calls.) *)
Definition sigKeyboardPressed_slots : list (QKeyEvent -> handler unit) := [].

(** A key press delivered to the main window: [keyPressEvent], then every
    connected slot. *)
Definition deliver_key (event : QKeyEvent) : handler unit :=
  keyPressEvent event;;
  for_each (fun slot => slot event) sigKeyboardPressed_slots.

End Confocal.

(** * Sample collaborators and states

    Concrete logic objects and GUI states on which the handlers are run. *)
Module Sample.
Import Laser.
#[local] Open Scope Q_scope.

(** A logic that reacts to the commands the way the scanning logic is
    described: start and stop flip the state, a recalculation takes over
    the bins and bounds it is given. *)
Definition logic_exec (c : command Q) (l : LaserScanningLogic Q) : LaserScanningLogic Q :=
  match c with
  | Logic.start_scanning =>
      {| current_wavelength := current_wavelength l; intern_xmin := intern_xmin l;
         intern_xmax := intern_xmax l; histogram_axis := histogram_axis l;
         histogram := histogram l; sumhisto := sumhisto l; getState := "running";
         get_bins := get_bins l; get_min_wavelength := get_min_wavelength l;
         get_max_wavelength := get_max_wavelength l |}
  | Logic.stop_scanning =>
      {| current_wavelength := current_wavelength l; intern_xmin := intern_xmin l;
         intern_xmax := intern_xmax l; histogram_axis := histogram_axis l;
         histogram := histogram l; sumhisto := sumhisto l; getState := "idle";
         get_bins := get_bins l; get_min_wavelength := get_min_wavelength l;
         get_max_wavelength := get_max_wavelength l |}
  | Logic.save_data => l
  | Logic.recalculate_histogram bins xmin xmax =>
      {| current_wavelength := current_wavelength l; intern_xmin := intern_xmin l;
         intern_xmax := intern_xmax l; histogram_axis := histogram_axis l;
         histogram := histogram l; sumhisto := sumhisto l; getState := getState l;
         get_bins := bins; get_min_wavelength := xmin;
         get_max_wavelength := xmax |}
  end.

Definition format_float (fmt : string) (x : Q) : string := fmt.

Definition logic (st : string) (xmin xmax : Q) : LaserScanningLogic Q :=
  {| current_wavelength := 6328 # 10; intern_xmin := xmin; intern_xmax := xmax;
     histogram_axis := [630; 632; 634; 636]; histogram := [10; 40; 30; 5];
     sumhisto := [1; 4; 3; 1]; getState := st; get_bins := 200;
     get_min_wavelength := 630; get_max_wavelength := 636 |}.

Definition savelogic : SaveLogic :=
  {| get_path_for_module := fun m => String.append "C:\Data\2015\" m |}.

Definition clock (fmt : string) : string := "\2015-06-01_laser_scan_from_12h00m00s".

Definition blank : LaserScanningGui Q :=
  {| _start_stop_button := ""; _bins_display := QSpinBox_new;
     _min_wavelength_display := QDoubleSpinBox_new;
     _max_wavelength_display := QDoubleSpinBox_new;
     _wavelength_label := ""; _auto_min_label := ""; _auto_max_label := "";
     _curve1 := PlotCurve_new; _curve2 := PlotCurve_new; _curve3 := PlotCurve_new;
     _save_PNG := false |}.

(** The GUI right after activation, against a logic in state [st] that
    reports the data range [xmin .. xmax]. *)
Definition activated (st : string) (xmin xmax : Q) : world Q :=
  final (initUI {| gui := blank; _scanning_logic := logic st xmin xmax;
                   _save_logic := savelogic; strftime := clock |}).

End Sample.

(** * Statements under test *)

(** The value a [QDoubleSpinBox] holds after [setValue(v)]: [v] rounded to
    the widget's decimals, then bounded to its range. *)
Definition stored {F} `{Ordered F} `{Decimals F} (d : QDoubleSpinBox F) (v : F) : F :=
  bound (minimum (spin d)) (maximum (spin d)) (round_decimals (decimals d) v).

(** The ranges and decimals of the two wavelength inputs. *)
Definition input_ranges {F} (w : Laser.world F) : (F * F * nat) * (F * F * nat) :=
  let lo := Laser._min_wavelength_display (Laser.gui w) in
  let hi := Laser._max_wavelength_display (Laser.gui w) in
  ((minimum (spin lo), maximum (spin lo), decimals lo),
   (minimum (spin hi), maximum (spin hi), decimals hi)).

(** "Auto-range sets the min and max inputs to exactly the reported
    [intern_xmin] and [intern_xmax] and recalculates with those bounds",
    for one state. *)
Definition auto_range_exact
  (logic_exec : command Q -> Laser.LaserScanningLogic Q -> Laser.LaserScanningLogic Q)
  (w : Laser.world Q) : Prop :=
  let l := Laser._scanning_logic w in
  let o := Laser.set_auto_range logic_exec w in
  (value (spin (Laser._min_wavelength_display (Laser.gui (final o)))) == Laser.intern_xmin l)%Q /\
  (value (spin (Laser._max_wavelength_display (Laser.gui (final o)))) == Laser.intern_xmax l)%Q /\
  exists bins xmin xmax,
    commands (events o) = [Command (Logic.recalculate_histogram bins xmin xmax)] /\
    (xmin == Laser.intern_xmin l)%Q /\ (xmax == Laser.intern_xmax l)%Q.





(** Everything of a confocal state except [axes_control_widgets]. *)
Definition outside_axes (w : Confocal.world) :=
  (Confocal.scannerlogic w,
   Confocal.pixel_clock_frequency_scienSpinBox (Confocal.gui w),
   Confocal.backscan_speed_scienSpinBox (Confocal.gui w),
   Confocal.optimizer_settings_axes_widgets (Confocal.gui w),
   Confocal.scan_2d_images (Confocal.gui w),
   Confocal.scan_1d_plots (Confocal.gui w),
   Confocal.scan_2d_dockwidgets (Confocal.gui w),
   Confocal.scan_1d_dockwidgets (Confocal.gui w)).

Definition axes_widgets (w : Confocal.world) : gmap string Confocal.AxisControl :=
  Confocal.axes_control_widgets (Confocal.gui w).


Module SampleConfocal.
Import Confocal.
#[local] Open Scope Q_scope.

(** Widgets of an axis as [_generate_axes_control_widgets] builds them for
    a second or later axis, before any constraint is applied. *)
Definition fresh_scien : ScienDSpinBox :=
  {| box := {| minimum := -1000000000; maximum := 1000000000; value := 0;
               signalsBlocked := false |};
     suffix := "" |}.
Definition fresh_axis (name : string) : AxisControl :=
  {| label := String.append name "-Axis:";
     res_spinbox := setRange 2%Z (2 ^ 31 - 1)%Z
                      {| minimum := 0%Z; maximum := 99%Z; value := 0%Z;
                         signalsBlocked := false |};
     min_spinbox := fresh_scien; max_spinbox := fresh_scien;
     slider := {| minimum := 0%Z; maximum := 99%Z; value := 0%Z;
                  signalsBlocked := false |};
     pos_spinbox := fresh_scien |}.
Definition fresh_optimizer_axis (name : string) : OptimizerAxis :=
  {| opt_label := String.append name "-Axis:"; range_spinbox := fresh_scien;
     opt_res_spinbox := setRange 2%Z (2 ^ 31 - 1)%Z
                          {| minimum := 0%Z; maximum := 99%Z; value := 0%Z;
                             signalsBlocked := false |} |}.

Definition blank_image : ScanImageItem := {| image := [[0; 0]; [0; 0]]; image_extent := [] |}.
Definition blank_dock2 : Scan2dDock := {| colorbar_text := ""; colorbar_unit := "" |}.
Definition blank_dock1 : Scan1dDock := {| left_text := "scan data"; left_units := "arb.u." |}.

(** A GUI for the axes x, y, z with the 2D scans x,y and x,z and the 1D
    scan z. *)
Definition fresh_gui : ConfocalGui :=
  {| pixel_clock_frequency_scienSpinBox :=
       {| minimum := 0; maximum := 1000000000; value := 0; signalsBlocked := false |};
     backscan_speed_scienSpinBox :=
       {| minimum := 0; maximum := 1000000000; value := 0; signalsBlocked := false |};
     axes_control_widgets :=
       <["x" := fresh_axis "x"]> (<["y" := fresh_axis "y"]> (<["z" := fresh_axis "z"]> ∅));
     optimizer_settings_axes_widgets :=
       <["x" := fresh_optimizer_axis "x"]>
         (<["y" := fresh_optimizer_axis "y"]> (<["z" := fresh_optimizer_axis "z"]> ∅));
     scan_2d_images := <["x,y" := blank_image]> (<["x,z" := blank_image]> ∅);
     scan_1d_plots := <["z" := [[0; 0]]]> ∅;
     scan_2d_dockwidgets := <["x,y" := blank_dock2]> (<["x,z" := blank_dock2]> ∅);
     scan_1d_dockwidgets := <["z" := blank_dock1]> ∅ |}.

(** A scanner whose axes all admit resolutions [2 .. max_res] and
    positions [0 .. max_val]. *)
Definition logic (max_res : Z) (max_val : Q) : ConfocalLogic :=
  let c := {| min_resolution := 2; max_resolution := max_res;
              min_value := 0; max_value := max_val; axis_unit := "m" |} in
  {| scanner_settings :=
       {| pixel_clock_frequency := Some 1000; backscan_speed := Some 50;
          scan_resolution := Some [("x", 50%Z); ("y", 50%Z); ("z", 50%Z)];
          scan_range := Some [("x", (0, max_val)); ("y", (0, max_val)); ("z", (0, max_val))] |};
     scanner_position := [("x", 0); ("y", 0); ("z", 0)];
     scan_data := [];
     scanner_constraints := [("x", c); ("y", c); ("z", c)];
     scanner_axes_names := ["x"; "y"; "z"] |}.

(** The state after [apply_scanner_constraints] against that scanner. *)
Definition constrained (max_res : Z) (max_val : Q) : world :=
  final (apply_scanner_constraints {| gui := fresh_gui; scannerlogic := logic max_res max_val |}).

End SampleConfocal.










Module SampleFrames.
Import Confocal.
#[local] Open Scope Q_scope.

Definition xy_scan : ScanData :=
  {| axes_names := ["x"; "y"]; axes_extent := [(0, 10); (0, 10)];
     scan := Some [[1; 2]; [3; 4]]; data_unit := "c/s" |}.
Definition z_scan : ScanData :=
  {| axes_names := ["z"]; axes_extent := [(0, 5)];
     scan := Some [[7; 8; 9]]; data_unit := "c/s" |}.

End SampleFrames.

(** "The frequency transform is strictly decreasing in the wavelength",
    stated once for every arithmetic the source expression can be read
    in: for positive wavelengths [l1 < l2] and bounds with a positive sum,
    [frequency l2 < frequency l1]. *)
Definition strictly_decreasing (F : Type) `{Ordered F} `{Arith F} : Prop :=
  forall xmax xmin l1 l2 : F,
    ltb (of_Z 0) l1 = true -> ltb l1 l2 = true ->
    ltb (of_Z 0) (fadd xmax xmin) = true ->
    ltb (Laser.frequency xmax xmin l2) (Laser.frequency xmax xmin l1) = true.

(** ** Binary64 arithmetic

    The numbers numpy computes with are IEEE 754 binary64, here the
    primitive floats, whose operations are specified by the functions of
    [SpecFloat] ([SFdiv], [SFsub], [SFcompare]) on mantissa and exponent.
    To reason about the order of results, each number is given its real
    value and rounding is described as a relation on the reals. *)
Module Binary64.
#[local] Open Scope R_scope.

(** Powers of two, with integer exponents. *)
Definition pow2 (e : Z) : R := powerRZ 2 e.

(** Where a real [t] lies relative to the integer [m]. *)
Definition locates (t : R) (m : Z) (l : location) : Prop :=
  match l with
  | loc_Exact => t = IZR m
  | loc_Inexact Lt => IZR m < t < IZR m + / 2
  | loc_Inexact Eq => t = IZR m + / 2
  | loc_Inexact Gt => IZR m + / 2 < t < IZR m + 1
  end.

(** The same for the shift register [binary_round_aux] works on. *)
Definition locates_rec (t : R) (mrs : shr_record) : Prop :=
  (0 <= shr_m mrs)%Z /\ locates t (shr_m mrs) (loc_of_shr_record mrs).

(** [r] is [t] rounded to the nearest integer, ties to even. *)
Definition rne (t : R) (r : Z) : Prop :=
  IZR r - / 2 <= t <= IZR r + / 2 /\
  (t = IZR r - / 2 -> Z.even r = true) /\
  (t = IZR r + / 2 -> Z.even r = true).

(** [c] is the exponent binary64 gives the last bit of a positive [x]. *)
Definition lsb_exp (x : R) (c : Z) : Prop :=
  (c = (-1074)%Z /\ x < pow2 (-1021)) \/
  ((-1074 < c)%Z /\ pow2 (c + 52) <= x < pow2 (c + 53)).

(** [Z] is the positive real [x] rounded to binary64, ties to even, with
    [pow2 2000] standing for the infinity an overflow gives. *)
Definition Round (x Z : R) : Prop :=
  exists c r, lsb_exp x c /\ rne (x / pow2 c) r /\
    ((IZR r * pow2 c < pow2 1024 /\ Z = IZR r * pow2 c) \/
     (pow2 1024 <= IZR r * pow2 c /\ Z = pow2 2000)).

(** [v] with the sign bit [s]. *)
Definition sgn (s : bool) (v : R) : R := if s then - v else v.

(** The value of a binary64 number; an infinity counts as [pow2 2000]. *)
Definition SF2R (f : spec_float) : R :=
  match f with
  | S754_zero _ => 0
  | S754_infinity s => sgn s (pow2 2000)
  | S754_nan => 0
  | S754_finite s m e => sgn s (IZR (Zpos m) * pow2 e)
  end.

(** Rounding of a real of either sign, or zero. *)
Definition RoundS (x Z : R) : Prop :=
  (0 < x /\ Round x Z) \/ (x = 0 /\ Z = 0) \/ (x < 0 /\ exists Z', Round (- x) Z' /\ Z = - Z').

(** What [valid_binary] says of a mantissa and an exponent. *)
Record canonical (m : positive) (e : Z) : Prop := {
  can_fexp : fexp 53 1024 (Zdigits2 (Zpos m) + e) = e;
  can_emin : (-1074 <= e)%Z;
  can_emax : (e <= 971)%Z;
  can_digits : (Zdigits2 (Zpos m) <= 53)%Z;
  can_normal : (-1074 < e)%Z -> Zdigits2 (Zpos m) = 53%Z;
  can_pos : 0 < IZR (Zpos m) * pow2 e;
  can_lt53 : IZR (Zpos m) < pow2 53;
  can_top : IZR (Zpos m) * pow2 e < pow2 1024
}.

(** Whether a number is NaN. *)
Definition is_nan_sf (f : spec_float) : bool :=
  match f with S754_nan => true | _ => false end.

(** Zeros and finite numbers. *)
Definition fin (f : spec_float) : Prop :=
  match f with S754_zero _ | S754_finite _ _ _ => True | _ => False end.

End Binary64.

(** "The frequency transform is not increasing in the wavelength", for
    the binary64 numbers the code computes with: for wavelengths
    [0 < l1 < l2], if the frequency of [l1] is a number (not NaN) then
    so is the frequency of [l2], and it is less than or equal to the
    frequency of [l1]. *)
Definition non_increasing_binary64 : Prop :=
  forall xmax xmin l1 l2 : float,
    ltb (of_Z 0) l1 = true -> ltb l1 l2 = true ->
    PrimFloat.is_nan (Laser.frequency xmax xmin l1) = false ->
    PrimFloat.leb (Laser.frequency xmax xmin l2) (Laser.frequency xmax xmin l1) = true.

(** Frame reasoning for handlers.

    [frame R E m]: whatever state [m] is run from, the state it ends in
    (returning or raising) is [R]-related to the start state, and every
    event of the run satisfies [E]. *)
Definition frame {F S A} (R : relation S) (E : event F -> Prop) (m : M F S A) : Prop :=
  forall s, R s (final (m s)) /\ Forall E (events (m s)).

(** Two states that agree on a projection. *)
Definition same {S X} (proj : S -> X) : relation S := fun s s' => proj s' = proj s.

(** What [scan_data_updated] must leave alone: the logic object and
    every widget that is not a plot or a dock widget. *)
Definition outside_plots (w : Confocal.world) :=
  (Confocal.scannerlogic w,
   Confocal.axes_control_widgets (Confocal.gui w),
   Confocal.optimizer_settings_axes_widgets (Confocal.gui w),
   Confocal.pixel_clock_frequency_scienSpinBox (Confocal.gui w),
   Confocal.backscan_speed_scienSpinBox (Confocal.gui w)).

(** * The rest of the two modules *)

(** The limits [initUI] gives the three inputs, and the values they hold
    lying within them. *)
Definition within_limits (w : Laser.world Q) : Prop :=
  let g := Laser.gui w in
  (minimum (Laser._bins_display g) = 1 /\ maximum (Laser._bins_display g) = 10000 /\
   1 <= value (Laser._bins_display g) <= 10000) /\
  (1 <= value (spin (Laser._min_wavelength_display g)) <= 1000000)%Q /\
  (1 <= value (spin (Laser._max_wavelength_display g)) <= 10000)%Q.


Definition optimizer_widgets (w : Confocal.world) : gmap string Confocal.OptimizerAxis :=
  Confocal.optimizer_settings_axes_widgets (Confocal.gui w).



(** The two widget dicts after the loop over the constraints. *)
Definition constrain_all {W} (f : Confocal.AxisConstraints -> W -> W)
  (items : list (string * Confocal.AxisConstraints)) (m : gmap string W) : gmap string W :=
  foldl (fun m kv => alter (f kv.2) kv.1 m) m items.



(** A frame [scan_data_updated] can paint in the state [w]: two axes, a
    ['scan'] entry, and an image and a dock widget under the key of the
    two axes; or one axis with a dock widget, and with a plot if the
    frame has a ['scan'] entry; or any other number of axes. *)
Definition paintable (w : Confocal.world) (d : Confocal.ScanData) : Prop :=
  let g := Confocal.gui w in
  match Confocal.axes_names d with
  | [a0; a1] =>
      is_Some (Confocal.scan d) /\
      is_Some (Confocal.scan_2d_images g !! Confocal.key_of a0 a1) /\
      is_Some (Confocal.scan_2d_dockwidgets g !! Confocal.key_of a0 a1)
  | [a0] =>
      (is_Some (Confocal.scan d) -> is_Some (Confocal.scan_1d_plots g !! a0)) /\
      is_Some (Confocal.scan_1d_dockwidgets g !! a0)
  | _ => True
  end.

(** The keys of the four plot dicts. *)
Definition plot_keys (w : Confocal.world) : gset string * gset string * gset string * gset string :=
  let g := Confocal.gui w in
  (dom (Confocal.scan_2d_images g), dom (Confocal.scan_1d_plots g),
   dom (Confocal.scan_2d_dockwidgets g), dom (Confocal.scan_1d_dockwidgets g)).

(** What the state shows of a frame once it is painted. *)
Definition shows (w : Confocal.world) (d : Confocal.ScanData) : Prop :=
  let g := Confocal.gui w in
  match Confocal.axes_names d with
  | [a0; a1] =>
      forall img, Confocal.scan d = Some img ->
        Confocal.scan_2d_images g !! Confocal.key_of a0 a1
          = Some {| Confocal.image := img; Confocal.image_extent := Confocal.axes_extent d |} /\
        Confocal.scan_2d_dockwidgets g !! Confocal.key_of a0 a1
          = Some {| Confocal.colorbar_text := "scan data";
                    Confocal.colorbar_unit := Confocal.data_unit d |}
  | [a0] =>
      (forall img, Confocal.scan d = Some img -> Confocal.scan_1d_plots g !! a0 = Some img) /\
      Confocal.scan_1d_dockwidgets g !! a0
        = Some {| Confocal.left_text := "scan data";
                  Confocal.left_units := Confocal.data_unit d |}
  | _ => True
  end.

(** An axis name without a comma. *)
Section CommaFree.
Import Stdlib.Strings.Ascii.
Fixpoint comma_free (s : string) : bool :=
  match s with
  | EmptyString => true
  | String c s' => negb (Ascii.eqb c ","%char) && comma_free s'
  end.
End CommaFree.

(** * Python bytes and their hex form

    [bytes.hex()] and [bytearray.fromhex()], which [on_deactivate] and
    [on_activate] use to keep the window geometry in a status
    variable. *)
Module Hex.
Import Stdlib.Strings.Ascii.

Definition hex_digit (n : N) : ascii :=
  match n with
  | 0 => "0" | 1 => "1" | 2 => "2" | 3 => "3" | 4 => "4" | 5 => "5" | 6 => "6" | 7 => "7"
  | 8 => "8" | 9 => "9" | 10 => "a" | 11 => "b" | 12 => "c" | 13 => "d" | 14 => "e"
  | _ => "f"
  end%N%char.

(** [b.hex()]: two lower-case digits per byte. *)
Fixpoint hex (b : list Byte.byte) : string :=
  match b with
  | [] => EmptyString
  | x :: b' =>
      let n := Byte.to_N x in
      String (hex_digit (n / 16)) (String (hex_digit (n mod 16)) (hex b'))
  end.

(** The value of a hex digit, in either case. *)
Definition digit_value (c : ascii) : option N :=
  let n := N_of_ascii c in
  if (48 <=? n)%N && (n <=? 57)%N then Some (n - 48)%N
  else if (97 <=? n)%N && (n <=? 102)%N then Some (n - 87)%N
  else if (65 <=? n)%N && (n <=? 70)%N then Some (n - 55)%N
  else None.

(** [bytearray.fromhex(s)]: two hex digits per byte, ASCII whitespace
    between the bytes is skipped; [None] stands for the [ValueError]
    anything else raises. *)
Fixpoint fromhex (s : string) : option (list Byte.byte) :=
  match s with
  | EmptyString => Some []
  | String c s1 =>
      if Ascii.is_space c then fromhex s1
      else
        match digit_value c, s1 with
        | Some hi, String c2 s2 =>
            match digit_value c2 with
            | Some lo =>
                match Byte.of_N (16 * hi + lo), fromhex s2 with
                | Some x, Some b => Some (x :: b)
                | _, _ => None
                end
            | None => None
            end
        | _, _ => None
        end
  end.

End Hex.

(** * Activation of the confocal GUI

    [on_activate] and the methods it runs build the window of the
    confocal GUI: the widget dicts the update handlers work on, the
    dock widgets and their arrangement.  What the window is asked to do
    is kept as the list of the calls made on it. *)
Module Activation.
Import Confocal.

(** The dock widgets of the main window. *)
Inductive dock :=
| Scan2d (key : string)
| Scan1d (key : string)
| Optimizer
| TiltCorrection.

Inductive area := TopDockWidgetArea | LeftDockWidgetArea | RightDockWidgetArea.

(** The calls on the main window, its layouts, its dock widgets and the
    plot widgets inside them.  Calls that only style a widget (fonts,
    alignment, size policies, button symbols) are not kept. *)
Inductive window_op :=
| NewDock (d : dock) (title object_name widget_name : string) (allowed : area)
| AddDockWidget (a : area) (d : dock)
| SetLabel (d : dock) (side text units : string)
| ShowDock (d : dock)
| HideDock (d : dock)
| SetFloating (d : dock) (floating : bool)
| TabifyDockWidget (first second : dock)
| SplitDockWidget (first second : dock)
| SetDockNestingEnabled (enabled : bool)
| GridAddWidget (layout widget : string) (row column row_span column_span : Z)
| SetColumnStretch (layout : string) (column stretch : Z)
| AddItem (d : dock) (plot item : string)
| PlotOption (d : dock) (plot call : string)
| RestoreGeometry (b : list Byte.byte)
| RestoreState (b : list Byte.byte)
| ShowWindow
| ActivateWindow
| RaiseWindow
| CloseWindow.

(** A [QAction]: [setChecked] only works on a checkable action. *)
Record QAction := { checkable : bool; checked : bool }.

Definition setChecked (b : bool) (a : QAction) : QAction :=
  if checkable a then {| checkable := true; checked := b |} else a.

(** [ConfocalMainWindow]: the zoom action of its tool bar and the calls
    made on it so far. *)
Record MainWindow := {
  action_utility_zoom : QAction;
  ops : list window_op
}.

Inductive mouse_button := LeftButton | RightButton | MiddleButton | OtherButton (code : Z).

Record QMouseEvent := { button : mouse_button; accepted : bool }.

Definition accept (e : QMouseEvent) : QMouseEvent :=
  {| button := button e; accepted := true |}.

(** The three plot items of the optimizer dock widget: an image and
    two curves given as their x and y data. *)
Record OptimizerPlots := {
  optimizer_2d_image : ScanImageItem;
  optimizer_1d_plot : list Q * list Q;
  optimizer_1d_fit_plot : list Q * list Q
}.

(** What the sources take from outside: the contents of the [.ui]
    files, the initial state of widget classes defined elsewhere, and
    Qt's own handling of window geometry and of mouse events. *)
Record Toolkit := {
  (** [ui_confocalgui2.ui]: the widgets of the first axis and the zoom
      action *)
  ui_axis_0 : AxisControl;
  ui_zoom : QAction;
  (** [ui_optimizer_settings.ui] and [ui_scanner_settings.ui] *)
  ui_optimizer_axis_0 : OptimizerAxis;
  ui_pixel_clock_frequency : RangedWidget Q;
  ui_backscan_speed : RangedWidget Q;
  (** [ui_2d_scan_widget.ui] and [ui_1d_scan_widget.ui] *)
  new_Scan2dWidget : Scan2dDock;
  new_Scan1dWidget : Scan1dDock;
  (** [ScienDSpinBox()] and the extent of a fresh [ScanImageItem] *)
  new_ScienDSpinBox : ScienDSpinBox;
  new_image_extent : extent;
  (** [QMainWindow]: [saveGeometry], [saveState], whether
      [restoreGeometry] and [restoreState] accept some bytes, and the
      inherited [mouseDoubleClickEvent] *)
  saveGeometry : MainWindow -> list Byte.byte;
  saveState : MainWindow -> list Byte.byte;
  restoreGeometry : list Byte.byte -> MainWindow -> bool;
  restoreState : list Byte.byte -> MainWindow -> bool;
  super_mouseDoubleClickEvent : QMouseEvent -> MainWindow -> QMouseEvent * MainWindow
}.

(** The GUI module with everything activation touches.  The widget
    dicts of [ConfocalGui] are Python dicts; for the two dock widget
    dicts the order of their keys, which [restore_default_view] and
    [_init_plots] go by, is kept beside them.  [scan_axes] is the entry
    ['2d_scan_axes'] of the logic's [scanner_settings], the one entry of
    that dict the update handlers never read. *)
Record state := {
  confocal : world;
  _mw : MainWindow;
  scan_2d_order : list string;
  scan_1d_order : list string;
  optimizer_plots : option OptimizerPlots;
  _window_geometry : option string;
  _window_state : option string;
  debug_log : list string;
  scan_axes : option (list (list string))
}.

Definition set_confocal (w : world) (s : state) : state :=
  {| confocal := w; _mw := _mw s; scan_2d_order := scan_2d_order s;
     scan_1d_order := scan_1d_order s; optimizer_plots := optimizer_plots s;
     _window_geometry := _window_geometry s; _window_state := _window_state s;
     debug_log := debug_log s; scan_axes := scan_axes s |}.
Definition set_mw (m : MainWindow) (s : state) : state :=
  {| confocal := confocal s; _mw := m; scan_2d_order := scan_2d_order s;
     scan_1d_order := scan_1d_order s; optimizer_plots := optimizer_plots s;
     _window_geometry := _window_geometry s; _window_state := _window_state s;
     debug_log := debug_log s; scan_axes := scan_axes s |}.
Definition set_orders (o2 o1 : list string) (s : state) : state :=
  {| confocal := confocal s; _mw := _mw s; scan_2d_order := o2;
     scan_1d_order := o1; optimizer_plots := optimizer_plots s;
     _window_geometry := _window_geometry s; _window_state := _window_state s;
     debug_log := debug_log s; scan_axes := scan_axes s |}.
Definition set_optimizer_plots (p : option OptimizerPlots) (s : state) : state :=
  {| confocal := confocal s; _mw := _mw s; scan_2d_order := scan_2d_order s;
     scan_1d_order := scan_1d_order s; optimizer_plots := p;
     _window_geometry := _window_geometry s; _window_state := _window_state s;
     debug_log := debug_log s; scan_axes := scan_axes s |}.
Definition set_window_geometry (g : option string) (s : state) : state :=
  {| confocal := confocal s; _mw := _mw s; scan_2d_order := scan_2d_order s;
     scan_1d_order := scan_1d_order s; optimizer_plots := optimizer_plots s;
     _window_geometry := g; _window_state := _window_state s;
     debug_log := debug_log s; scan_axes := scan_axes s |}.
Definition set_window_state (g : option string) (s : state) : state :=
  {| confocal := confocal s; _mw := _mw s; scan_2d_order := scan_2d_order s;
     scan_1d_order := scan_1d_order s; optimizer_plots := optimizer_plots s;
     _window_geometry := _window_geometry s; _window_state := g;
     debug_log := debug_log s; scan_axes := scan_axes s |}.
Definition log_debug (msg : string) (s : state) : state :=
  {| confocal := confocal s; _mw := _mw s; scan_2d_order := scan_2d_order s;
     scan_1d_order := scan_1d_order s; optimizer_plots := optimizer_plots s;
     _window_geometry := _window_geometry s; _window_state := _window_state s;
     debug_log := (debug_log s ++ [msg])%list; scan_axes := scan_axes s |}.

Definition add_ops (l : list window_op) (m : MainWindow) : MainWindow :=
  {| action_utility_zoom := action_utility_zoom m; ops := (ops m ++ l)%list |}.

Abbreviation method := (M Q state).

(** A handler of the GUI run as part of a method. *)
Definition lift {A} (m : handler A) : method A :=
  fun s =>
    match m (confocal s) with
    | Ok a w t => Ok a (set_confocal w s) t
    | Raise e w t => Raise e (set_confocal w s) t
    end.

(** Calls on the window. *)
Definition window (l : list window_op) : method unit :=
  modify (fun s => set_mw (add_ops l (_mw s)) s).

Definition update_widgets (f : ConfocalGui -> ConfocalGui) : method unit :=
  lift (update_gui f).

(** [for x in l: body(x)] *)
Fixpoint for_all {A} (body : A -> method unit) (l : list A) : method unit :=
  match l with
  | [] => mret tt
  | x :: l' => body x;; for_all body l'
  end.

(** [enumerate(l, start)] *)
Fixpoint enumerate {A} (start : Z) (l : list A) : list (Z * A) :=
  match l with
  | [] => []
  | x :: l' => (start, x) :: enumerate (start + 1) l'
  end.

(** [d[key]] on the items of a dict. *)
Fixpoint item {A} (key : string) (items : list (string * A)) : option A :=
  match items with
  | [] => None
  | (k, v) :: rest => if String.eqb k key then Some v else item key rest
  end.

(** [d[key] = v] on the key order of a dict: a new key goes to the end,
    a known key keeps its place. *)
Definition add_key (key : string) (order : list string) : list string :=
  if existsb (String.eqb key) order then order else (order ++ [key])%list.

Section Methods.
Variable tk : Toolkit.

(** ** [ConfocalMainWindow.mouseDoubleClickEvent] *)
Definition mouseDoubleClickEvent (event : QMouseEvent) (mw : MainWindow)
  : QMouseEvent * MainWindow :=
  match button event with
  | LeftButton =>
      let zoom := action_utility_zoom mw in
      (accept event,
       {| action_utility_zoom := setChecked (negb (checked zoom)) zoom; ops := ops mw |})
  | _ => super_mouseDoubleClickEvent tk event mw
  end.

(** ** [_generate_axes_control_widgets] *)

(** A fresh [QSlider]: range 0 .. 99, value 0. *)
Definition QSlider_new : RangedWidget Z :=
  {| minimum := 0; maximum := 99; value := 0; signalsBlocked := false |}.

(** ['{0}-Axis:'.format(axis_name)] *)
Definition axis_label (axis_name : string) : string := String.append axis_name "-Axis:".

(** The widgets of the axis with the given index: those of the [.ui]
    file for the first axis, new ones for the others. *)
Definition axis_control (index : Z) (axis_name : string) : AxisControl :=
  if Z.eqb index 1 then
    {| label := axis_label axis_name;
       res_spinbox := res_spinbox (ui_axis_0 tk);
       min_spinbox := min_spinbox (ui_axis_0 tk);
       max_spinbox := max_spinbox (ui_axis_0 tk);
       slider := slider (ui_axis_0 tk);
       pos_spinbox := pos_spinbox (ui_axis_0 tk) |}
  else
    {| label := axis_label axis_name;
       res_spinbox := setRange 2 (2 ^ 31 - 1) Laser.QSpinBox_new;
       min_spinbox := new_ScienDSpinBox tk;
       max_spinbox := new_ScienDSpinBox tk;
       slider := QSlider_new;
       pos_spinbox := new_ScienDSpinBox tk |}.

Definition central_layout : string := "_mw.centralwidget.layout()".

(** Lines 455-513: the loop body. *)
Definition generate_axis_control (entry : Z * string) : method unit :=
  let '(index, axis_name) := entry in
  (if Z.eqb index 1 then mret tt
   else window
     [GridAddWidget central_layout (String.append axis_name ".label") index 0 1 1;
      GridAddWidget central_layout (String.append axis_name ".res_spinbox") index 1 1 1;
      GridAddWidget central_layout (String.append axis_name ".min_spinbox") index 3 1 1;
      GridAddWidget central_layout (String.append axis_name ".max_spinbox") index 4 1 1;
      GridAddWidget central_layout (String.append axis_name ".slider") index 6 1 1;
      GridAddWidget central_layout (String.append axis_name ".pos_spinbox") index 7 1 1]);;
  update_widgets (fun g =>
    set_axes_control_widgets
      (<[axis_name := axis_control index axis_name]> (axes_control_widgets g)) g).

Definition _generate_axes_control_widgets : method unit :=
  update_widgets (set_axes_control_widgets ∅);;
  names ← lift (query "scanner_axes_names" scanner_axes_names);
  for_all generate_axis_control (enumerate 1 names);;
  window [GridAddWidget central_layout "_mw.line" 0 2 (-1) 1;
          GridAddWidget central_layout "_mw.line_2" 0 5 (-1) 1;
          SetColumnStretch central_layout 5 1].

(** ** [_generate_optimizer_axes_widgets] *)
Definition optimizer_axis (index : Z) (axis_name : string) : OptimizerAxis :=
  if Z.eqb index 1 then
    {| opt_label := axis_label axis_name;
       range_spinbox := range_spinbox (ui_optimizer_axis_0 tk);
       opt_res_spinbox := opt_res_spinbox (ui_optimizer_axis_0 tk) |}
  else
    {| opt_label := axis_label axis_name;
       range_spinbox := new_ScienDSpinBox tk;
       opt_res_spinbox := setRange 2 (2 ^ 31 - 1) Laser.QSpinBox_new |}.

Definition optimizer_layout : string := "_osd.scan_ranges_gridLayout".

Definition generate_optimizer_axis (entry : Z * string) : method unit :=
  let '(index, axis_name) := entry in
  (if Z.eqb index 1 then mret tt
   else window
     [GridAddWidget optimizer_layout (String.append axis_name ".label") index 0 1 1;
      GridAddWidget optimizer_layout (String.append axis_name ".range_spinbox") index 1 1 1;
      GridAddWidget optimizer_layout (String.append axis_name ".res_spinbox") index 2 1 1]);;
  update_widgets (fun g =>
    set_optimizer_widgets
      (<[axis_name := optimizer_axis index axis_name]> (optimizer_settings_axes_widgets g)) g).

Definition _generate_optimizer_axes_widgets : method unit :=
  update_widgets (set_optimizer_widgets ∅);;
  names ← lift (query "scanner_axes_names" scanner_axes_names);
  for_all generate_optimizer_axis (enumerate 1 names).

(** ** [_generate_scan_dockwidgets] *)

(** [scanner_constraints[axis]['unit']] *)
Definition unit_of (constraints : list (string * AxisConstraints)) (axis : string)
  : method string :=
  match item axis constraints with
  | Some c => mret (axis_unit c)
  | None => raise (KeyError axis)
  end.

(** Lines 268-295: the loop body, for one entry of ['2d_scan_axes']. *)
Definition generate_scan_dockwidget (constraints : list (string * AxisConstraints))
  (axes : list string) : method unit :=
  match axes with
  | [a0; a1] =>
      let d := Scan2d (key_of a0 a1) in
      let stem := String.append a0 (String.append "_" a1) in
      window [NewDock d (String.append a0 (String.append "-" (String.append a1 " Scan")))
                      (String.append stem "_scan_dockWidget")
                      (String.append stem "_scan_widget") TopDockWidgetArea];;
      update_widgets (fun g =>
        set_scan_2d_dockwidgets
          (<[key_of a0 a1 := new_Scan2dWidget tk]> (scan_2d_dockwidgets g)) g);;
      modify (fun s => set_orders (add_key (key_of a0 a1) (scan_2d_order s))
                                  (scan_1d_order s) s);;
      window [AddDockWidget TopDockWidgetArea d];;
      u0 ← unit_of constraints a0;
      window [SetLabel d "bottom" a0 u0];;
      u1 ← unit_of constraints a1;
      window [SetLabel d "left" a1 u1]
  | [a0] =>
      let d := Scan1d a0 in
      window [NewDock d (String.append a0 " Scan")
                      (String.append a0 "_scan_dockWidget")
                      (String.append a0 "_scan_widget") TopDockWidgetArea];;
      update_widgets (fun g =>
        set_scan_1d_dockwidgets
          (<[a0 := new_Scan1dWidget tk]> (scan_1d_dockwidgets g)) g);;
      modify (fun s => set_orders (scan_2d_order s) (add_key a0 (scan_1d_order s)) s);;
      window [AddDockWidget TopDockWidgetArea d];;
      u0 ← unit_of constraints a0;
      window [SetLabel d "bottom" a0 u0];;
      update_widgets (fun g =>
        set_scan_1d_dockwidgets
          (<[a0 := {| left_text := "scan data"; left_units := "arb.u." |}]>
             (scan_1d_dockwidgets g)) g);;
      window [SetLabel d "left" "scan data" "arb.u."]
  | _ => mret tt
  end.

Definition _generate_scan_dockwidgets : method unit :=
  _ ← lift (query "scanner_settings" scanner_settings);
  constraints ← lift (query "scanner_constraints" scanner_constraints);
  update_widgets (fun g => set_scan_1d_dockwidgets ∅ (set_scan_2d_dockwidgets ∅ g));;
  modify (set_orders [] []);;
  o ← gets scan_axes;
  match o with
  | Some l => for_all (generate_scan_dockwidget constraints) l
  | None => raise (KeyError "2d_scan_axes")
  end.

(** ** [_init_plots] *)

(** [np.zeros((2, 2))], [np.arange(n)] and [np.zeros(n)] *)
Definition zeros_2_2 : array := [[0; 0]; [0; 0]]%Q.
Definition arange (n : nat) : list Q := map (fun i => inject_Z (Z.of_nat i)) (seq 0 n).
Definition zeros (n : nat) : list Q := repeat 0%Q n.

Definition init_2d_plot (key : string) : method unit :=
  update_widgets (fun g =>
    set_scan_2d_images
      (<[key := {| image := zeros_2_2; image_extent := new_image_extent tk |}]>
         (scan_2d_images g)) g);;
  window [AddItem (Scan2d key) "image_scanPlotWidget" "scan_2d_images[key]";
          PlotOption (Scan2d key) "image_scanPlotWidget" "toggle_crosshair(True, movable=True)";
          PlotOption (Scan2d key) "image_scanPlotWidget" "set_crosshair_min_size_factor(0.02)";
          PlotOption (Scan2d key) "image_scanPlotWidget" "setAspectLocked(lock=True, ratio=1.0)";
          PlotOption (Scan2d key) "image_scanPlotWidget" "toggle_zoom_by_selection(True)"].

(** A fresh 1D plot holds x = [0, 1] and y = [0, 0], kept as two rows. *)
Definition init_1d_plot (key : string) : method unit :=
  update_widgets (fun g =>
    set_scan_1d_plots (<[key := [arange 2; zeros 2]]> (scan_1d_plots g)) g);;
  window [AddItem (Scan1d key) "scan_plotWidget" "scan_1d_plots[key]"].

Definition _init_plots : method unit :=
  update_widgets (set_scan_2d_images ∅);;
  order2 ← gets scan_2d_order;
  for_all init_2d_plot order2;;
  update_widgets (set_scan_1d_plots ∅);;
  order1 ← gets scan_1d_order;
  for_all init_1d_plot order1;;
  modify (set_optimizer_plots
            (Some {| optimizer_2d_image :=
                       {| image := zeros_2_2; image_extent := new_image_extent tk |};
                     optimizer_1d_plot := (arange 10, zeros 10);
                     optimizer_1d_fit_plot := (arange 10, zeros 10) |}));;
  window [AddItem Optimizer "optimizer_2d_scanPlotWidget" "optimizer_2d_image";
          PlotOption Optimizer "optimizer_2d_scanPlotWidget"
                     "toggle_crosshair(True, movable=False)";
          PlotOption Optimizer "optimizer_2d_scanPlotWidget"
                     "setAspectLocked(lock=True, ratio=1.0)";
          AddItem Optimizer "optimizer_1d_plotWidget" "optimizer_1d_plot";
          AddItem Optimizer "optimizer_1d_plotWidget" "optimizer_1d_fit_plot"].

(** ** [restore_default_view] *)

(** Lines 570-576 and 577-583: the loop bodies; [first] is the first
    key of the dict. *)
Definition arrange_2d (first : string) (entry : Z * string) : list window_op :=
  let '(i, key) := entry in
  [ShowDock (Scan2d key); SetFloating (Scan2d key) false;
   AddDockWidget TopDockWidgetArea (Scan2d key)] ++
  (if Z.ltb 1 i then [TabifyDockWidget (Scan2d first) (Scan2d key)] else []).

Definition arrange_1d (first : string) (entry : Z * string) : list window_op :=
  let '(i, key) := entry in
  [ShowDock (Scan1d key); SetFloating (Scan1d key) false;
   AddDockWidget TopDockWidgetArea (Scan1d key)] ++
  (if Z.ltb 0 i then [TabifyDockWidget (Scan1d first) (Scan1d key)] else []).

(** Lines 592-597: where the optimizer goes. *)
Definition split_optimizer (order2 order1 : list string) : list window_op :=
  match order1 with
  | first :: _ => [SplitDockWidget (Scan1d first) Optimizer]
  | [] =>
      match order2 with
      | _ :: second :: _ => [SplitDockWidget (Scan2d second) Optimizer]
      | _ => []
      end
  end.

Definition restore_default_view : method unit :=
  window [SetDockNestingEnabled true];;
  order2 ← gets scan_2d_order;
  window (flat_map (arrange_2d (hd "" order2)) (enumerate 0 order2));;
  order1 ← gets scan_1d_order;
  window (flat_map (arrange_1d (hd "" order1)) (enumerate 0 order1));;
  window [SetFloating Optimizer false; SetFloating TiltCorrection false;
          HideDock TiltCorrection; AddDockWidget LeftDockWidgetArea TiltCorrection;
          ShowDock Optimizer; AddDockWidget TopDockWidgetArea Optimizer];;
  window (split_optimizer order2 order1).

(** ** [show] and [on_deactivate] *)
Definition show : method unit := window [ShowWindow; ActivateWindow; RaiseWindow].

(** [on_deactivate] returns 0. *)
Definition on_deactivate : method Z :=
  geometry ← gets (fun s => saveGeometry tk (_mw s));
  modify (set_window_geometry (Some (Hex.hex geometry)));;
  dock_state ← gets (fun s => saveState tk (_mw s));
  modify (set_window_state (Some (Hex.hex dock_state)));;
  window [CloseWindow];;
  mret 0.

(** ** [on_activate] *)

(** Lines 207-228: the window, the dialogs and the dock widgets. *)
Definition build_window : method unit :=
  update_widgets (fun g => set_backscan_speed (ui_backscan_speed tk)
                             (set_pixel_clock (ui_pixel_clock_frequency tk) g));;
  modify (set_mw {| action_utility_zoom := ui_zoom tk; ops := [] |});;
  window [NewDock Optimizer "Optimizer" "optimizer_dockWidget" "" TopDockWidgetArea;
          NewDock TiltCorrection "Tilt Correction" "tilt_correction_dockWidget" ""
                  RightDockWidgetArea];;
  _generate_axes_control_widgets;;
  _generate_optimizer_axes_widgets;;
  _generate_scan_dockwidgets;;
  restore_default_view.

(** What can end an activation early: an exception of the handlers, or
    the [ValueError] of [bytearray.fromhex]. *)
Inductive error :=
| Exception (e : exn)
| ValueError.

(** Lines 231-235: the saved geometry is handed to the window; when the
    window refuses it the status variable is dropped. *)
Definition restore_window_geometry (s : state) : error + state :=
  match _window_geometry s with
  | None => inr s
  | Some text =>
      match Hex.fromhex text with
      | None => inl ValueError
      | Some b =>
          let s1 := set_mw (add_ops [RestoreGeometry b] (_mw s)) s in
          if restoreGeometry tk b (_mw s) then inr s1
          else inr (log_debug
                      "Unable to restore previous window geometry. Falling back to default."
                      (set_window_geometry None s1))
      end
  end.

(** Lines 236-240: the same for the state of the dock widgets. *)
Definition restore_window_state (s : state) : error + state :=
  match _window_state s with
  | None => inr s
  | Some text =>
      match Hex.fromhex text with
      | None => inl ValueError
      | Some b =>
          let s1 := set_mw (add_ops [RestoreState b] (_mw s)) s in
          if restoreState tk b (_mw s) then inr s1
          else inr (log_debug
                      "Unable to restore previous window state. Falling back to default."
                      (set_window_state None s1))
      end
  end.

(** Lines 243-253: plots, constraints, and a first round of the update
    handlers. *)
Definition fill_window : method unit :=
  _init_plots;;
  lift apply_scanner_constraints;;
  lift (scanner_settings_updated None);;
  lift (scanner_position_updated None);;
  lift (scan_data_updated None);;
  show.

(** How an activation ends: the state it leaves, the events of the run
    and, when it failed, the error. *)
Inductive activation :=
| Activated (s : state) (t : list (event Q))
| Failed (e : error) (s : state) (t : list (event Q)).

Definition on_activate (s : state) : activation :=
  match build_window s with
  | Raise e s1 t1 => Failed (Exception e) s1 t1
  | Ok _ s1 t1 =>
      match restore_window_geometry s1 with
      | inl e => Failed e s1 t1
      | inr s2 =>
          match restore_window_state s2 with
          | inl e => Failed e s2 t1
          | inr s3 =>
              match fill_window s3 with
              | Raise e s4 t4 => Failed (Exception e) s4 (t1 ++ t4)
              | Ok _ s4 t4 => Activated s4 (t1 ++ t4)
              end
          end
      end
  end.

End Methods.
End Activation.

(** A dict filled by a loop over the enumerated axis names. *)
Definition filled {W} (f : Z -> string -> W) (entries : list (Z * string))
  (m : gmap string W) : gmap string W :=
  foldl (fun m e => <[e.2 := f e.1 e.2]> m) m entries.

(** Everything of the GUI module besides the widgets of the confocal
    state and the calls on the window. *)
Definition beside_window (s : Activation.state) :=
  (Activation.scan_2d_order s, Activation.scan_1d_order s, Activation.optimizer_plots s,
   Activation._window_geometry s, Activation._window_state s, Activation.debug_log s,
   Activation.scan_axes s, Activation.action_utility_zoom (Activation._mw s)).

(** Everything of a confocal state except [optimizer_settings_axes_widgets]. *)
Definition outside_optimizer (w : Confocal.world) :=
  (Confocal.scannerlogic w,
   Confocal.pixel_clock_frequency_scienSpinBox (Confocal.gui w),
   Confocal.backscan_speed_scienSpinBox (Confocal.gui w),
   Confocal.axes_control_widgets (Confocal.gui w),
   Confocal.scan_2d_images (Confocal.gui w),
   Confocal.scan_1d_plots (Confocal.gui w),
   Confocal.scan_2d_dockwidgets (Confocal.gui w),
   Confocal.scan_1d_dockwidgets (Confocal.gui w)).

(** The key order kept beside a dict lists exactly its keys, each
    once. *)
Definition dict_order {W} (order : list string) (m : gmap string W) : Prop :=
  NoDup order /\ forall k, k ∈ order <-> is_Some (m !! k).

(** An entry of ['2d_scan_axes'] whose axes all have constraints, as
    far as [_generate_scan_dockwidgets] looks at them. *)
Definition has_units (constraints : list (string * Confocal.AxisConstraints))
  (axes : list string) : Prop :=
  match axes with
  | [a0; a1] =>
      is_Some (Activation.item a0 constraints) /\ is_Some (Activation.item a1 constraints)
  | [a0] => is_Some (Activation.item a0 constraints)
  | _ => True
  end.

(** A dict in which a loop has stored [v] under each of [keys]. *)
Definition stocked {W} (v : W) (keys : list string) (m : gmap string W) : gmap string W :=
  foldl (fun m k => <[k := v]> m) m keys.

(** The two dock widget dicts with their key orders. *)
Definition dock_dicts (s : Activation.state) :=
  (Confocal.scan_2d_dockwidgets (Confocal.gui (Activation.confocal s)),
   Activation.scan_2d_order s,
   Confocal.scan_1d_dockwidgets (Confocal.gui (Activation.confocal s)),
   Activation.scan_1d_order s).

(** Everything of the GUI module besides the dock widget dicts, their
    key orders and the calls on the window. *)
Definition beside_docks (s : Activation.state) :=
  let w := Activation.confocal s in
  (Confocal.scannerlogic w,
   Confocal.pixel_clock_frequency_scienSpinBox (Confocal.gui w),
   Confocal.backscan_speed_scienSpinBox (Confocal.gui w),
   Confocal.axes_control_widgets (Confocal.gui w),
   Confocal.optimizer_settings_axes_widgets (Confocal.gui w),
   Confocal.scan_2d_images (Confocal.gui w),
   Confocal.scan_1d_plots (Confocal.gui w),
   Activation.optimizer_plots s, Activation._window_geometry s,
   Activation._window_state s, Activation.debug_log s, Activation.scan_axes s,
   Activation.action_utility_zoom (Activation._mw s)).

(** The dock widget dicts after the loop body of
    [_generate_scan_dockwidgets] has gone through one entry. *)
Definition with_dock (tk : Activation.Toolkit) (axes : list string)
  (d : gmap string Confocal.Scan2dDock * list string *
       gmap string Confocal.Scan1dDock * list string) :=
  let '(docks2, order2, docks1, order1) := d in
  match axes with
  | [a0; a1] =>
      (<[Confocal.key_of a0 a1 := Activation.new_Scan2dWidget tk]> docks2,
       Activation.add_key (Confocal.key_of a0 a1) order2, docks1, order1)
  | [a0] =>
      (docks2, order2,
       <[a0 := {| Confocal.left_text := "scan data"; Confocal.left_units := "arb.u." |}]>
         docks1,
       Activation.add_key a0 order1)
  | _ => d
  end.

(** Everything of the GUI module that [_init_plots] leaves alone. *)
Definition beside_plots (s : Activation.state) :=
  let w := Activation.confocal s in
  (Confocal.scannerlogic w,
   Confocal.pixel_clock_frequency_scienSpinBox (Confocal.gui w),
   Confocal.backscan_speed_scienSpinBox (Confocal.gui w),
   Confocal.axes_control_widgets (Confocal.gui w),
   Confocal.optimizer_settings_axes_widgets (Confocal.gui w),
   dock_dicts s,
   Activation._window_geometry s, Activation._window_state s,
   Activation.debug_log s, Activation.scan_axes s,
   Activation.action_utility_zoom (Activation._mw s)).

(** A fresh image and a fresh 1D plot, as [_init_plots] creates them. *)
Definition fresh_image (tk : Activation.Toolkit) : Confocal.ScanImageItem :=
  {| Confocal.image := Activation.zeros_2_2;
     Confocal.image_extent := Activation.new_image_extent tk |}.
Definition fresh_plot : Confocal.array := [Activation.arange 2; Activation.zeros 2].

(** A frame whose plot has a dock widget: what [scan_data_updated]
    needs of the dock widget dicts to paint the frame once the plots
    are in place. *)
Definition has_dock (w : Confocal.world) (d : Confocal.ScanData) : Prop :=
  match Confocal.axes_names d with
  | [a0; a1] =>
      is_Some (Confocal.scan d) /\
      is_Some (Confocal.scan_2d_dockwidgets (Confocal.gui w) !! Confocal.key_of a0 a1)
  | [a0] => is_Some (Confocal.scan_1d_dockwidgets (Confocal.gui w) !! a0)
  | _ => True
  end.

(** The pairs of dock widgets a list of calls puts into tabs, and the
    pairs it stacks. *)
Definition tabified (l : list Activation.window_op)
  : list (Activation.dock * Activation.dock) :=
  flat_map (fun op => match op with
                      | Activation.TabifyDockWidget a b => [(a, b)]
                      | _ => []
                      end) l.

Definition stacked (l : list Activation.window_op)
  : list (Activation.dock * Activation.dock) :=
  flat_map (fun op => match op with
                      | Activation.SplitDockWidget a b => [(a, b)]
                      | _ => []
                      end) l.

(** The calls a method has added to those made on the window before. *)
Definition new_ops (before after : Activation.state) : list Activation.window_op :=
  drop (length (Activation.ops (Activation._mw before)))
       (Activation.ops (Activation._mw after)).

(** The two status variables of the window. *)
Definition saved_window (s : Activation.state) : option string * option string :=
  (Activation._window_geometry s, Activation._window_state s).

(** A method that leaves the status variables of the window alone,
    whether it returns or raises. *)
Definition keeps_saved_window {A} (m : Activation.method A) : Prop :=
  forall s, saved_window (final (m s)) = saved_window s.

(** The logic object and the keys of the six widget dicts. *)
Definition widget_keys (w : Confocal.world)
  : Confocal.ConfocalLogic * gset string * gset string *
    (gset string * gset string * gset string * gset string) :=
  (Confocal.scannerlogic w,
   dom (Confocal.axes_control_widgets (Confocal.gui w)),
   dom (Confocal.optimizer_settings_axes_widgets (Confocal.gui w)),
   plot_keys w).




(** The keys of the widget dicts of a window built for the axes [names]
    and the scans [l]. *)
Definition built_for (names : list string) (l : list (list string)) (w : Confocal.world)
  : Prop :=
  let g := Confocal.gui w in
  (forall k, is_Some (Confocal.axes_control_widgets g !! k) <-> k ∈ names) /\
  (forall k, is_Some (Confocal.optimizer_settings_axes_widgets g !! k) <-> k ∈ names) /\
  (forall k, is_Some (Confocal.scan_2d_dockwidgets g !! k) <->
             exists a0 a1, [a0; a1] ∈ l /\ k = Confocal.key_of a0 a1) /\
  (forall k, is_Some (Confocal.scan_1d_dockwidgets g !! k) <-> [k] ∈ l).


(** A window that has not been asked to show itself stays so. *)
Definition stays_unshown : relation Activation.state :=
  fun s s' =>
    Activation.ShowWindow ∉ Activation.ops (Activation._mw s) ->
    Activation.ShowWindow ∉ Activation.ops (Activation._mw s').

(** A toolkit, a scanner and a GUI module to run the activation on. *)
Module SampleActivation.
Import Confocal Activation.
#[local] Open Scope Q_scope.

(** The designer files give the first axis the widgets of a fresh axis;
    the window reports two bytes of geometry and three of dock state,
    and takes back a geometry but no dock state. *)
Definition toolkit : Toolkit :=
  {| ui_axis_0 := SampleConfocal.fresh_axis "X";
     ui_zoom := {| checkable := true; checked := false |};
     ui_optimizer_axis_0 := SampleConfocal.fresh_optimizer_axis "X";
     ui_pixel_clock_frequency :=
       {| minimum := 0; maximum := 1000000000; value := 0; signalsBlocked := false |};
     ui_backscan_speed :=
       {| minimum := 0; maximum := 1000000000; value := 0; signalsBlocked := false |};
     new_Scan2dWidget := SampleConfocal.blank_dock2;
     new_Scan1dWidget := {| left_text := ""; left_units := "" |};
     new_ScienDSpinBox := SampleConfocal.fresh_scien;
     new_image_extent := [(0, 1); (0, 1)];
     saveGeometry := fun _ => [Byte.x01; Byte.xd9];
     saveState := fun mw => [Byte.x00; Byte.xff; Byte.x7a];
     restoreGeometry := fun _ _ => true;
     restoreState := fun _ _ => false;
     super_mouseDoubleClickEvent := fun e mw => (e, mw) |}.

(** The scanner of [SampleConfocal] with an x,y image and a z line. *)
Definition logic : ConfocalLogic :=
  let l := SampleConfocal.logic 1000 100 in
  {| scanner_settings := scanner_settings l;
     scanner_position := scanner_position l;
     scan_data := [SampleFrames.xy_scan; SampleFrames.z_scan];
     scanner_constraints := scanner_constraints l;
     scanner_axes_names := scanner_axes_names l |}.

Definition scans : list (list string) := [["x"; "y"]; ["x"; "z"]; ["z"]].

(** The module before its activation: no widgets yet, the status
    variables as given. *)
Definition loaded (geometry dock_state : option string) (axes : option (list (list string)))
  : state :=
  {| confocal :=
       {| gui := {| pixel_clock_frequency_scienSpinBox := ui_pixel_clock_frequency toolkit;
                    backscan_speed_scienSpinBox := ui_backscan_speed toolkit;
                    axes_control_widgets := ∅; optimizer_settings_axes_widgets := ∅;
                    scan_2d_images := ∅; scan_1d_plots := ∅;
                    scan_2d_dockwidgets := ∅; scan_1d_dockwidgets := ∅ |};
          scannerlogic := logic |};
     _mw := {| action_utility_zoom := ui_zoom toolkit; ops := [] |};
     scan_2d_order := []; scan_1d_order := [];
     optimizer_plots := None;
     _window_geometry := geometry; _window_state := dock_state;
     debug_log := [];
     scan_axes := axes |}.

(** The module after [build_window]. *)
Definition built : state := final (build_window toolkit (loaded None None (Some scans))).

End SampleActivation.

(** * Properties *)

Ltac run_handler :=
  cbv [mbind mret M_bind M_ret bind ret emit emit_if gets get modify raise
       events final returned].

(** ** Laser-scanning GUI: Start/Stop button *)
Section StartStop.
Import Laser.
Context {F : Type}.
Variable logic_exec : command F -> LaserScanningLogic F -> LaserScanningLogic F.

End StartStop.


(** ** Frame reasoning for handlers *)

#[global] Instance same_preorder {S X} (proj : S -> X) : PreOrder (same proj).
Proof. split; unfold same; [intros s | intros s1 s2 s3 H1 H2]; congruence. Qed.

Section Frame.
Context {F S : Type} (R : relation S) `{!PreOrder R} (E : event F -> Prop).

Lemma frame_ret {A} (a : A) : frame R E (mret a : M F S A).
Proof. intros s; split; [reflexivity | constructor]. Qed.

Lemma frame_gets {A} (f : S -> A) : frame R E (gets f : M F S A).
Proof. intros s; split; [reflexivity | constructor]. Qed.

Lemma frame_raise {A} (e : exn) : frame R E (raise e : M F S A).
Proof. intros s; split; [reflexivity | constructor]. Qed.

Lemma frame_emit (e : event F) : E e -> frame R E (emit e : M F S unit).
Proof. intros He s; split; [reflexivity | repeat constructor; exact He]. Qed.

Lemma frame_modify (f : S -> S) :
  (forall s, R s (f s)) -> frame R E (modify f : M F S unit).
Proof. intros Hf s; split; [apply Hf | constructor]. Qed.

Lemma frame_bind {A B} (m : M F S A) (f : A -> M F S B) :
  frame R E m -> (forall a, frame R E (f a)) -> frame R E (m ≫= f).
Proof.
  intros Hm Hf s. specialize (Hm s). run_handler.
  destruct (m s) as [a s1 t1 | e s1 t1]; cbn in *; [| exact Hm].
  destruct Hm as [HR HE]. specialize (Hf a s1).
  destruct (f a s1) as [b s2 t2 | e s2 t2]; cbn in *; destruct Hf as [HR' HE'];
    (split; [etransitivity; eassumption | apply Forall_app; split; assumption]).
Qed.

Lemma frame_emit_if (b : bool) (e : event F) :
  E e -> frame R E (emit_if b e : M F S unit).
Proof.
  intros He s; split; [reflexivity | destruct b; repeat constructor; exact He].
Qed.

Lemma frame_if {A} (b : bool) (m1 m2 : M F S A) :
  frame R E m1 -> frame R E m2 -> frame R E (if b then m1 else m2).
Proof. destruct b; trivial. Qed.
End Frame.

Create HintDb frame.
#[global] Hint Resolve frame_ret frame_gets frame_raise frame_modify frame_bind frame_if
  frame_emit_if : frame.

(** ** Laser-scanning GUI: Save button *)

Lemma append_suffix_inj (s a b : string) :
  String.append s a = String.append s b -> a = b.
Proof. induction s as [| c s IH]; cbn; [trivial | intros [=]; auto]. Qed.

Section Save.
Import Laser.
Context {F : Type}.
Variable logic_exec : command F -> LaserScanningLogic F -> LaserScanningLogic F.

(** With PNG export on, the exports of one click are the SVG file and
    then the PNG file. *)
Lemma save_clicked_writes_both (w : world F) :
  _save_PNG (gui w) = true ->
  exists filename,
    exports (events (save_clicked logic_exec w)) =
      [Export SVG (String.append filename ".svg");
       Export PNG (String.append filename ".png")].
Proof.
  intros E. eexists. unfold save_clicked, call. run_handler. rewrite E. reflexivity.
Qed.

(** C4.  One click on the Save button, with [filename] the path the save
    logic resolves for module 'LaserScanning' followed by the formatted
    time stamp: with PNG export on, two image files are written,
    [filename.svg] then [filename.png]; with PNG export off only
    [filename.svg]; the two file names differ; and in both cases
    [save_data] is the one command of the run, sent after the exports. *)
Theorem save_clicked_exports (w : world F) :
  let o := save_clicked logic_exec w in
  let filename :=
    String.append (get_path_for_module (_save_logic w) "LaserScanning")
                  (strftime w "\%Y-%m-%d_laser_scan_from_%Hh%Mm%Ss") in
  returned o = true /\
  (_save_PNG (gui w) = true ->
     events o = [Query "_save_logic" "get_path_for_module";
                 Export SVG (String.append filename ".svg");
                 Export PNG (String.append filename ".png");
                 Command Logic.save_data] /\
     length (exports (events o)) = 2%nat) /\
  (_save_PNG (gui w) = false ->
     events o = [Query "_save_logic" "get_path_for_module";
                 Export SVG (String.append filename ".svg");
                 Command Logic.save_data] /\
     length (exports (events o)) = 1%nat) /\
  String.append filename ".svg" <> String.append filename ".png" /\
  commands (events o) = [Command Logic.save_data] /\
  gui (final o) = gui w.
Proof.
  unfold save_clicked, call. run_handler.
  destruct (_save_PNG (gui w)) eqn:E; cbn;
    (split; [reflexivity |]); (split; [intros E'; try discriminate; split; reflexivity |]);
    (split; [intros E'; try discriminate; split; reflexivity |]);
    (split; [intros Heq; apply append_suffix_inj in Heq; discriminate |]);
    split; reflexivity.
Qed.
End Save.

(** Right after activation PNG export is on and a save writes the two
    files. *)
Lemma save_clicked_exports_witness :
  let w := Sample.activated "idle" 630 636 in
  exports (events (Laser.save_clicked Sample.logic_exec w)) =
    [Export SVG "C:\Data\2015\LaserScanning\2015-06-01_laser_scan_from_12h00m00s.svg";
     Export PNG "C:\Data\2015\LaserScanning\2015-06-01_laser_scan_from_12h00m00s.png"].
Proof.
  intros w.
  pose proof (save_clicked_exports Sample.logic_exec w) as (_ & H & _).
  destruct H as [H _]; [vm_compute; reflexivity |].
  rewrite H. vm_compute. reflexivity.
Defined.

(** One step of a frame proof: follow the structure of the handler. *)
Ltac frame_step :=
  lazymatch goal with
  | |- frame _ _ (_ ≫= _) => apply frame_bind; [typeclasses eauto | | intros ?]
  | |- frame _ _ (mret _) => apply frame_ret; typeclasses eauto
  | |- frame _ _ (gets _) => apply frame_gets; typeclasses eauto
  | |- frame _ _ (raise _) => apply frame_raise; typeclasses eauto
  | |- frame _ _ (modify _) => apply frame_modify; intros ?
  | |- frame _ _ (emit _) => apply frame_emit; [typeclasses eauto |]
  | |- frame _ _ (emit_if _ _) => apply frame_emit_if; [typeclasses eauto |]
  | |- frame _ _ (if ?b then _ else _) => destruct b
  | |- frame _ _ (match ?x with _ => _ end) => destruct x
  end.

Ltac laser_unfold :=
  progress unfold
    Laser.show, Laser.updateData, Laser.start_clicked, Laser.save_clicked,
    Laser.recalculate_histogram, Laser.set_auto_range, Laser._update_plot_views,
    Laser.edit_bins, Laser.edit_min_wavelength, Laser.edit_max_wavelength,
    Laser.min_wavelength_setValue, Laser.max_wavelength_setValue,
    Laser.bins_setValue, Laser.query, Laser.call, Laser.update_gui.

Ltac laser_frame := repeat (first [frame_step | laser_unfold]).

(** ** Laser-scanning GUI: the PNG flag *)
Section SavePNG.
Import Laser.
Context {F : Type} `{Ordered F} `{Arith F} `{Decimals F}.
Variable format_float : string -> F -> string.
Variable logic_exec : command F -> LaserScanningLogic F -> LaserScanningLogic F.

Lemma initUI_sets_save_PNG (w : world F) : _save_PNG (gui (final (initUI w))) = true.
Proof. reflexivity. Qed.

(** No operation other than [initUI] writes [_save_PNG]. *)
Lemma run_keeps_save_PNG (o : operation) :
  o <> op_initUI ->
  frame (same (fun w : world F => _save_PNG (gui w))) (fun _ => True)
        (run format_float logic_exec o).
Proof.
  intros Ho. destruct o; try congruence; cbn [run];
    laser_frame; try exact I; reflexivity.
Qed.

Lemma reachable_save_PNG (w : world F) :
  reachable format_float logic_exec w -> _save_PNG (gui w) = true.
Proof.
  induction 1 as [w | w o Hw IH | w l s c Hw IH].
  - apply initUI_sets_save_PNG.
  - destruct o; try (rewrite <- IH;
      refine (proj1 (run_keeps_save_PNG _ _ w)); discriminate).
    apply initUI_sets_save_PNG.
  - exact IH.
Qed.

(** C8.  In every state the activated GUI can reach through its
    operations, [_save_PNG] is [True], so a save writes the SVG file and
    then the PNG file: the one-file branch is never taken. *)
Theorem save_PNG_always_on (w : world F) :
  reachable format_float logic_exec w ->
  _save_PNG (gui w) = true /\
  (forall o, _save_PNG (gui (final (run format_float logic_exec o w))) = true) /\
  exists filename,
    exports (events (save_clicked logic_exec w)) =
      [Export SVG (String.append filename ".svg");
       Export PNG (String.append filename ".png")].
Proof.
  intros Hw. pose proof (reachable_save_PNG w Hw) as Hpng.
  split; [exact Hpng |]. split.
  - intros o. apply reachable_save_PNG. constructor. exact Hw.
  - apply save_clicked_writes_both. exact Hpng.
Qed.
End SavePNG.

(** The flag is still on after a session of clicks, edits and data
    updates. *)
Lemma save_PNG_always_on_witness :
  let w0 := Sample.activated "idle" 630 636 in
  let step o w := final (Laser.run Sample.format_float Sample.logic_exec o w) in
  let w := step Laser.op_save_clicked
             (step (Laser.op_edit_max_wavelength 650%Q)
                (step Laser.op_set_auto_range
                   (step Laser.op_updateData (step Laser.op_start_clicked w0)))) in
  Laser._save_PNG (Laser.gui w) = true.
Proof.
  intros w0 step w.
  refine (proj1 (save_PNG_always_on Sample.format_float Sample.logic_exec w _)).
  repeat apply Laser.reach_operation. apply Laser.reach_activate.
Defined.

Ltac confocal_unfold :=
  progress unfold
    Confocal.getitem, Confocal.update_gui, Confocal.update_axis,
    Confocal.update_optimizer_axis, Confocal.query, Confocal.if_present.

Ltac confocal_frame := repeat (first [frame_step | confocal_unfold]).


(** ** Data-updated handlers *)
Section DataUpdated.




End DataUpdated.

(** ** Confocal GUI: keyboard events *)

(** C7.  [move_scanner_by_keyboard_event] does nothing: for every event
    and every state it returns with the state unchanged and an empty run.
    A key press delivered to the main window is re-emitted as
    [sigKeyboardPressed] and ends there: no slot is connected, the state
    is unchanged and no collaborator is called. *)
Theorem move_scanner_by_keyboard_event_noop
  (event : Confocal.QKeyEvent) (w : Confocal.world) :
  Confocal.move_scanner_by_keyboard_event event w = Ok tt w [] /\
  Confocal.deliver_key event w = Ok tt w [Emit "_mw" "sigKeyboardPressed"].
Proof. split; reflexivity. Qed.

(** ** Laser-scanning GUI: auto range *)

Ltac laser_exec :=
  unfold Laser.run, Laser.show, Laser.updateData, Laser.start_clicked, Laser.save_clicked,
    Laser.recalculate_histogram, Laser.set_auto_range, Laser._update_plot_views,
    Laser.edit_bins, Laser.edit_min_wavelength, Laser.edit_max_wavelength,
    Laser.min_wavelength_setValue, Laser.max_wavelength_setValue,
    Laser.bins_setValue, Laser.query, Laser.call, Laser.update_gui;
  run_handler; cbn.

Section AutoRange.
Import Laser.
Context {F : Type} `{Ordered F} `{Arith F} `{Decimals F}.
Variable format_float : string -> F -> string.
Variable logic_exec : command F -> LaserScanningLogic F -> LaserScanningLogic F.

(** Only [initUI] sets the ranges and decimals of the wavelength
    inputs. *)
Lemma run_keeps_input_ranges (o : operation) (w : world F) :
  o <> op_initUI ->
  input_ranges (final (run format_float logic_exec o w)) = input_ranges w.
Proof.
  intros Ho. unfold input_ranges.
  destruct o; try congruence; laser_exec; try reflexivity;
    destruct (String.eqb _ _); reflexivity.
Qed.

Lemma initUI_input_ranges (w w' : world F) :
  input_ranges (final (initUI w)) = input_ranges (final (initUI w')).
Proof. reflexivity. Qed.

(** What one run of [set_auto_range] does, for any number type. *)
Lemma set_auto_range_run (w : world F) :
  let l := _scanning_logic w in
  let g := gui w in
  let o := set_auto_range logic_exec w in
  let xmin' := stored (_min_wavelength_display g) (intern_xmin l) in
  let xmax' := stored (_max_wavelength_display g) (intern_xmax l) in
  returned o = true /\
  value (spin (_min_wavelength_display (gui (final o)))) = xmin' /\
  value (spin (_max_wavelength_display (gui (final o)))) = xmax' /\
  commands (events o) =
    [Command (Logic.recalculate_histogram (value (_bins_display g)) xmin' xmax')] /\
  Forall (fun e => forall s, e <> Emit s "editingFinished") (events o).
Proof.
  unfold stored. laser_exec.
  repeat (split; [reflexivity |]).
  split; repeat match goal with
           | |- context [if ?b then [_] else []] => destruct b
           end; cbn; try reflexivity; repeat constructor; discriminate.
Qed.
End AutoRange.

Lemma Qltb_lt (x y : Q) : Qltb x y = true <-> (x < y)%Q.
Proof.
  unfold Qltb. rewrite negb_true_iff, <- not_true_iff_false, Qle_bool_iff.
  split; [apply Qnot_le_lt | apply Qlt_not_le].
Qed.

Lemma Qltb_ge (x y : Q) : Qltb x y = false <-> (y <= x)%Q.
Proof. unfold Qltb. rewrite negb_false_iff. apply Qle_bool_iff. Qed.

(** Inside the range nothing is clamped. *)
Lemma bound_in_range (lo hi v : Q) : (lo <= v)%Q -> (v <= hi)%Q -> bound lo hi v = v.
Proof.
  intros Hlo Hhi. unfold bound, ltb, Q_ordered.
  apply Qltb_ge in Hlo, Hhi. rewrite Hlo, Hhi. reflexivity.
Qed.

Lemma operation_eq_initUI {F} (o : Laser.operation (F := F)) :
  {o = Laser.op_initUI} + {o <> Laser.op_initUI}.
Proof. destruct o; (left; reflexivity) || (right; discriminate). Qed.

Section AutoRangeExact.
Import Laser.
#[local] Open Scope Q_scope.
Variable format_float : string -> Q -> string.
Variable logic_exec : command Q -> LaserScanningLogic Q -> LaserScanningLogic Q.

(** The ranges [initUI] gives the two inputs stay for good: 1 .. 1e6
    for the minimum, 1 .. 1e4 for the maximum, six decimals each. *)
Lemma reachable_input_ranges (w : world Q) :
  reachable format_float logic_exec w ->
  input_ranges w = ((1, 1000000, 6%nat), (1, 10000, 6%nat)).
Proof.
  induction 1 as [w | w o Hw IH | w l s c Hw IH].
  - vm_compute. reflexivity.
  - destruct (operation_eq_initUI o) as [-> | Ho].
    + vm_compute. reflexivity.
    + rewrite run_keeps_input_ranges; assumption.
  - exact IH.
Qed.

(** C3, as the code has it.  In every state the activated GUI can
    reach, one run of [set_auto_range] stores in the minimum input
    [intern_xmin] rounded to six decimals and bounded to 1 .. 1e6, in the
    maximum input [intern_xmax] rounded to six decimals and bounded to
    1 .. 1e4, and sends exactly one command: [recalculate_histogram]
    with the value of the bins input and the two values just stored.
    A reported bound that lies in the input's range and has at most six
    decimals is therefore stored, and sent, exactly. *)
Theorem set_auto_range_clamps (w : world Q) :
  reachable format_float logic_exec w ->
  let l := _scanning_logic w in
  let o := set_auto_range logic_exec w in
  let xmin' := value (spin (_min_wavelength_display (gui (final o)))) in
  let xmax' := value (spin (_max_wavelength_display (gui (final o)))) in
  returned o = true /\
  xmin' = bound 1 1000000 (round_decimals 6 (intern_xmin l)) /\
  xmax' = bound 1 10000 (round_decimals 6 (intern_xmax l)) /\
  commands (events o) =
    [Command (Logic.recalculate_histogram (value (_bins_display (gui w))) xmin' xmax')] /\
  (1 <= intern_xmin l <= 1000000 ->
     round_decimals 6 (intern_xmin l) == intern_xmin l -> xmin' == intern_xmin l) /\
  (1 <= intern_xmax l <= 10000 ->
     round_decimals 6 (intern_xmax l) == intern_xmax l -> xmax' == intern_xmax l).
Proof.
  intros Hw l o xmin' xmax'.
  pose proof (reachable_input_ranges w Hw) as Hr.
  destruct (set_auto_range_run logic_exec w) as (Hret & Hmin & Hmax & Hcmd & _).
  fold o in Hret, Hmin, Hmax, Hcmd. fold xmin' in Hmin. fold xmax' in Hmax.
  unfold input_ranges in Hr. injection Hr as Hlo1 Hhi1 Hd1 Hlo2 Hhi2 Hd2.
  unfold stored in Hmin, Hmax, Hcmd.
  rewrite Hlo1, Hhi1, Hd1 in Hmin, Hcmd. rewrite Hlo2, Hhi2, Hd2 in Hmax, Hcmd.
  fold l in Hmin, Hmax, Hcmd.
  split; [exact Hret |]. split; [exact Hmin |]. split; [exact Hmax |].
  split; [rewrite Hmin, Hmax; exact Hcmd |].
  split; intros [Hlo Hhi] Hround.
  - rewrite Hmin, bound_in_range; [exact Hround | |]; rewrite Hround; assumption.
  - rewrite Hmax, bound_in_range; [exact Hround | |]; rewrite Hround; assumption.
Qed.
End AutoRangeExact.

(** A data range of 630 .. 636 nm is taken over exactly. *)
Lemma set_auto_range_clamps_witness :
  let w := final (Laser.updateData Sample.format_float (Sample.activated "idle" 630 636)) in
  let o := Laser.set_auto_range Sample.logic_exec w in
  (value (spin (Laser._min_wavelength_display (Laser.gui (final o)))) == 630)%Q /\
  (value (spin (Laser._max_wavelength_display (Laser.gui (final o)))) == 636)%Q.
Proof.
  intros w o.
  assert (Hw : Laser.reachable Sample.format_float Sample.logic_exec w).
  { apply (Laser.reach_operation _ _ _ Laser.op_updateData). apply Laser.reach_activate. }
  pose proof (set_auto_range_clamps Sample.format_float Sample.logic_exec w Hw)
    as (_ & _ & _ & _ & Hmin & Hmax).
  split; [apply Hmin | apply Hmax]; vm_compute; try reflexivity;
    split; discriminate.
Defined.

(** C3 as stated does not hold: when the logic reports a maximum of
    20000 nm, beyond the 1e4 nm limit of the maximum input, the input shows
    10000 and the recalculation is called with 10000. *)
Lemma auto_range_not_exact :
  let w := Sample.activated "idle" 630 20000 in
  let o := Laser.set_auto_range Sample.logic_exec w in
  Laser.reachable Sample.format_float Sample.logic_exec w /\
  Laser.intern_xmax (Laser._scanning_logic w) = 20000%Q /\
  value (spin (Laser._max_wavelength_display (Laser.gui (final o)))) = 10000%Q /\
  commands (events o) = [Command (Logic.recalculate_histogram 200 630%Q 10000%Q)] /\
  ~ auto_range_exact Sample.logic_exec w.
Proof.
  intros w o. split; [apply Laser.reach_activate |].
  split; [reflexivity |]. split; [vm_compute; reflexivity |].
  split; [vm_compute; reflexivity |].
  intros (_ & Hmax & _). vm_compute in Hmax. discriminate.
Qed.

(** ** Confocal GUI: mirroring settings and position into the widgets *)
Section Mirror.
Import Confocal.














Lemma bound_in_range_Z (lo hi v : Z) : lo <= v -> v <= hi -> bound lo hi v = v.
Proof.
  intros Hlo Hhi. unfold bound, ltb, Z_ordered.
  destruct (Z.ltb_spec v lo); [lia |]. destruct (Z.ltb_spec hi v); [lia | reflexivity].
Qed.

End Mirror.



(** ** Confocal GUI: signals while mirroring *)
Section Signals.
Import Confocal.


Lemma frame_for_each {A} (R : relation world) `{!PreOrder R} (E : event Q -> Prop)
      (body : A -> handler unit) (l : list A) :
  (forall x, frame R E (body x)) -> frame R E (for_each body l).
Proof.
  intros Hbody. induction l as [| x l IH]; cbn [for_each].
  - apply frame_ret. typeclasses eauto.
  - apply frame_bind; [typeclasses eauto | apply Hbody | intros _; exact IH].
Qed.









End Signals.



(** ** Confocal GUI: the local variable [key] of [scan_data_updated] *)
Section ScanData.
Import Confocal.





End ScanData.



(** ** Binary64 arithmetic *)
Section Binary64Facts.
Import Binary64.
#[local] Open Scope R_scope.

Lemma pow2_pos e : 0 < pow2 e.
Proof. apply powerRZ_lt. lra. Qed.

Lemma pow2_add e1 e2 : pow2 (e1 + e2) = pow2 e1 * pow2 e2.
Proof. apply powerRZ_add. lra. Qed.

Lemma pow2_1 : pow2 1 = 2.
Proof. unfold pow2, powerRZ. change (Pos.to_nat 1) with 1%nat. simpl. lra. Qed.

Lemma pow2_0 : pow2 0 = 1.
Proof. reflexivity. Qed.

Lemma pow2_succ e : pow2 (e + 1) = 2 * pow2 e.
Proof. rewrite pow2_add, pow2_1. lra. Qed.

Lemma pow2_pred e : pow2 (e - 1) = pow2 e / 2.
Proof.
  replace e with ((e - 1) + 1)%Z at 2 by lia. rewrite pow2_succ. lra.
Qed.

Lemma pow2_le e1 e2 : (e1 <= e2)%Z -> pow2 e1 <= pow2 e2.
Proof.
  intros H. replace e2 with (e1 + (e2 - e1))%Z by lia. rewrite pow2_add.
  assert (1 <= pow2 (e2 - e1)).
  { unfold pow2. destruct (e2 - e1)%Z as [| p | p] eqn:E; try lia.
    - simpl. lra.
    - simpl. apply pow_R1_Rle. lra. }
  pose proof (pow2_pos e1). nra.
Qed.

Lemma pow2_lt e1 e2 : (e1 < e2)%Z -> pow2 e1 < pow2 e2.
Proof.
  intros H. assert (pow2 (e1 + 1) <= pow2 e2) by (apply pow2_le; lia).
  rewrite pow2_succ in H0. pose proof (pow2_pos e1). lra.
Qed.

Lemma pow2_lt_inv e1 e2 : pow2 e1 < pow2 e2 -> (e1 < e2)%Z.
Proof.
  intros H. destruct (Z_lt_le_dec e1 e2) as [Hlt | Hle]; [exact Hlt |].
  apply pow2_le in Hle. lra.
Qed.

Lemma pow2_IZR (n : Z) : (0 <= n)%Z -> pow2 n = IZR (2 ^ n).
Proof.
  intros Hn. unfold pow2. rewrite <- (Z2Nat.id n) by exact Hn.
  rewrite <- pow_powerRZ. rewrite <- pow_IZR. reflexivity.
Qed.

(** Number of binary digits. *)
Lemma digits2_pos_bounds (p : positive) :
  (2 ^ (Zpos (digits2_pos p) - 1) <= Zpos p < 2 ^ Zpos (digits2_pos p))%Z.
Proof.
  induction p as [p IH | p IH |]; cbn [digits2_pos]; [| | cbn; lia];
    rewrite Pos2Z.inj_succ;
    replace (Z.succ (Zpos (digits2_pos p)) - 1)%Z
      with (Z.succ (Zpos (digits2_pos p) - 1))%Z by lia;
    rewrite !Z.pow_succ_r by lia; lia.
Qed.

Lemma Zdigits2_bounds (m : Z) :
  (0 < m)%Z -> pow2 (Zdigits2 m - 1) <= IZR m < pow2 (Zdigits2 m).
Proof.
  intros Hm. destruct m as [| p | p]; try lia. cbn [Zdigits2].
  pose proof (digits2_pos_bounds p) as [H1 H2].
  rewrite !pow2_IZR by lia. split; [apply IZR_le | apply IZR_lt]; assumption.
Qed.

Lemma Zdigits2_nonneg (m : Z) : (0 <= Zdigits2 m)%Z.
Proof. destruct m; cbn; lia. Qed.

Lemma Zdigits2_pos (m : Z) : (0 < m)%Z -> (0 < Zdigits2 m)%Z.
Proof. destruct m; cbn; lia. Qed.

Lemma locates_bounds t m l : locates t m l -> IZR m <= t < IZR m + 1.
Proof. destruct l as [| []]; cbn; lra. Qed.

Lemma shr_record_of_loc_locates t m l :
  (0 <= m)%Z -> locates t m l -> locates_rec t (shr_record_of_loc m l).
Proof. intros Hm H. destruct l as [| []]; split; cbn; assumption. Qed.

Lemma IZR_xO p : IZR (Zpos p~0) = 2 * IZR (Zpos p).
Proof. rewrite Pos2Z.inj_xO, mult_IZR. reflexivity. Qed.

Lemma IZR_xI p : IZR (Zpos p~1) = 2 * IZR (Zpos p) + 1.
Proof. rewrite Pos2Z.inj_xI, plus_IZR, mult_IZR. reflexivity. Qed.

Lemma shr_1_locates t mrs : locates_rec t mrs -> locates_rec (t / 2) (shr_1 mrs).
Proof.
  destruct mrs as [m r s]. intros [Hm H]. cbn in Hm.
  destruct m as [| p | p]; [| destruct p as [p | p |] | lia];
    destruct r, s; unfold locates_rec, locates in *;
    cbn [shr_1 shr_m shr_r shr_s loc_of_shr_record orb] in *; (split; [lia |]);
    try rewrite (IZR_xO p) in *; try rewrite (IZR_xI p) in *; lra.
Qed.

(** [iter_pos f p] applies [f] [p] times. *)
Lemma iter_pos_invariant {A} (f : A -> A) (P : Z -> A -> Prop) :
  (forall k x, P k x -> P (k + 1)%Z (f x)) ->
  forall p k x, P k x -> P (k + Zpos p)%Z (SpecFloat.iter_pos f p x).
Proof.
  intros Hf. induction p as [p IH | p IH |]; intros k x Hx; cbn [SpecFloat.iter_pos].
  - replace (k + Zpos p~1)%Z with (k + 1 + Zpos p + Zpos p)%Z by lia. auto.
  - replace (k + Zpos p~0)%Z with (k + Zpos p + Zpos p)%Z by lia. auto.
  - auto.
Qed.

Lemma shr_locates t mrs e n :
  (0 <= n)%Z -> locates_rec (t / pow2 e) mrs ->
  let '(mrs', e') := shr mrs e n in
  e' = (e + n)%Z /\ locates_rec (t / pow2 e') mrs'.
Proof.
  intros Hn H. destruct n as [| p | p]; cbn [shr]; try lia.
  - split; [lia | exact H].
  - split; [reflexivity |].
    assert (Hstep : forall k x, locates_rec (t / pow2 (e + k)) x ->
                                locates_rec (t / pow2 (e + (k + 1))) (shr_1 x)).
    { intros k x Hx. replace (e + (k + 1))%Z with ((e + k) + 1)%Z by lia.
      rewrite pow2_succ. apply shr_1_locates in Hx.
      replace (t / (2 * pow2 (e + k))) with (t / pow2 (e + k) / 2); [exact Hx |].
      pose proof (pow2_pos (e + k)). field. lra. }
    pose proof (iter_pos_invariant shr_1 (fun k x => locates_rec (t / pow2 (e + k)) x)
                  Hstep p 0%Z mrs) as Hit.
    cbn beta in Hit. rewrite Z.add_0_l in Hit. apply Hit.
    rewrite Z.add_0_r. exact H.
Qed.

(** The exponent of the least significant bit for binary64. *)
Lemma fexp_eq (e : Z) : fexp 53 1024 e = Z.max (e - 53) (-1074).
Proof. reflexivity. Qed.

Lemma IZR_succ (m : Z) : IZR (m + 1) = IZR m + 1.
Proof. rewrite plus_IZR. reflexivity. Qed.

Lemma round_nearest_even_rne t m l :
  locates t m l -> rne t (round_nearest_even m l).
Proof.
  unfold rne. destruct l as [| []]; cbn [locates round_nearest_even]; intros H.
  - repeat split; intros; lra.
  - destruct (Z.even m) eqn:E.
    + repeat split; intros; try lra. exact E.
    + rewrite IZR_succ. repeat split; intros; try lra.
      rewrite Z.even_add, E. reflexivity.
  - repeat split; intros; lra.
  - rewrite IZR_succ. repeat split; intros; lra.
Qed.

Lemma round_nearest_even_nonneg m l : (0 <= m)%Z -> (0 <= round_nearest_even m l)%Z.
Proof. destruct l as [| []]; cbn; try destruct (Z.even m); lia. Qed.

Lemma rne_le_upper t r (N : Z) : rne t r -> t < IZR N -> (r <= N)%Z.
Proof.
  intros [[H1 _] _] Ht. apply Z.lt_succ_r. apply lt_IZR.
  unfold Z.succ. rewrite IZR_succ. lra.
Qed.

Lemma rne_ge_lower t r (N : Z) : rne t r -> IZR N <= t -> (N <= r)%Z.
Proof.
  intros [[_ H2] _] Ht. apply Z.lt_succ_r. apply lt_IZR.
  unfold Z.succ. rewrite IZR_succ. lra.
Qed.

Lemma rne_mono t1 t2 r1 r2 : t2 <= t1 -> rne t2 r2 -> rne t1 r1 -> (r2 <= r1)%Z.
Proof.
  intros Ht [[L2 U2] [E2 _]] [[L1 U1] [_ E1]].
  destruct (Z_le_gt_dec r2 r1) as [Hle | Hgt]; [exact Hle | exfalso].
  assert (Hr : IZR r1 + 1 <= IZR r2).
  { rewrite <- IZR_succ. apply IZR_le. lia. }
  assert (Heq1 : t1 = IZR r1 + / 2) by lra.
  assert (Heq2 : t2 = IZR r2 - / 2) by lra.
  assert (Hr' : r2 = (r1 + 1)%Z).
  { apply eq_IZR. rewrite IZR_succ. lra. }
  specialize (E1 Heq1). specialize (E2 Heq2).
  rewrite Hr', Z.even_add, E1 in E2. discriminate.
Qed.

Lemma rne_IZR (n r : Z) : rne (IZR n) r -> r = n.
Proof.
  intros [[L U] _].
  apply Z.le_antisymm; apply Z.lt_succ_r, lt_IZR; unfold Z.succ; rewrite IZR_succ; lra.
Qed.

Lemma Zdigits2_unique (r k : Z) :
  (2 ^ (k - 1) <= r < 2 ^ k)%Z -> (0 < k)%Z -> Zdigits2 r = k.
Proof.
  intros [H1 H2] Hk.
  assert (Hr : (0 < r)%Z) by (pose proof (Z.pow_pos_nonneg 2 (k - 1)); lia).
  destruct r as [| p | p]; try lia. cbn [Zdigits2].
  pose proof (digits2_pos_bounds p) as [D1 D2].
  assert (2 ^ (k - 1) < 2 ^ Zpos (digits2_pos p))%Z as A by lia.
  assert (2 ^ (Zpos (digits2_pos p) - 1) < 2 ^ k)%Z as B by lia.
  apply Z.pow_lt_mono_r_iff in A; [| lia | lia].
  apply Z.pow_lt_mono_r_iff in B; lia.
Qed.

Lemma Zdigits2_le (r k : Z) :
  (0 <= r)%Z -> (0 <= k)%Z -> (r < 2 ^ k)%Z -> (Zdigits2 r <= k)%Z.
Proof.
  intros Hr Hk H. destruct r as [| p | p]; cbn [Zdigits2]; try lia.
  pose proof (digits2_pos_bounds p) as [D1 _].
  assert (2 ^ (Zpos (digits2_pos p) - 1) < 2 ^ k)%Z as B by lia.
  apply Z.pow_lt_mono_r_iff in B; lia.
Qed.

Lemma scaled_back x c : x / pow2 c * pow2 c = x.
Proof. pose proof (pow2_pos c). field. lra. Qed.

Lemma scaled_lt x c k : x < pow2 (c + k) -> x / pow2 c < pow2 k.
Proof.
  intros H. rewrite pow2_add in H. pose proof (pow2_pos c).
  apply Rmult_lt_reg_r with (pow2 c); [assumption |]. rewrite scaled_back. lra.
Qed.

Lemma scaled_ge x c k : pow2 (c + k) <= x -> pow2 k <= x / pow2 c.
Proof.
  intros H. rewrite pow2_add in H. pose proof (pow2_pos c).
  apply Rmult_le_reg_r with (pow2 c); [assumption |]. rewrite scaled_back. lra.
Qed.

Lemma pow2_53 : pow2 53 = IZR 9007199254740992.
Proof. rewrite pow2_IZR by lia. reflexivity. Qed.

Lemma pow2_52 : pow2 52 = IZR 4503599627370496.
Proof. rewrite pow2_IZR by lia. reflexivity. Qed.

(** The exponent the first shift of [binary_round_aux] arrives at is the
    one of the format. *)
Lemma lsb_exp_of_locates x m e l :
  0 < x -> (0 <= m)%Z -> locates (x / pow2 e) m l ->
  (e <= fexp 53 1024 (Zdigits2 m + e))%Z ->
  lsb_exp x (fexp 53 1024 (Zdigits2 m + e)).
Proof.
  intros Hx Hm Hin Hpre. apply locates_bounds in Hin. rewrite fexp_eq in *.
  pose proof (pow2_pos e) as He.
  assert (Hlo : IZR m * pow2 e <= x).
  { apply Rmult_le_reg_r with (/ pow2 e); [apply Rinv_0_lt_compat; exact He |].
    replace (IZR m * pow2 e * / pow2 e) with (IZR m) by (field; lra).
    unfold Rdiv in Hin. lra. }
  assert (Hhi : x < (IZR m + 1) * pow2 e).
  { apply Rmult_lt_reg_r with (/ pow2 e); [apply Rinv_0_lt_compat; exact He |].
    replace ((IZR m + 1) * pow2 e * / pow2 e) with (IZR m + 1) by (field; lra).
    unfold Rdiv in Hin. lra. }
  destruct (Z.eq_dec m 0%Z) as [-> | Hm0].
  - cbn [Zdigits2] in *. rewrite Z.add_0_l in *.
    assert (e <= -1074)%Z by lia.
    replace (Z.max (e - 53) (-1074)) with (-1074)%Z by lia.
    left. split; [reflexivity |].
    assert (pow2 e <= pow2 (-1021)) by (apply pow2_le; lia). lra.
  - assert (Hmpos : (0 < m)%Z) by lia.
    pose proof (Zdigits2_bounds m Hmpos) as [B1 B2].
    pose proof (Zdigits2_pos m Hmpos) as Hd.
    set (d := Zdigits2 m) in *.
    assert (B2' : IZR m + 1 <= pow2 d).
    { rewrite pow2_IZR in * by lia. rewrite <- IZR_succ. apply IZR_le.
      apply lt_IZR in B2. lia. }
    assert (X1 : pow2 (d + e - 1) <= x).
    { replace (d + e - 1)%Z with ((d - 1) + e)%Z by lia. rewrite pow2_add. nra. }
    assert (X2 : x < pow2 (d + e)).
    { rewrite pow2_add. nra. }
    destruct (Z_lt_le_dec (-1074) (d + e - 53)) as [Hn | Hs].
    + replace (Z.max (d + e - 53) (-1074)) with (d + e - 53)%Z by lia.
      right. split; [exact Hn |].
      replace (d + e - 53 + 52)%Z with (d + e - 1)%Z by lia.
      replace (d + e - 53 + 53)%Z with (d + e)%Z by lia. lra.
    + replace (Z.max (d + e - 53) (-1074)) with (-1074)%Z by lia.
      left. split; [reflexivity |].
      assert (pow2 (d + e) <= pow2 (-1021)) by (apply pow2_le; lia). lra.
Qed.

Lemma shr_nonpos mrs e n : (n <= 0)%Z -> shr mrs e n = (mrs, e).
Proof. destruct n; cbn; [reflexivity | lia | reflexivity]. Qed.

(** [binary_round_aux] rounds to nearest, ties to even. *)
Lemma binary_round_aux_spec s m e l x :
  0 < x -> (0 <= m)%Z -> locates (x / pow2 e) m l ->
  (e <= fexp 53 1024 (Zdigits2 m + e))%Z ->
  exists Z, Round x Z /\
            SF2R (binary_round_aux 53 1024 s m e l) = sgn s Z /\
            binary_round_aux 53 1024 s m e l <> S754_nan.
Proof.
  intros Hx Hm Hin Hpre.
  pose proof (lsb_exp_of_locates x m e l Hx Hm Hin Hpre) as HC.
  unfold binary_round_aux, shr_fexp.
  set (c := fexp 53 1024 (Zdigits2 m + e)) in *.
  pose proof (shr_locates x (shr_record_of_loc m l) e (c - e) ltac:(lia)
                (shr_record_of_loc_locates _ _ _ Hm Hin)) as Hshr.
  destruct (shr (shr_record_of_loc m l) e (c - e)) as [mrs' e'].
  destruct Hshr as [He' [Hm' Hin']].
  subst e'. replace (e + (c - e))%Z with c in * by lia.
  pose proof (round_nearest_even_rne _ _ _ Hin') as Hrne.
  pose proof (round_nearest_even_nonneg _ (loc_of_shr_record mrs') Hm') as Hr0.
  set (r := round_nearest_even (shr_m mrs') (loc_of_shr_record mrs')) in *.
  cbn [shr_record_of_loc].
  assert (Hc : (-1074 <= c)%Z) by (unfold c; rewrite fexp_eq; lia).
  assert (Ht : x / pow2 c < pow2 53).
  { destruct HC as [[-> Hlt] | [_ [_ Hlt]]]; apply scaled_lt; exact Hlt. }
  assert (Hr53 : (r <= 9007199254740992)%Z).
  { apply (rne_le_upper _ _ _ Hrne). rewrite <- pow2_53. exact Ht. }
  destruct (Z.eq_dec r 9007199254740992%Z) as [Hr | Hr].
  - (* the rounding carried into the next binade *)
    rewrite Hr in *. change (Zdigits2 9007199254740992%Z) with 54%Z.
    rewrite fexp_eq. replace (Z.max (54 + c - 53) (-1074) - c)%Z with 1%Z by lia.
    cbn [shr SpecFloat.iter_pos shr_1 shr_m].
    assert (Hval : IZR 4503599627370496 * pow2 (c + 1) = IZR 9007199254740992 * pow2 c).
    { rewrite pow2_succ. lra. }
    assert (Hval' : IZR 9007199254740992 * pow2 c = pow2 (c + 53)).
    { rewrite pow2_add, pow2_53. lra. }
    destruct (Z.leb_spec (c + 1)%Z (1024 - 53)%Z) as [Hle | Hgt].
    + exists (IZR 9007199254740992 * pow2 c). split; [| split; [| discriminate]].
      * exists c, 9007199254740992%Z. split; [exact HC |]. split; [exact Hrne |].
        left. split; [| reflexivity]. rewrite Hval'. apply pow2_lt. lia.
      * cbn [SF2R]. rewrite Hval. reflexivity.
    + exists (pow2 2000). split; [| split; [reflexivity | discriminate]].
      exists c, 9007199254740992%Z. split; [exact HC |]. split; [exact Hrne |].
      right. split; [| reflexivity]. rewrite Hval'. apply pow2_le. lia.
  - assert (Hr' : (r < 2 ^ 53)%Z) by (change (2 ^ 53)%Z with 9007199254740992%Z; lia).
    pose proof (Zdigits2_le r 53 Hr0 ltac:(lia) Hr') as Hd.
    pose proof (Zdigits2_nonneg r) as Hd0.
    rewrite fexp_eq, shr_nonpos by lia. cbn [shr_m].
    destruct r as [| p | p] eqn:Er; [| | lia].
    + exists 0. split; [| split; [| discriminate]].
      * exists c, 0%Z. split; [exact HC |]. split; [exact Hrne |].
        left. split; [| lra]. pose proof (pow2_pos 1024). lra.
      * cbn [SF2R]. destruct s; cbn; lra.
    + destruct (Z.leb_spec c (1024 - 53)%Z) as [Hle | Hgt].
      * exists (IZR (Zpos p) * pow2 c). split; [| split; [reflexivity | discriminate]].
        exists c, (Zpos p). split; [exact HC |]. split; [exact Hrne |].
        left. split; [| reflexivity].
        assert (IZR (Zpos p) < pow2 53) by (rewrite pow2_53; apply IZR_lt; lia).
        assert (pow2 c <= pow2 971) by (apply pow2_le; lia).
        replace (pow2 1024) with (pow2 53 * pow2 971)
          by (rewrite <- pow2_add; reflexivity).
        pose proof (pow2_pos c). pose proof (pow2_pos 53).
        assert (0 < IZR (Zpos p)) by (apply IZR_lt; lia). nra.
      * exists (pow2 2000). split; [| split; [reflexivity | discriminate]].
        exists c, (Zpos p). split; [exact HC |]. split; [exact Hrne |].
        right. split; [| reflexivity].
        destruct HC as [[-> _] | [_ [Hlo _]]]; [lia |].
        apply scaled_ge in Hlo.
        assert (4503599627370496 <= Zpos p)%Z as Hp.
        { apply (rne_ge_lower _ _ _ Hrne). rewrite <- pow2_52. exact Hlo. }
        apply IZR_le in Hp. rewrite <- pow2_52 in Hp.
        assert (pow2 972 <= pow2 c) by (apply pow2_le; lia).
        replace (pow2 1024) with (pow2 52 * pow2 972)
          by (rewrite <- pow2_add; reflexivity).
        pose proof (pow2_pos 972). pose proof (pow2_pos 52). nra.
Qed.

Lemma rne_nonneg t r : 0 <= t -> rne t r -> (0 <= r)%Z.
Proof. intros Ht H. apply (rne_ge_lower _ _ 0 H). exact Ht. Qed.

Lemma lsb_exp_ge c x : lsb_exp x c -> (-1074 <= c)%Z.
Proof. intros [[-> _] | [H _]]; lia. Qed.

Lemma lsb_exp_upper c x : lsb_exp x c -> x < pow2 (c + 53).
Proof. intros [[-> H] | [_ [_ H]]]; exact H. Qed.

Lemma Round_nonneg x Z : 0 < x -> Round x Z -> 0 <= Z.
Proof.
  intros Hx (c & r & HC & Hr & HZ).
  assert (0 <= r)%Z as Hr0.
  { apply (rne_nonneg (x / pow2 c)); [| exact Hr].
    pose proof (pow2_pos c). apply Rlt_le, Rdiv_lt_0_compat; assumption. }
  apply IZR_le in Hr0. pose proof (pow2_pos c). pose proof (pow2_pos 2000).
  destruct HZ as [[_ ->] | [_ ->]]; nra.
Qed.

Lemma Round_le_top x Z : Round x Z -> Z <= pow2 2000.
Proof.
  intros (c & r & _ & _ & [[H ->] | [_ ->]]); [| lra].
  assert (pow2 1024 < pow2 2000) by (apply pow2_lt; lia). lra.
Qed.

Lemma Round_finite_lt x Z : Round x Z -> Z < pow2 2000 -> Z < pow2 1024.
Proof. intros (c & r & _ & _ & [[H ->] | [_ ->]]); lra. Qed.

(** Rounding is monotone. *)
Lemma Round_mono x1 x2 Z1 Z2 :
  0 < x2 -> x2 <= x1 -> Round x2 Z2 -> Round x1 Z1 -> Z2 <= Z1.
Proof.
  intros Hx2 Hx (c2 & r2 & HC2 & Hr2 & HZ2) (c1 & r1 & HC1 & Hr1 & HZ1).
  assert (HV : IZR r2 * pow2 c2 <= IZR r1 * pow2 c1).
  { pose proof (pow2_pos c1) as P1. pose proof (pow2_pos c2) as P2.
    destruct (Z.lt_trichotomy c2 c1) as [Hlt | [Heq | Hgt]].
    - (* lower binade *)
      destruct HC1 as [[-> _] | [_ [Hlo1 _]]]; [apply lsb_exp_ge in HC2; lia |].
      apply scaled_ge in Hlo1.
      assert (4503599627370496 <= r1)%Z as A1
        by (apply (rne_ge_lower _ _ _ Hr1); rewrite <- pow2_52; exact Hlo1).
      apply IZR_le in A1. rewrite <- pow2_52 in A1.
      pose proof (scaled_lt _ _ _ (lsb_exp_upper _ _ HC2)) as Hhi2.
      assert (r2 <= 9007199254740992)%Z as A2
        by (apply (rne_le_upper _ _ _ Hr2); rewrite <- pow2_53; exact Hhi2).
      apply IZR_le in A2. rewrite <- pow2_53 in A2.
      assert (pow2 53 * pow2 c2 <= pow2 52 * pow2 c1).
      { rewrite <- !pow2_add. apply pow2_le. lia. }
      nra.
    - subst c2. assert (r2 <= r1)%Z as A.
      { apply (rne_mono (x1 / pow2 c1) (x2 / pow2 c1)); [| assumption | assumption].
        unfold Rdiv. apply Rmult_le_compat_r; [| exact Hx].
        apply Rlt_le, Rinv_0_lt_compat. exact P1. }
      apply IZR_le in A. nra.
    - exfalso.
      destruct HC2 as [[-> _] | [_ [Hlo2 _]]]; [apply lsb_exp_ge in HC1; lia |].
      pose proof (lsb_exp_upper _ _ HC1) as Hhi1.
      assert (pow2 (c1 + 53) <= pow2 (c2 + 52)) by (apply pow2_le; lia). lra. }
  assert (pow2 1024 < pow2 2000) by (apply pow2_lt; lia).
  destruct HZ1 as [[H1 ->] | [H1 ->]], HZ2 as [[H2 ->] | [H2 ->]]; lra.
Qed.

Lemma RoundS_mono x1 x2 Z1 Z2 :
  x2 <= x1 -> RoundS x2 Z2 -> RoundS x1 Z1 -> Z2 <= Z1.
Proof.
  intros Hx [[P2 H2] | [[E2 ->] | [N2 (Z2' & H2 & ->)]]]
            [[P1 H1] | [[E1 ->] | [N1 (Z1' & H1 & ->)]]]; try lra.
  - apply (Round_mono x1 x2); assumption.
  - apply Round_nonneg in H1; assumption.
  - apply Round_nonneg in H2; [| lra]. apply Round_nonneg in H1; [| lra]. lra.
  - apply Round_nonneg in H2; lra.
  - assert (Z1' <= Z2'); [| lra]. apply (Round_mono (- x2) (- x1)); try assumption; lra.
Qed.

Lemma RoundS_not_top x Z : RoundS x Z -> - pow2 2000 <= Z <= pow2 2000.
Proof.
  pose proof (pow2_pos 2000).
  intros [[P H1] | [[E ->] | [N (Z' & H1 & ->)]]]; [| lra |].
  - pose proof (Round_nonneg _ _ P H1). pose proof (Round_le_top _ _ H1). lra.
  - pose proof (Round_nonneg (- x) Z' ltac:(lra) H1). pose proof (Round_le_top _ _ H1). lra.
Qed.

(** ** Valid binary64 numbers *)

Lemma valid_finite s m e :
  SpecFloat.valid_binary 53 1024 (S754_finite s m e) = true ->
  fexp 53 1024 (Zdigits2 (Zpos m) + e) = e /\ (e <= 971)%Z.
Proof.
  cbn [SpecFloat.valid_binary]. unfold bounded, canonical_mantissa. intros H.
  apply andb_prop in H as [H1 H2]. apply Z.eqb_eq in H1. apply Z.leb_le in H2.
  split; [exact H1 | exact H2].
Qed.

Lemma valid_canonical s m e :
  SpecFloat.valid_binary 53 1024 (S754_finite s m e) = true -> canonical m e.
Proof.
  intros H. apply valid_finite in H as [H1 H2].
  pose proof H1 as H1'. rewrite fexp_eq in H1'.
  assert (Hd : (Zdigits2 (Zpos m) <= 53)%Z) by lia.
  assert (Hm : IZR (Zpos m) < pow2 53).
  { pose proof (Zdigits2_bounds (Zpos m) ltac:(lia)) as [_ B].
    assert (pow2 (Zdigits2 (Zpos m)) <= pow2 53) by (apply pow2_le; exact Hd). lra. }
  assert (Hp : 0 < IZR (Zpos m)) by (apply IZR_lt; lia).
  pose proof (pow2_pos e) as He.
  split; try lia; try assumption.
  - nra.
  - assert (pow2 e <= pow2 971) by (apply pow2_le; lia).
    replace (pow2 1024) with (pow2 53 * pow2 971) by (rewrite <- pow2_add; reflexivity).
    pose proof (pow2_pos 53). nra.
Qed.

Lemma rne_self (n : Z) : rne (IZR n) n.
Proof. unfold rne. repeat split; intros; lra. Qed.

(** A binary64 number rounds to itself. *)
Lemma Round_repr m e :
  canonical m e -> Round (IZR (Zpos m) * pow2 e) (IZR (Zpos m) * pow2 e).
Proof.
  intros C. set (x := IZR (Zpos m) * pow2 e).
  assert (Hs : x / pow2 e = IZR (Zpos m)).
  { unfold x. pose proof (pow2_pos e). field. lra. }
  exists e, (Zpos m). split; [| split].
  - assert (HC : lsb_exp x (fexp 53 1024 (Zdigits2 (Zpos m) + e))).
    { apply (lsb_exp_of_locates x (Zpos m) e loc_Exact); [apply (can_pos _ _ C) | lia | |].
      - cbn [locates]. exact Hs.
      - rewrite (can_fexp _ _ C). lia. }
    rewrite (can_fexp _ _ C) in HC. exact HC.
  - rewrite Hs. apply rne_self.
  - left. split; [apply (can_top _ _ C) | reflexivity].
Qed.

Lemma canonical_exp_lt m1 e1 m2 e2 :
  canonical m1 e1 -> canonical m2 e2 -> (e1 < e2)%Z ->
  IZR (Zpos m1) * pow2 e1 < IZR (Zpos m2) * pow2 e2.
Proof.
  intros C1 C2 He.
  pose proof (can_emin _ _ C1).
  pose proof (can_normal _ _ C2 ltac:(lia)) as Hd2.
  pose proof (Zdigits2_bounds (Zpos m2) ltac:(lia)) as [B2 _]. rewrite Hd2 in B2.
  change (53 - 1)%Z with 52%Z in B2.
  pose proof (can_lt53 _ _ C1) as B1.
  assert (pow2 53 * pow2 e1 <= pow2 52 * pow2 e2).
  { rewrite <- !pow2_add. apply pow2_le. lia. }
  pose proof (pow2_pos e1). pose proof (pow2_pos e2). nra.
Qed.

(** On valid numbers [SFcompare] is the order of the values. *)
Lemma SFcompare_spec x y :
  SpecFloat.valid_binary 53 1024 x = true -> SpecFloat.valid_binary 53 1024 y = true ->
  is_nan_sf x = false -> is_nan_sf y = false ->
  match SFcompare x y with
  | Some Lt => SF2R x < SF2R y
  | Some Eq => SF2R x = SF2R y
  | Some Gt => SF2R y < SF2R x
  | None => False
  end.
Proof.
  intros Vx Vy Nx Ny.
  pose proof (pow2_pos 2000) as Ptop.
  assert (Hlt : pow2 1024 < pow2 2000) by (apply pow2_lt; lia).
  destruct x as [sx | sx | | sx mx ex], y as [sy | sy | | sy my ey];
    try discriminate; cbn [SFcompare SF2R].
  - reflexivity.
  - destruct sy; cbn [sgn]; lra.
  - apply valid_canonical in Vy. pose proof (can_pos _ _ Vy).
    destruct sy; cbn [sgn]; lra.
  - destruct sx; cbn [sgn]; lra.
  - destruct sx, sy; cbn [sgn]; lra.
  - apply valid_canonical in Vy. pose proof (can_pos _ _ Vy). pose proof (can_top _ _ Vy).
    destruct sx, sy; cbn [sgn]; lra.
  - apply valid_canonical in Vx. pose proof (can_pos _ _ Vx).
    destruct sx; cbn [sgn]; lra.
  - apply valid_canonical in Vx. pose proof (can_pos _ _ Vx). pose proof (can_top _ _ Vx).
    destruct sx, sy; cbn [sgn]; lra.
  - apply valid_canonical in Vx, Vy.
    pose proof (can_pos _ _ Vx). pose proof (can_pos _ _ Vy).
    assert (Hm : match Pos.compare_cont Eq mx my with
                 | Lt => IZR (Zpos mx) < IZR (Zpos my)
                 | Eq => IZR (Zpos mx) = IZR (Zpos my)
                 | Gt => IZR (Zpos my) < IZR (Zpos mx)
                 end).
    { change (Pos.compare_cont Eq mx my) with (Pos.compare mx my).
      destruct (Pos.compare_spec mx my) as [-> | Hc | Hc];
        [reflexivity | apply IZR_lt; lia | apply IZR_lt; lia]. }
    pose proof (pow2_pos ex) as Pex.
    destruct sx, sy; cbn [sgn]; try lra;
      destruct (Z.compare_spec ex ey) as [-> | He | He];
      try (pose proof (canonical_exp_lt _ _ _ _ Vx Vy He); lra);
      try (pose proof (canonical_exp_lt _ _ _ _ Vy Vx He); lra);
      destruct (Pos.compare_cont Eq mx my); cbn [CompOpp]; nra.
Qed.

(** ** Division *)

Lemma new_location_locates (q nb k : Z) :
  (0 < nb)%Z -> (0 <= k < nb)%Z ->
  locates (IZR q + IZR k / IZR nb) q (new_location nb k).
Proof.
  intros Hnb [Hk0 Hk].
  assert (Pnb : 0 < IZR nb) by (apply IZR_lt; lia).
  assert (Hfrac1 : IZR k / IZR nb < 1).
  { apply Rmult_lt_reg_r with (IZR nb); [exact Pnb |].
    replace (IZR k / IZR nb * IZR nb) with (IZR k) by (field; lra).
    apply IZR_lt in Hk. lra. }
  assert (Hhalf : forall c, Z.compare (2 * k) nb = c ->
            match c with
            | Lt => IZR k / IZR nb < / 2
            | Eq => IZR k / IZR nb = / 2
            | Gt => / 2 < IZR k / IZR nb
            end).
  { intros c <-. destruct (Z.compare_spec (2 * k) nb) as [E | E | E].
    - apply (f_equal IZR) in E. rewrite mult_IZR in E. field_simplify_eq; lra.
    - apply IZR_lt in E. rewrite mult_IZR in E.
      apply Rmult_lt_reg_r with (IZR nb); [exact Pnb |].
      replace (IZR k / IZR nb * IZR nb) with (IZR k) by (field; lra). lra.
    - apply IZR_lt in E. rewrite mult_IZR in E.
      apply Rmult_lt_reg_r with (IZR nb); [exact Pnb |].
      replace (IZR k / IZR nb * IZR nb) with (IZR k) by (field; lra). lra. }
  unfold new_location.
  destruct (Z.even nb) eqn:Ev; unfold new_location_even, new_location_odd;
    destruct (Z.eqb_spec k 0) as [-> | Hk']; cbn [locates];
    try (unfold Rdiv; rewrite Rmult_0_l; lra).
  - assert (Hpos : 0 < IZR k / IZR nb).
    { apply Rdiv_lt_0_compat; [apply IZR_lt; lia | exact Pnb]. }
    specialize (Hhalf _ eq_refl).
    destruct (2 * k ?= nb)%Z; cbn [locates]; cbv beta iota in Hhalf; lra.
  - assert (Hpos : 0 < IZR k / IZR nb).
    { apply Rdiv_lt_0_compat; [apply IZR_lt; lia | exact Pnb]. }
    assert (Hodd : (2 * k <> nb)%Z).
    { intros E. rewrite <- E, Z.even_mul in Ev. discriminate. }
    destruct (Z.compare_spec (2 * k + 1) nb) as [E | E | E]; cbn [locates].
    + assert (Hc : (2 * k ?= nb)%Z = Lt) by (apply Z.compare_lt_iff; lia).
      specialize (Hhalf _ Hc). cbv beta iota in Hhalf. lra.
    + assert (Hc : (2 * k ?= nb)%Z = Lt) by (apply Z.compare_lt_iff; lia).
      specialize (Hhalf _ Hc). cbv beta iota in Hhalf. lra.
    + assert (Hc : (2 * k ?= nb)%Z = Gt) by (apply Z.compare_gt_iff; lia).
      specialize (Hhalf _ Hc). cbv beta iota in Hhalf. lra.
Qed.

Lemma SFdiv_core_spec (m1 : positive) (e1 : Z) (m2 : positive) (e2 : Z) :
  let x := (IZR (Zpos m1) * pow2 e1) / (IZR (Zpos m2) * pow2 e2) in
  let '(q, e', l) := SFdiv_core_binary 53 1024 (Zpos m1) e1 (Zpos m2) e2 in
  (0 <= q)%Z /\ locates (x / pow2 e') q l /\ (e' <= fexp 53 1024 (Zdigits2 q + e'))%Z.
Proof.
  intros x. unfold SFdiv_core_binary.
  set (d1 := Zdigits2 (Zpos m1)). set (d2 := Zdigits2 (Zpos m2)).
  set (e' := Z.min (fexp 53 1024 (d1 + e1 - (d2 + e2))) (e1 - e2)).
  set (s := (e1 - e2 - e')%Z).
  assert (Hs : (0 <= s)%Z) by (unfold s, e'; lia).
  set (m' := match s with Zpos _ => Z.shiftl (Zpos m1) s | Z0 => Zpos m1 | Zneg _ => 0%Z end).
  assert (Hm' : m' = (Zpos m1 * 2 ^ s)%Z).
  { unfold m'. destruct s as [| p | p]; [cbn; lia | apply Z.shiftl_mul_pow2; lia | lia]. }
  pose proof (Z_div_mod m' (Zpos m2) ltac:(lia)) as Hdiv.
  destruct (Z.div_eucl m' (Zpos m2)) as [q r]. destruct Hdiv as [Heq Hr].
  assert (Hm'0 : (0 <= m')%Z) by (rewrite Hm'; pose proof (Z.pow_nonneg 2 s); nia).
  assert (Hq : (0 <= q)%Z) by nia.
  pose proof (pow2_pos e1) as P1. pose proof (pow2_pos e2) as P2.
  pose proof (pow2_pos e') as P'. pose proof (pow2_pos s) as Ps.
  assert (Pm1 : 0 < IZR (Zpos m1)) by (apply IZR_lt; lia).
  assert (Pm2 : 0 < IZR (Zpos m2)) by (apply IZR_lt; lia).
  assert (Hbs : pow2 e1 = pow2 s * pow2 e2 * pow2 e').
  { rewrite <- !pow2_add. f_equal. unfold s. lia. }
  assert (Ht : x / pow2 e' = IZR q + IZR r / IZR (Zpos m2)).
  { unfold x. rewrite Hbs.
    assert (Hm'R : IZR (Zpos m1) * pow2 s = IZR (Zpos m2) * IZR q + IZR r).
    { rewrite pow2_IZR by exact Hs. rewrite <- mult_IZR, <- Hm', Heq, plus_IZR, mult_IZR.
      reflexivity. }
    field_simplify_eq; [| lra]. nra. }
  split; [exact Hq |]. split.
  - rewrite Ht. apply new_location_locates; lia.
  - set (dq := Zdigits2 q).
    assert (Hxpos : 0 < x).
    { unfold x. apply Rdiv_lt_0_compat; nra. }
    assert (Hx_lo : pow2 (d1 + e1 - (d2 + e2) - 1) < x).
    { pose proof (Zdigits2_bounds (Zpos m1) ltac:(lia)) as [B1 _].
      pose proof (Zdigits2_bounds (Zpos m2) ltac:(lia)) as [_ B2].
      fold d1 in B1. fold d2 in B2.
      assert (Hx : x * (IZR (Zpos m2) * pow2 e2) = IZR (Zpos m1) * pow2 e1).
      { unfold x. field. split; lra. }
      destruct (Rlt_le_dec (pow2 (d1 + e1 - (d2 + e2) - 1)) x) as [A | A]; [exact A | exfalso].
      assert (pow2 (d1 + e1 - (d2 + e2) - 1) * (pow2 d2 * pow2 e2) = pow2 (d1 - 1) * pow2 e1).
      { rewrite <- !pow2_add. f_equal. lia. }
      pose proof (pow2_pos (d1 + e1 - (d2 + e2) - 1)). pose proof (pow2_pos d2).
      pose proof (pow2_pos (d1 - 1)).
      assert (S1 : x * IZR (Zpos m2) <= pow2 (d1 + e1 - (d2 + e2) - 1) * IZR (Zpos m2))
        by (apply Rmult_le_compat_r; lra).
      assert (S2 : pow2 (d1 + e1 - (d2 + e2) - 1) * IZR (Zpos m2)
                   < pow2 (d1 + e1 - (d2 + e2) - 1) * pow2 d2)
        by (apply Rmult_lt_compat_l; lra).
      assert (S3 : x * IZR (Zpos m2) * pow2 e2
                   < pow2 (d1 + e1 - (d2 + e2) - 1) * pow2 d2 * pow2 e2)
        by (apply Rmult_lt_compat_r; lra).
      assert (S4 : pow2 (d1 - 1) * pow2 e1 <= IZR (Zpos m1) * pow2 e1)
        by (apply Rmult_le_compat_r; lra).
      lra. }
    assert (Hx_hi : x < pow2 (dq + e')).
    { assert (Hq1 : IZR q + 1 <= pow2 dq).
      { destruct (Z.eq_dec q 0%Z) as [-> | Hq0].
        - unfold dq. cbn. lra.
        - pose proof (Zdigits2_bounds q ltac:(lia)) as [_ B]. fold dq in B.
          pose proof (Zdigits2_nonneg q). fold dq in H.
          rewrite pow2_IZR in * by lia. rewrite <- IZR_succ. apply IZR_le.
          apply lt_IZR in B. lia. }
      assert (Hfrac : IZR r / IZR (Zpos m2) < 1).
      { apply Rmult_lt_reg_r with (IZR (Zpos m2)); [exact Pm2 |].
        replace (IZR r / IZR (Zpos m2) * IZR (Zpos m2)) with (IZR r) by (field; lra).
        assert (IZR r < IZR (Zpos m2)) by (apply IZR_lt; lia). lra. }
      rewrite pow2_add.
      apply Rmult_lt_reg_r with (/ pow2 e'); [apply Rinv_0_lt_compat; exact P' |].
      replace (pow2 dq * pow2 e' * / pow2 e') with (pow2 dq) by (field; lra).
      fold (x / pow2 e'). rewrite Ht. lra. }
    assert (Hd : (d1 + e1 - (d2 + e2) <= dq + e')%Z).
    { assert (pow2 (d1 + e1 - (d2 + e2) - 1) < pow2 (dq + e')) as A by lra.
      apply pow2_lt_inv in A. lia. }
    assert (He' : (e' <= fexp 53 1024 (d1 + e1 - (d2 + e2)))%Z) by (unfold e'; lia).
    rewrite fexp_eq in *. clearbody e' dq d1 d2. lia.
Qed.

Lemma SFdiv_pos_spec (m1 : positive) (e1 : Z) (m2 : positive) (e2 : Z) :
  let x := (IZR (Zpos m1) * pow2 e1) / (IZR (Zpos m2) * pow2 e2) in
  let z := SFdiv 53 1024 (S754_finite false m1 e1) (S754_finite false m2 e2) in
  exists Z, Round x Z /\ SF2R z = Z /\ z <> S754_nan.
Proof.
  intros x z. unfold z. cbn [SFdiv xorb].
  pose proof (SFdiv_core_spec m1 e1 m2 e2) as H. cbn zeta in H. fold x in H.
  destruct (SFdiv_core_binary 53 1024 (Zpos m1) e1 (Zpos m2) e2) as [[q e'] l].
  destruct H as (Hq & Hin & Hpre).
  assert (Hx : 0 < x).
  { unfold x. pose proof (pow2_pos e1). pose proof (pow2_pos e2).
    assert (0 < IZR (Zpos m1)) by (apply IZR_lt; lia).
    assert (0 < IZR (Zpos m2)) by (apply IZR_lt; lia).
    apply Rdiv_lt_0_compat; nra. }
  destruct (binary_round_aux_spec false q e' l x Hx Hq Hin Hpre) as (Z & HR & HZ & Hn).
  exists Z. split; [exact HR |]. split; [exact HZ | exact Hn].
Qed.

(** ** Subtraction *)

Lemma iter_xO (m d : positive) :
  Zpos (Pos.iter xO m d) = (Zpos m * 2 ^ Zpos d)%Z /\
  Zpos (digits2_pos (Pos.iter xO m d)) = (Zpos (digits2_pos m) + Zpos d)%Z.
Proof.
  induction d as [| d [IH1 IH2]] using Pos.peano_ind.
  - cbn [Pos.iter digits2_pos]. split; [rewrite Pos2Z.inj_xO; lia | lia].
  - rewrite Pos.iter_succ. cbn [digits2_pos].
    rewrite Pos2Z.inj_xO, IH1, !Pos2Z.inj_succ, IH2, Z.pow_succ_r by lia.
    split; lia.
Qed.

Lemma shl_align_spec (m : positive) (e e' : Z) :
  let '(m', e'') := shl_align m e e' in
  IZR (Zpos m') * pow2 e'' = IZR (Zpos m) * pow2 e /\
  ((e' <= e)%Z -> e'' = e') /\
  ((e <= e')%Z -> m' = m /\ e'' = e) /\
  (Zdigits2 (Zpos m') + e'' = Zdigits2 (Zpos m) + e)%Z.
Proof.
  unfold shl_align. destruct (e' - e)%Z as [| d | d] eqn:E.
  - repeat split; try reflexivity; lia.
  - repeat split; try reflexivity; lia.
  - destruct (iter_xO m d) as [H1 H2]. cbn [Zdigits2].
    split; [| split; [reflexivity | split; [intros; exfalso; lia | lia]]].
    rewrite H1, mult_IZR, <- pow2_IZR by lia.
    replace (pow2 e) with (pow2 (Zpos d + e')) by (f_equal; lia).
    rewrite pow2_add. lra.
Qed.

Lemma binary_round_spec (s : bool) (m : positive) (e : Z) :
  exists Z, Round (IZR (Zpos m) * pow2 e) Z /\
            SF2R (binary_round 53 1024 s m e) = sgn s Z /\
            binary_round 53 1024 s m e <> S754_nan.
Proof.
  unfold binary_round.
  pose proof (shl_align_spec m e (fexp 53 1024 (Zpos (digits2_pos m) + e))) as H.
  destruct (shl_align m e (fexp 53 1024 (Zpos (digits2_pos m) + e))) as [mz ez].
  destruct H as (Hv & Hle & Hge & Hd). cbn [Zdigits2] in Hd.
  assert (Hx : 0 < IZR (Zpos m) * pow2 e).
  { pose proof (pow2_pos e). assert (0 < IZR (Zpos m)) by (apply IZR_lt; lia). nra. }
  apply binary_round_aux_spec; [exact Hx | lia | |].
  - cbn [locates]. rewrite <- Hv. pose proof (pow2_pos ez). field. lra.
  - cbn [Zdigits2]. rewrite Hd.
    destruct (Z_le_gt_dec (fexp 53 1024 (Zpos (digits2_pos m) + e)) e) as [A | A].
    + rewrite (Hle A). lia.
    + destruct (Hge ltac:(lia)) as [_ ->]. lia.
Qed.

Lemma RoundS_opp x Z : RoundS x Z -> RoundS (- x) (- Z).
Proof.
  intros [[P H] | [[E ->] | [N (Z' & H & ->)]]].
  - right. right. split; [lra |]. exists Z. rewrite Ropp_involutive. split; [exact H | reflexivity].
  - right. left. split; lra.
  - left. split; [lra |]. rewrite Ropp_involutive. exact H.
Qed.

Lemma binary_normalize_spec (M e : Z) (sz : bool) :
  exists Z, RoundS (IZR M * pow2 e) Z /\
            SF2R (binary_normalize 53 1024 M e sz) = Z /\
            binary_normalize 53 1024 M e sz <> S754_nan.
Proof.
  unfold binary_normalize. destruct M as [| p | p].
  - exists 0. split; [right; left; split; lra |]. split; [reflexivity | discriminate].
  - destruct (binary_round_spec false p e) as (Z & HR & HZ & Hn).
    exists Z. split; [| split; [exact HZ | exact Hn]].
    left. split; [| exact HR].
    pose proof (pow2_pos e). assert (0 < IZR (Zpos p)) by (apply IZR_lt; lia). nra.
  - destruct (binary_round_spec true p e) as (Z & HR & HZ & Hn).
    exists (- Z). split; [| split; [exact HZ | exact Hn]].
    right. right. change (Zneg p) with (- Zpos p)%Z. rewrite opp_IZR. split.
    + pose proof (pow2_pos e). assert (0 < IZR (Zpos p)) by (apply IZR_lt; lia). nra.
    + exists Z. split; [| reflexivity].
      replace (- (- IZR (Zpos p) * pow2 e)) with (IZR (Zpos p) * pow2 e) by lra. exact HR.
Qed.

Lemma RoundS_repr (f : spec_float) :
  SpecFloat.valid_binary 53 1024 f = true -> fin f -> RoundS (SF2R f) (SF2R f).
Proof.
  intros V F. destruct f as [s | s | | s m e]; try contradiction.
  - right. left. split; reflexivity.
  - apply valid_canonical in V. pose proof (can_pos _ _ V) as P.
    pose proof (Round_repr _ _ V) as HR. destruct s; cbn [SF2R sgn].
    + right. right. split; [lra |]. eexists. rewrite Ropp_involutive.
      split; [exact HR | reflexivity].
    + left. split; assumption.
Qed.

Lemma IZR_cond_Zopp (s : bool) (m : Z) : IZR (cond_Zopp s m) = sgn s (IZR m).
Proof. destruct s; cbn [cond_Zopp sgn]; [apply opp_IZR | reflexivity]. Qed.

Lemma sgn_mul s a b : sgn s a * b = sgn s (a * b).
Proof. destruct s; cbn [sgn]; lra. Qed.

Lemma sgn_negb s v : sgn (negb s) v = - sgn s v.
Proof. destruct s; cbn [sgn negb]; lra. Qed.

(** On zeros and finite numbers [SFsub] is the rounded difference. *)
Lemma SFsub_fin_spec (a k : spec_float) :
  SpecFloat.valid_binary 53 1024 a = true -> SpecFloat.valid_binary 53 1024 k = true ->
  fin a -> fin k ->
  exists Z, RoundS (SF2R a - SF2R k) Z /\
            SF2R (SFsub 53 1024 a k) = Z /\
            SFsub 53 1024 a k <> S754_nan.
Proof.
  intros Va Vk Fa Fk.
  destruct a as [sa | sa | | sa ma ea]; try contradiction;
    destruct k as [sk | sk | | sk mk ek]; try contradiction.
  - exists 0. split; [right; left; cbn [SF2R]; split; lra |].
    destruct sa, sk; (split; [reflexivity | discriminate]).
  - exists (- SF2R (S754_finite sk mk ek)). split; [| split; [| discriminate]].
    + replace (SF2R (S754_zero sa) - SF2R (S754_finite sk mk ek))
        with (- SF2R (S754_finite sk mk ek)) by (cbn [SF2R]; lra).
      apply RoundS_opp, RoundS_repr; [exact Vk | exact I].
    + cbn [SFsub SF2R]. apply sgn_negb.
  - exists (SF2R (S754_finite sa ma ea)). split; [| split; [reflexivity | discriminate]].
    replace (SF2R (S754_finite sa ma ea) - SF2R (S754_zero sk))
      with (SF2R (S754_finite sa ma ea)) by (cbn [SF2R]; lra).
    apply RoundS_repr; [exact Va | exact I].
  - cbn [SFsub]. set (ez := Z.min ea ek).
    pose proof (shl_align_spec ma ea ez) as Ha.
    pose proof (shl_align_spec mk ek ez) as Hk.
    destruct (shl_align ma ea ez) as [ma' ea'].
    destruct (shl_align mk ek ez) as [mk' ek']. cbn [fst].
    destruct Ha as (Hva & Hea & _ & _). destruct Hk as (Hvk & Hek & _ & _).
    rewrite (Hea ltac:(unfold ez; lia)) in Hva.
    rewrite (Hek ltac:(unfold ez; lia)) in Hvk.
    destruct (binary_normalize_spec
                (cond_Zopp sa (Zpos ma') - cond_Zopp sk (Zpos mk')) ez false)
      as (Z & HR & HZ & Hn).
    exists Z. split; [| split; [exact HZ | exact Hn]].
    replace (SF2R (S754_finite sa ma ea) - SF2R (S754_finite sk mk ek))
      with (IZR (cond_Zopp sa (Zpos ma') - cond_Zopp sk (Zpos mk')) * pow2 ez);
      [exact HR |].
    rewrite minus_IZR, !IZR_cond_Zopp. cbn [SF2R].
    rewrite Rmult_minus_distr_r, !sgn_mul, Hva, Hvk. reflexivity.
Qed.

Lemma fin_bound (f : spec_float) :
  SpecFloat.valid_binary 53 1024 f = true -> fin f ->
  - pow2 1024 < SF2R f < pow2 1024.
Proof.
  intros V F. pose proof (pow2_pos 1024).
  destruct f as [s | s | | s m e]; try contradiction; cbn [SF2R].
  - lra.
  - apply valid_canonical in V. pose proof (can_pos _ _ V). pose proof (can_top _ _ V).
    destruct s; cbn [sgn]; lra.
Qed.

Lemma not_nan_cases (f : spec_float) :
  is_nan_sf f = false -> fin f \/ exists s, f = S754_infinity s.
Proof.
  destruct f as [s | s | | s m e]; intros H; try discriminate;
    [left; exact I | right; exists s; reflexivity | left; exact I].
Qed.

Lemma SFsub_fin_inf (a : spec_float) (s : bool) :
  fin a -> SFsub 53 1024 a (S754_infinity s) = S754_infinity (negb s).
Proof. destruct a; intros F; try contradiction; reflexivity. Qed.

Lemma SFsub_inf_fin (k : spec_float) (s : bool) :
  fin k -> SFsub 53 1024 (S754_infinity s) k = S754_infinity s.
Proof. destruct k; intros F; try contradiction; reflexivity. Qed.

Lemma SFsub_nan_r (a : spec_float) : SFsub 53 1024 a S754_nan = S754_nan.
Proof. destruct a; reflexivity. Qed.

(** Subtracting the same number keeps the order of two numbers, the
    smaller of which is not negative. *)
Lemma SFsub_mono (a1 a2 k : spec_float) :
  SpecFloat.valid_binary 53 1024 a1 = true ->
  SpecFloat.valid_binary 53 1024 a2 = true ->
  SpecFloat.valid_binary 53 1024 k = true ->
  is_nan_sf a1 = false -> is_nan_sf a2 = false ->
  0 <= SF2R a2 -> SF2R a2 <= SF2R a1 ->
  SFsub 53 1024 a1 k <> S754_nan ->
  SFsub 53 1024 a2 k <> S754_nan /\
  SF2R (SFsub 53 1024 a2 k) <= SF2R (SFsub 53 1024 a1 k).
Proof.
  intros V1 V2 Vk N1 N2 P2 Hle Hn.
  assert (B : pow2 1024 < pow2 2000) by (apply pow2_lt; lia).
  pose proof (pow2_pos 1024) as B0.
  assert (Nk : is_nan_sf k = false).
  { destruct k; try reflexivity. rewrite SFsub_nan_r in Hn. contradiction. }
  destruct (not_nan_cases _ N1) as [F1 | [s1 ->]];
    destruct (not_nan_cases _ N2) as [F2 | [s2 ->]];
    destruct (not_nan_cases _ Nk) as [Fk | [sk ->]].
  - destruct (SFsub_fin_spec a1 k V1 Vk F1 Fk) as (Z1 & R1 & E1 & _).
    destruct (SFsub_fin_spec a2 k V2 Vk F2 Fk) as (Z2 & R2 & E2 & M2).
    split; [exact M2 |]. rewrite E1, E2.
    apply (RoundS_mono (SF2R a1 - SF2R k) (SF2R a2 - SF2R k)); [lra | exact R2 | exact R1].
  - rewrite !SFsub_fin_inf by assumption. split; [discriminate | lra].
  - pose proof (fin_bound a1 V1 F1). destruct s2; cbn [SF2R sgn] in *; lra.
  - pose proof (fin_bound a1 V1 F1). destruct s2; cbn [SF2R sgn] in *; lra.
  - destruct s1; [cbn [SF2R sgn] in *; lra |].
    rewrite SFsub_inf_fin by exact Fk.
    destruct (SFsub_fin_spec a2 k V2 Vk F2 Fk) as (Z2 & R2 & E2 & M2).
    split; [exact M2 |]. rewrite E2. apply RoundS_not_top in R2. cbn [SF2R sgn]. lra.
  - destruct s1; [cbn [SF2R sgn] in *; lra |].
    destruct sk; [| exfalso; apply Hn; reflexivity].
    rewrite SFsub_fin_inf by exact F2. split; [discriminate |]. cbn [SFsub SF2R sgn negb]. lra.
  - destruct s1; [cbn [SF2R sgn] in *; lra |].
    destruct s2; [cbn [SF2R sgn] in *; lra |].
    split; [exact Hn | lra].
  - destruct s1; [cbn [SF2R sgn] in *; lra |].
    destruct s2; [cbn [SF2R sgn] in *; lra |].
    split; [exact Hn | lra].
Qed.

(** A positive constant divided by a larger positive number is not
    larger. *)
Lemma SFdiv_mono (mc : positive) (ec : Z) (L1 L2 : spec_float) :
  SpecFloat.valid_binary 53 1024 L1 = true ->
  SpecFloat.valid_binary 53 1024 L2 = true ->
  SFltb (S754_zero false) L1 = true -> SFltb L1 L2 = true ->
  let A1 := SFdiv 53 1024 (S754_finite false mc ec) L1 in
  let A2 := SFdiv 53 1024 (S754_finite false mc ec) L2 in
  is_nan_sf A1 = false /\ is_nan_sf A2 = false /\
  0 <= SF2R A2 /\ SF2R A2 <= SF2R A1.
Proof.
  intros V1 V2 H0 H12 A1 A2.
  assert (Pc : 0 < IZR (Zpos mc) * pow2 ec).
  { pose proof (pow2_pos ec). assert (0 < IZR (Zpos mc)) by (apply IZR_lt; lia). nra. }
  destruct L1 as [s1 | s1 | | s1 m1 e1]; try discriminate H0.
  - destruct s1; [discriminate H0 |].
    destruct L2 as [s2 | [] | | s2 m2 e2]; discriminate H12.
  - destruct s1; [discriminate H0 |].
    pose proof (valid_canonical _ _ _ V1) as C1. pose proof (can_pos _ _ C1) as P1.
    destruct (SFdiv_pos_spec mc ec m1 e1) as (Z1 & R1 & E1 & M1). fold A1 in E1, M1.
    assert (Px1 : 0 < IZR (Zpos mc) * pow2 ec / (IZR (Zpos m1) * pow2 e1))
      by (apply Rdiv_lt_0_compat; assumption).
    pose proof (Round_nonneg _ _ Px1 R1) as Z1pos.
    assert (N1 : is_nan_sf A1 = false) by (destruct A1; try reflexivity; contradiction).
    destruct L2 as [s2 | s2 | | s2 m2 e2]; try discriminate H12.
    + destruct s2; [discriminate H12 |].
      split; [exact N1 |]. split; [reflexivity |].
      split; [cbn; lra | rewrite E1; cbn; exact Z1pos].
    + destruct s2; [discriminate H12 |].
      pose proof (valid_canonical _ _ _ V2) as C2. pose proof (can_pos _ _ C2) as P2.
      destruct (SFdiv_pos_spec mc ec m2 e2) as (Z2 & R2 & E2 & M2). fold A2 in E2, M2.
      assert (Px2 : 0 < IZR (Zpos mc) * pow2 ec / (IZR (Zpos m2) * pow2 e2))
        by (apply Rdiv_lt_0_compat; assumption).
      assert (N2 : is_nan_sf A2 = false) by (destruct A2; try reflexivity; contradiction).
      assert (Hlt : IZR (Zpos m1) * pow2 e1 < IZR (Zpos m2) * pow2 e2).
      { pose proof (SFcompare_spec _ _ V1 V2 eq_refl eq_refl) as Hc.
        unfold SFltb in H12.
        destruct (SFcompare (S754_finite false m1 e1) (S754_finite false m2 e2))
          as [[] |]; try discriminate H12.
        exact Hc. }
      split; [exact N1 |]. split; [exact N2 |]. rewrite E2. split.
      * exact (Round_nonneg _ _ Px2 R2).
      * rewrite E1. refine (Round_mono _ _ _ _ Px2 _ R2 R1).
        unfold Rdiv. apply Rmult_le_compat_l; [lra |].
        apply Rinv_le_contravar; lra.
Qed.

(** ** From the specification to the primitive floats *)

Lemma is_nan_Prim2SF (f : float) :
  PrimFloat.is_nan f = false -> is_nan_sf (Prim2SF f) = false.
Proof.
  unfold PrimFloat.is_nan. rewrite FloatAxioms.eqb_spec. unfold SFeqb.
  destruct (Prim2SF f); try reflexivity. cbn. discriminate.
Qed.

Lemma leb_of_values (x y : float) :
  is_nan_sf (Prim2SF x) = false -> is_nan_sf (Prim2SF y) = false ->
  SF2R (Prim2SF x) <= SF2R (Prim2SF y) -> PrimFloat.leb x y = true.
Proof.
  intros Nx Ny H. rewrite FloatAxioms.leb_spec. unfold SFleb.
  pose proof (SFcompare_spec _ _ (FloatAxioms.Prim2SF_valid x)
                (FloatAxioms.Prim2SF_valid y) Nx Ny) as Hc.
  destruct (SFcompare (Prim2SF x) (Prim2SF y)) as [[] |];
    [reflexivity | reflexivity | lra | contradiction].
Qed.

(** In binary64 the transform of lines 227-228 is not increasing. *)
Lemma frequency_non_increasing : non_increasing_binary64.
Proof.
  intros xmax xmin l1 l2 H0 H12 Hn.
  unfold ltb, float_ordered in H0, H12.
  cbv [Laser.frequency fsub fdiv fadd of_Z float_arith] in *.
  set (K := PrimFloat.div (PrimFloat.of_uint63 (Uint63.of_Z 600000000000000000))
                          (PrimFloat.add xmax xmin)) in *.
  set (C := PrimFloat.of_uint63 (Uint63.of_Z 300000000000000000)) in *.
  assert (HC : Prim2SF C = S754_finite false 4687500000000000 6)
    by (vm_compute; reflexivity).
  rewrite FloatAxioms.ltb_spec in H0, H12.
  change (Prim2SF (PrimFloat.of_uint63 (Uint63.of_Z 0))) with (S754_zero false) in H0.
  pose proof (SFdiv_mono 4687500000000000 6 _ _
                (FloatAxioms.Prim2SF_valid l1) (FloatAxioms.Prim2SF_valid l2) H0 H12) as HA.
  cbn zeta in HA. rewrite <- HC in HA.
  change (SFdiv 53 1024) with SF64div in HA. rewrite <- !FloatAxioms.div_spec in HA.
  destruct HA as (N1 & N2 & P2 & Hle).
  apply is_nan_Prim2SF in Hn. rewrite FloatAxioms.sub_spec in Hn.
  assert (Hn' : SFsub 53 1024 (Prim2SF (C / l1)) (Prim2SF K) <> S754_nan).
  { intros E. change (SF64sub (Prim2SF (C / l1)) (Prim2SF K))
      with (SFsub 53 1024 (Prim2SF (C / l1)) (Prim2SF K)) in Hn.
    rewrite E in Hn. discriminate. }
  destruct (SFsub_mono _ _ _ (FloatAxioms.Prim2SF_valid (C / l1))
              (FloatAxioms.Prim2SF_valid (C / l2))
              (FloatAxioms.Prim2SF_valid K) N1 N2 P2 Hle Hn') as [M2 Hs].
  change (SFsub 53 1024) with SF64sub in M2, Hs.
  rewrite <- (FloatAxioms.sub_spec (C / l2) K) in M2, Hs.
  rewrite <- (FloatAxioms.sub_spec (C / l1) K) in Hs.
  apply leb_of_values; [| | exact Hs].
  - destruct (Prim2SF (C / l2 - K)); try reflexivity. contradiction.
  - rewrite FloatAxioms.sub_spec. exact Hn.
Qed.
End Binary64Facts.

(** ** Laser-scanning GUI: the frequency axis *)
Section Frequency.
#[local] Open Scope Q_scope.

Lemma frequency_Q (xmax xmin x : Q) :
  Laser.frequency xmax xmin x
  = 300000000000000000 / x - 600000000000000000 / (xmax + xmin).
Proof. reflexivity. Qed.

Lemma frequency_decreasing_Q (xmax xmin l1 l2 : Q) :
  0 < l1 -> l1 < l2 -> Laser.frequency xmax xmin l2 < Laser.frequency xmax xmin l1.
Proof.
  intros H1 H12. rewrite !frequency_Q. unfold Qminus.
  apply Qplus_lt_l. unfold Qdiv. apply Qmult_lt_l; [reflexivity |].
  assert (H2 : 0 < l2) by (eapply Qlt_trans; eassumption).
  exact (proj1 (Qinv_lt_contravar l1 l2 H1 H2) H12).
Qed.

End Frequency.

(** After [updateData] the x data of the third curve is the transform
    applied to each element of the logic's [histogram_axis]. *)
Lemma updateData_frequency_axis (F : Type) (HA : Arith F)
    (format_float : string -> F -> string) (w : Laser.world F) :
  let l := Laser._scanning_logic w in
  xData (Laser._curve3 (Laser.gui (final (Laser.updateData format_float w))))
  = map (Laser.frequency (Laser.get_max_wavelength l) (Laser.get_min_wavelength l))
        (Laser.histogram_axis l).
Proof.
  unfold Laser.updateData, Laser.query, Laser.update_gui. run_handler. cbn.
  destruct (String.eqb (Laser.getState (Laser._scanning_logic w)) "running");
    reflexivity.
Qed.

(** C1, as the code has it.  Read in exact arithmetic, the expression
    of lines 227-228 is strictly decreasing in the wavelength; computed
    in binary64, as numpy does, it is not increasing: a longer
    wavelength is never sent to a higher frequency, whenever the
    frequency of the shorter one is a number; and whatever the
    arithmetic, after [updateData] the x data of the third curve is that
    expression applied to each element of the logic's [histogram_axis],
    with the logic's maximum and minimum wavelength as bounds. *)
Theorem frequency_axis_decreasing :
  strictly_decreasing Q /\
  non_increasing_binary64 /\
  (forall (F : Type) (HA : Arith F) (format_float : string -> F -> string)
          (w : Laser.world F),
      let l := Laser._scanning_logic w in
      xData (Laser._curve3 (Laser.gui (final (Laser.updateData format_float w))))
      = map (fun x => fsub (fdiv (of_Z 300000000000000000) x)
                           (fdiv (of_Z 600000000000000000)
                                 (fadd (Laser.get_max_wavelength l)
                                       (Laser.get_min_wavelength l))))
            (Laser.histogram_axis l)).
Proof.
  split; [| split].
  - intros xmax xmin l1 l2 H1 H12 _. apply Qltb_lt. apply Qltb_lt in H1, H12.
    apply frequency_decreasing_Q; assumption.
  - exact frequency_non_increasing.
  - intros F HA format_float w. apply updateData_frequency_axis.
Qed.

(** 632 nm lies above 633 nm on the frequency axis, in exact arithmetic
    and, not below it, in binary64. *)
Lemma frequency_axis_decreasing_witness :
  ltb (Laser.frequency 636%Q 630%Q 633%Q) (Laser.frequency 636%Q 630%Q 632%Q) = true /\
  PrimFloat.leb (Laser.frequency 636%float 630%float 633%float)
                (Laser.frequency 636%float 630%float 632%float) = true.
Proof.
  destruct frequency_axis_decreasing as (HQ & Hfloat & _). split.
  - apply HQ; vm_compute; reflexivity.
  - apply Hfloat; vm_compute; reflexivity.
Defined.

(** C1 as stated does not hold for the numbers the code computes with.
    In binary64, 450 nm and the next float above it are sent to the same
    frequency (with bounds 600 and 400 nm): the quotient [3e17 / x] is
    rounded to the same float for both. *)
Lemma frequency_not_strict_binary64 :
  let l1 := 450%float in
  let l2 := next_up 450%float in
  ltb 0%float l1 = true /\ ltb l1 l2 = true /\
  ltb 0%float (fadd 600 400)%float = true /\
  Laser.frequency 600%float 400%float l1 = Laser.frequency 600%float 400%float l2 /\
  ~ strictly_decreasing float.
Proof.
  intros l1 l2.
  assert (Heq : Laser.frequency 600%float 400%float l1
                = Laser.frequency 600%float 400%float l2) by (vm_compute; reflexivity).
  repeat (split; [first [exact Heq | vm_compute; reflexivity] |]).
  intros H. specialize (H 600%float 400%float l1 l2).
  rewrite Heq in H.
  assert (Hirr : ltb (Laser.frequency 600%float 400%float l2)
                     (Laser.frequency 600%float 400%float l2) = false)
    by (vm_compute; reflexivity).
  rewrite Hirr in H. discriminate H; vm_compute; reflexivity.
Qed.

(** * The rest of the two modules: properties *)

Lemma bound_within_Q (lo hi v : Q) :
  (lo <= hi)%Q -> (lo <= bound lo hi v <= hi)%Q.
Proof.
  intros Hle. unfold bound, ltb, Q_ordered.
  destruct (Qltb v lo) eqn:E1.
  - destruct (Qltb hi lo) eqn:E2.
    + apply Qltb_lt in E2. exfalso. apply (Qlt_not_le _ _ E2 Hle).
    + split; [apply Qle_refl | exact Hle].
  - apply Qltb_ge in E1. destruct (Qltb hi v) eqn:E2.
    + split; [exact Hle | apply Qle_refl].
    + apply Qltb_ge in E2. split; assumption.
Qed.

Lemma bound_within_Z (lo hi v : Z) : lo <= hi -> lo <= bound lo hi v <= hi.
Proof.
  intros Hle. unfold bound, ltb, Z_ordered.
  destruct (Z.ltb_spec v lo); destruct (Z.ltb_spec hi lo); try lia;
    destruct (Z.ltb_spec hi v); lia.
Qed.

Section Limits.
Import Laser.
#[local] Open Scope Q_scope.
Variable format_float : string -> Q -> string.
Variable logic_exec : command Q -> LaserScanningLogic Q -> LaserScanningLogic Q.

Lemma initUI_values (w : world Q) :
  let l := _scanning_logic w in
  let g := gui (final (initUI w)) in
  _bins_display g
    = {| minimum := 1%Z; maximum := 10000%Z; value := bound 1%Z 10000%Z (get_bins l);
         signalsBlocked := false |} /\
  _min_wavelength_display g
    = {| spin := {| minimum := 1; maximum := 1000000;
                    value := bound 1 1000000 (round_decimals 6 (get_min_wavelength l));
                    signalsBlocked := false |};
         decimals := 6 |} /\
  _max_wavelength_display g
    = {| spin := {| minimum := 1; maximum := 10000;
                    value := bound 1 10000 (round_decimals 6 (get_max_wavelength l));
                    signalsBlocked := false |};
         decimals := 6 |}.
Proof. repeat split. Qed.

Lemma initUI_within_limits (w : world Q) : within_limits (final (initUI w)).
Proof.
  destruct (initUI_values w) as (Hb & Hmin & Hmax).
  unfold within_limits. cbv zeta in *. rewrite Hb, Hmin, Hmax. cbn [minimum maximum value spin].
  split; [split; [reflexivity | split; [reflexivity | apply bound_within_Z; lia]] |].
  split; apply bound_within_Q; discriminate.
Qed.

Lemma run_keeps_within_limits (o : operation) (w : world Q) :
  o <> op_initUI ->
  input_ranges w = ((1, 1000000, 6%nat), (1, 10000, 6%nat)) ->
  within_limits w -> within_limits (final (run format_float logic_exec o w)).
Proof.
  intros Ho Hr ((Hb1 & Hb2 & Hb) & Hmin & Hmax).
  unfold input_ranges in Hr. injection Hr as Hlo1 Hhi1 Hd1 Hlo2 Hhi2 Hd2.
  unfold within_limits.
  destruct o; try congruence; do 2 laser_exec.
  all: try (destruct (String.eqb _ _); cbn).
  all: try (split; [split; [assumption | split; assumption] | split; assumption]).
  all: rewrite ?Hlo1, ?Hhi1, ?Hlo2, ?Hhi2, ?Hb1, ?Hb2.
  all: split; [split; [reflexivity | split; [reflexivity |]] | split];
    first [assumption | apply bound_within_Z; lia | apply bound_within_Q; discriminate].
Qed.

Lemma reachable_within_limits (w : world Q) :
  reachable format_float logic_exec w -> within_limits w.
Proof.
  induction 1 as [w | w o Hw IH | w l s c Hw IH].
  - apply initUI_within_limits.
  - destruct (operation_eq_initUI o) as [-> | Ho].
    + apply initUI_within_limits.
    + apply run_keeps_within_limits; [exact Ho | | exact IH].
      apply (reachable_input_ranges format_float logic_exec). exact Hw.
  - exact IH.
Qed.

(** X1.  Whatever the user has typed and whatever the logic has reported, a
    recalculation request carries a number of bins between 1 and 10000,
    a minimum wavelength between 1 and 1e6 and a maximum wavelength
    between 1 and 1e4: the values of the three inputs, which never leave
    the ranges [initUI] gave them.  The request is the only event of the
    run, and the GUI is not changed by it. *)
Theorem recalculate_histogram_within_limits (w : world Q) :
  reachable format_float logic_exec w ->
  let o := recalculate_histogram logic_exec w in
  exists bins xmin xmax,
    o = Ok tt (set_logic (logic_exec (Logic.recalculate_histogram bins xmin xmax)
                            (_scanning_logic w)) w)
           [Command (Logic.recalculate_histogram bins xmin xmax)] /\
    bins = value (_bins_display (gui w)) /\
    xmin = value (spin (_min_wavelength_display (gui w))) /\
    xmax = value (spin (_max_wavelength_display (gui w))) /\
    (1 <= bins <= 10000)%Z /\ 1 <= xmin <= 1000000 /\ 1 <= xmax <= 10000.
Proof.
  intros Hw o. destruct (reachable_within_limits w Hw) as ((_ & _ & Hb) & Hmin & Hmax).
  eexists _, _, _. split; [reflexivity |].
  repeat (split; [reflexivity |]). split; [exact Hb |]. split; [exact Hmin | exact Hmax].
Qed.


(** X3.  Activation followed by a recalculation hands the logic back the
    parameters it already has, when they fit the inputs: a number of
    bins within 1 .. 10000 and wavelength bounds within 1 .. 1e6 and
    1 .. 1e4 that have at most six decimals. *)
Theorem activation_round_trip (w : world Q) :
  let l := _scanning_logic w in
  (1 <= get_bins l <= 10000)%Z ->
  1 <= get_min_wavelength l <= 1000000 ->
  1 <= get_max_wavelength l <= 10000 ->
  round_decimals 6 (get_min_wavelength l) == get_min_wavelength l ->
  round_decimals 6 (get_max_wavelength l) == get_max_wavelength l ->
  exists xmin xmax,
    events (recalculate_histogram logic_exec (final (initUI w)))
    = [Command (Logic.recalculate_histogram (get_bins l) xmin xmax)] /\
    xmin == get_min_wavelength l /\ xmax == get_max_wavelength l.
Proof.
  intros l Hb [Hlo1 Hhi1] [Hlo2 Hhi2] Hr1 Hr2.
  destruct (initUI_values w) as (Eb & Emin & Emax). fold l in Eb, Emin, Emax.
  cbv zeta in Eb, Emin, Emax.
  exists (value (spin (_min_wavelength_display (gui (final (initUI w)))))),
         (value (spin (_max_wavelength_display (gui (final (initUI w)))))).
  split.
  - replace (get_bins l) with (value (_bins_display (gui (final (initUI w))))); [reflexivity |].
    rewrite Eb. cbn [value]. apply bound_in_range_Z; lia.
  - rewrite Emin, Emax. cbn [value spin].
    split; (rewrite bound_in_range; [assumption | |]); rewrite ?Hr1, ?Hr2; assumption.
Qed.

(** X4.  A second auto range with an unchanged data range changes no input,
    emits no [valueChanged] and asks for the same recalculation. *)
Theorem set_auto_range_twice (w : world Q) :
  let o1 := set_auto_range logic_exec w in
  intern_xmin (_scanning_logic (final o1)) = intern_xmin (_scanning_logic w) ->
  intern_xmax (_scanning_logic (final o1)) = intern_xmax (_scanning_logic w) ->
  let o2 := set_auto_range logic_exec (final o1) in
  returned o2 = true /\
  gui (final o2) = gui (final o1) /\
  emissions (events o2) = [] /\
  commands (events o2) = commands (events o1).
Proof.
  intros o1 Hmin Hmax o2. unfold o2.
  assert (Hirr : forall v : Q, changed v v = false).
  { intros v. unfold changed, ltb, Q_ordered.
    assert (Qltb v v = false) as -> by (apply Qltb_ge, Qle_refl). reflexivity. }
  revert Hmin Hmax. unfold o1. do 2 laser_exec. intros Hmin Hmax.
  do 2 laser_exec. rewrite Hmin, Hmax. rewrite !Hirr. cbn.
  split; [reflexivity |]. split; [destruct w as [[] ? ? ?]; reflexivity |].
  split; [reflexivity |].
  repeat match goal with
         | |- context [if ?b then [_] else []] => destruct b
         end; reflexivity.
Qed.

End Limits.

(** After typing 0 bins and a maximum of 20000 nm the request carries 1
    bin and 10000 nm. *)
Lemma recalculate_histogram_within_limits_witness :
  let step o w := final (Laser.run Sample.format_float Sample.logic_exec o w) in
  let w := step (Laser.op_edit_max_wavelength 20000%Q)
             (step (Laser.op_edit_bins 0) (Sample.activated "idle" 630 636)) in
  events (Laser.recalculate_histogram Sample.logic_exec w)
  = [Command (Logic.recalculate_histogram 1 630%Q 10000%Q)].
Proof.
  intros step w.
  assert (Hw : Laser.reachable Sample.format_float Sample.logic_exec w)
    by (repeat apply Laser.reach_operation; apply Laser.reach_activate).
  destruct (recalculate_histogram_within_limits Sample.format_float Sample.logic_exec w Hw)
    as (bins & xmin & xmax & Ho & -> & -> & -> & _).
  rewrite Ho. vm_compute. reflexivity.
Defined.

(** The sample logic's 200 bins and 630 .. 636 nm come back unchanged. *)
Lemma activation_round_trip_witness :
  let w := {| Laser.gui := Sample.blank;
              Laser._scanning_logic := Sample.logic "idle" 630 636;
              Laser._save_logic := Sample.savelogic; Laser.strftime := Sample.clock |} in
  exists xmin xmax,
    events (Laser.recalculate_histogram Sample.logic_exec (final (Laser.initUI w)))
    = [Command (Logic.recalculate_histogram 200 xmin xmax)] /\
    (xmin == 630)%Q /\ (xmax == 636)%Q.
Proof.
  intros w.
  apply (activation_round_trip Sample.logic_exec w); vm_compute; try reflexivity;
    split; discriminate.
Defined.

(** The sample logic keeps its data range over a recalculation. *)
Lemma set_auto_range_twice_witness :
  let w := Sample.activated "idle" 631 635 in
  let o1 := Laser.set_auto_range Sample.logic_exec w in
  let o2 := Laser.set_auto_range Sample.logic_exec (final o1) in
  emissions (events o1) = [Emit "_min_wavelength_display" "valueChanged";
                           Emit "_max_wavelength_display" "valueChanged"] /\
  emissions (events o2) = [].
Proof.
  intros w o1 o2. split; [vm_compute; reflexivity |].
  apply (set_auto_range_twice Sample.logic_exec w); reflexivity.
Defined.

Section DataUpdate.
Import Laser.
Context {F : Type} `{Arith F}.
Variable format_float : string -> F -> string.
Variable logic_exec : command F -> LaserScanningLogic F -> LaserScanningLogic F.

End DataUpdate.

Section Position.
Import Confocal.




End Position.



Section Constraints.
Import Confocal.

Lemma constrain_all_cons {W} (f : AxisConstraints -> W -> W) k c items (m : gmap string W) :
  constrain_all f ((k, c) :: items) m = constrain_all f items (alter (f c) k m).
Proof. reflexivity. Qed.

Lemma constrain_all_is_Some {W} (f : AxisConstraints -> W -> W) items (m : gmap string W) k :
  is_Some (constrain_all f items m !! k) <-> is_Some (m !! k).
Proof.
  revert m. induction items as [| [k' c] items IH]; intros m; [reflexivity |].
  rewrite constrain_all_cons, IH, lookup_alter. case_decide; [subst k' |]; [| reflexivity].
  destruct (m !! k); cbn; split; intros [? ?]; try discriminate; eexists; reflexivity.
Qed.








End Constraints.

Section Frames.
Import Confocal.

Lemma paintable_keys (w w' : world) (d : ScanData) :
  plot_keys w' = plot_keys w -> paintable w d -> paintable w' d.
Proof.
  unfold plot_keys, paintable. intros [= H1 H2 H3 H4].
  destruct (axes_names d) as [| a0 [| a1 [| a2 l]]]; try exact (fun H => H);
    rewrite <- !elem_of_dom, ?H1, ?H2, ?H3, ?H4; exact (fun H => H).
Qed.

(** One paintable frame: the loop body returns, the frame is shown, the
    keys of the dicts stay. *)
Lemma show_frame_paints (k : option string) (d : ScanData) (w : world) :
  paintable w d ->
  exists k' w', show_frame k d w = Ok k' w' [] /\
                plot_keys w' = plot_keys w /\ outside_plots w' = outside_plots w /\
                shows w' d.
Proof.
  unfold paintable, shows, plot_keys, show_frame, getitem, update_gui.
  destruct (axes_names d) as [| a0 [| a1 [| a2 l]]].
  - intros _. exists k, w. repeat split.
  - intros [Hplot [dock Hdock]]. run_handler.
    destruct (scan d) as [img |]; cbn.
    + destruct Hplot as [plot Hplot]; [eexists; reflexivity |]. rewrite Hplot. cbn.
      rewrite Hdock. cbn. eexists _, _. split; [reflexivity |]. cbn.
      rewrite !dom_insert_lookup_L by (eexists; eassumption).
      split; [reflexivity |]. split; [reflexivity |].
      rewrite !lookup_insert_eq. split; [intros ? [= <-]; reflexivity | reflexivity].
    + rewrite Hdock. cbn. eexists _, _. split; [reflexivity |]. cbn.
      rewrite !dom_insert_lookup_L by (eexists; eassumption).
      split; [reflexivity |]. split; [reflexivity |].
      rewrite !lookup_insert_eq. split; [intros ? [=] | reflexivity].
  - intros ([img Himg] & [item Hitem] & [dock Hdock]). run_handler.
    rewrite Himg. cbn. rewrite Hitem. cbn. rewrite lookup_insert_eq. cbn.
    rewrite Hdock. cbn. eexists _, _. split; [reflexivity |]. cbn.
    rewrite insert_insert_eq.
    rewrite !dom_insert_lookup_L by (eexists; eassumption).
    split; [reflexivity |]. split; [reflexivity |].
    intros img' [= <-]. rewrite !lookup_insert_eq. split; reflexivity.
  - intros _. exists k, w. repeat split.
Qed.

Lemma show_frames_paint (frames : list ScanData) :
  forall k w,
    Forall (paintable w) frames ->
    exists w', show_frames k frames w = Ok tt w' [] /\
               plot_keys w' = plot_keys w /\ outside_plots w' = outside_plots w /\
               forall pre d, frames = (pre ++ [d])%list -> shows w' d.
Proof.
  induction frames as [| d frames IH]; intros k w Hall.
  - exists w. repeat split. intros [| ? ?] ? [=].
  - apply Forall_cons in Hall as [Hd Hall].
    destruct (show_frame_paints k d w Hd) as (k1 & w1 & Hrun1 & Hk1 & Ho1 & Hs1).
    destruct (IH k1 w1) as (w2 & Hrun2 & Hk2 & Ho2 & Hs2).
    { eapply Forall_impl; [exact Hall |]. intros d'. apply paintable_keys. exact Hk1. }
    exists w2. split.
    + cbn [show_frames]. run_handler. rewrite Hrun1, Hrun2. reflexivity.
    + split; [congruence |]. split; [congruence |].
      intros pre d' Heq. destruct pre as [| p pre].
      * cbn in Heq. injection Heq as <- ->. cbn in Hrun2. injection Hrun2 as <-. exact Hs1.
      * cbn in Heq. injection Heq as _ ->. eapply Hs2. reflexivity.
Qed.

(** X10.  Frames that can all be painted: [scan_data_updated] returns without
    a command or a signal, the four plot dicts keep their keys, nothing
    outside the plots is touched, and the last frame is on display: its
    scan as the image or the plot data, its extent as the image extent
    and its unit on the colour bar or on the left axis. *)
Theorem scan_data_updated_paints (frames : list ScanData) (w : world) :
  Forall (paintable w) frames ->
  let o := scan_data_updated (Some frames) w in
  o = Ok tt (final o) [] /\
  plot_keys (final o) = plot_keys w /\
  outside_plots (final o) = outside_plots w /\
  forall pre d, frames = (pre ++ [d])%list -> shows (final o) d.
Proof.
  intros Hall o.
  destruct (show_frames_paint frames None w Hall) as (w' & Hrun & Hk & Ho & Hs).
  assert (Hrun' : o = Ok tt w' []).
  { unfold o, scan_data_updated. run_handler. rewrite Hrun. reflexivity. }
  rewrite Hrun'. cbn [final]. repeat split; assumption.
Qed.

(** X11.  Frames with neither one nor two axes are skipped: a call with only
    such frames, or with no frame at all, does nothing. *)
Theorem scan_data_updated_skips_other_axes (frames : list ScanData) (w : world) :
  Forall (fun d => length (axes_names d) <> 1%nat /\ length (axes_names d) <> 2%nat) frames ->
  scan_data_updated (Some frames) w = Ok tt w [].
Proof.
  intros Hall. unfold scan_data_updated. run_handler.
  assert (H : forall k, show_frames k frames w = Ok tt w []).
  { induction Hall as [| d frames [H1 H2] _ IH]; intros k; [reflexivity |].
    cbn [show_frames]. run_handler.
    assert (Hd : show_frame k d w = Ok k w []).
    { unfold show_frame. destruct (axes_names d) as [| a0 [| a1 [| a2 l]]];
        cbn in H1, H2; try reflexivity; congruence. }
    rewrite Hd, IH. reflexivity. }
  rewrite H. reflexivity.
Qed.

(** X12.  A frame with two axes and a scan for which there is no image: the
    call raises [KeyError] with the key of the two axes; the frames
    before it have been painted, this one and the later ones not. *)
Theorem scan_data_updated_unknown_key
        (pre : list ScanData) (d : ScanData) (post : list ScanData) (w : world)
        (a0 a1 : string) (img : array) :
  Forall (paintable w) pre ->
  axes_names d = [a0; a1] -> scan d = Some img ->
  scan_2d_images (gui w) !! key_of a0 a1 = None ->
  let before := scan_data_updated (Some pre) w in
  let o := scan_data_updated (Some (pre ++ d :: post)%list) w in
  returned before = true /\
  o = Raise (KeyError (key_of a0 a1)) (final before) [].
Proof.
  intros Hpre Haxes Hscan Hnone before o.
  assert (H : forall k w0,
             Forall (paintable w0) pre ->
             scan_2d_images (gui w0) !! key_of a0 a1 = None ->
             exists w1, show_frames k pre w0 = Ok tt w1 [] /\
                        show_frames k (pre ++ d :: post) w0
                        = Raise (KeyError (key_of a0 a1)) w1 []).
  { clear - Haxes Hscan.
    induction pre as [| p pre IH]; intros k w0 Hall Hnone.
    - exists w0. split; [reflexivity |]. cbn [app show_frames]. run_handler.
      unfold show_frame, getitem. rewrite Haxes, Hscan. run_handler. rewrite Hnone.
      reflexivity.
    - apply Forall_cons in Hall as [Hp Hall].
      destruct (show_frame_paints k p w0 Hp) as (k1 & w1 & Hrun1 & Hk1 & _ & _).
      destruct (IH k1 w1) as (w2 & Hrun2 & Hfail).
      { eapply Forall_impl; [exact Hall |]. intros d'. apply paintable_keys. exact Hk1. }
      { apply not_elem_of_dom. apply not_elem_of_dom in Hnone.
        unfold plot_keys in Hk1. injection Hk1 as -> _ _ _. exact Hnone. }
      exists w2. cbn [app show_frames]. run_handler. rewrite Hrun1, Hrun2, Hfail.
      split; reflexivity. }
  destruct (H None w Hpre Hnone) as (w1 & Hrun & Hfail).
  unfold before, o, scan_data_updated. run_handler. rewrite Hrun, Hfail.
  split; reflexivity.
Qed.

End Frames.

Section Keys.
Import Confocal.
Import Stdlib.Strings.Ascii.

Lemma append_comma_inj (a a' b b' : string) :
  comma_free a = true -> comma_free a' = true ->
  String.append a (String ","%char b) = String.append a' (String ","%char b') ->
  a = a' /\ b = b'.
Proof.
  revert a'. induction a as [| c a IH]; intros [| c' a'] Ha Ha' Heq; cbn in *.
  - injection Heq as ->. split; reflexivity.
  - injection Heq as <- _. apply andb_true_iff in Ha' as [Hc _].
    rewrite Ascii.eqb_refl in Hc. discriminate.
  - injection Heq as -> _. apply andb_true_iff in Ha as [Hc _].
    rewrite Ascii.eqb_refl in Hc. discriminate.
  - injection Heq as -> Heq. apply andb_true_iff in Ha as [_ Ha].
    apply andb_true_iff in Ha' as [_ Ha'].
    destruct (IH a' Ha Ha' Heq) as [-> ->]. split; reflexivity.
Qed.

Lemma append_assoc (a b c : string) :
  String.append (String.append a b) c = String.append a (String.append b c).
Proof.
  induction a as [| x a IH]; [reflexivity |].
  change (String x (String.append (String.append a b) c)
          = String x (String.append a (String.append b c))).
  rewrite IH. reflexivity.
Qed.

(** X13.  The dict key of a two-axis scan tells the two axes apart as long as
    the first axis name has no comma: two pairs with the same key are
    the same pair.  A comma in an axis name breaks this: the pairs
    (a,b ; c) and (a ; b,c) share a key, hence an image and a dock
    widget. *)
Theorem key_of_injective :
  (forall a0 a1 b0 b1 : string,
      comma_free a0 = true -> comma_free b0 = true ->
      key_of a0 a1 = key_of b0 b1 -> a0 = b0 /\ a1 = b1) /\
  (forall a b c : string, key_of (key_of a b) c = key_of a (key_of b c)).
Proof.
  split.
  - intros a0 a1 b0 b1 Ha Hb. unfold key_of. cbn [String.append].
    apply append_comma_inj; assumption.
  - intros a b c. unfold key_of. rewrite !append_assoc. reflexivity.
Qed.
End Keys.

(** The scans x,y and x,z have different keys; the scans (a,b ; c) and
    (a ; b,c) have the same. *)
Lemma key_of_injective_witness :
  comma_free "x" = true /\
  Confocal.key_of "x" "y" <> Confocal.key_of "x" "z" /\
  Confocal.key_of "a,b" "c" = Confocal.key_of "a" "b,c".
Proof.
  destruct key_of_injective as [Hinj Hassoc].
  split; [reflexivity |]. split.
  - intros H. destruct (Hinj "x" "y" "x" "z" eq_refl eq_refl H) as [_ Hyz].
    discriminate Hyz.
  - exact (Hassoc "a" "b" "c").
Defined.

Section SettingsError.
Import Confocal.

End SettingsError.

Section HexFacts.
Import Hex.

Lemma fromhex_byte (x : Byte.byte) (s : string) :
  fromhex (String (hex_digit (Byte.to_N x / 16))
             (String (hex_digit (Byte.to_N x mod 16)) s))
  = match fromhex s with Some b => Some (x :: b) | None => None end.
Proof. destruct x; reflexivity. Qed.

Lemma fromhex_hex (b : list Byte.byte) : fromhex (hex b) = Some b.
Proof.
  induction b as [| x b IH]; [reflexivity |].
  cbn [hex]. rewrite fromhex_byte, IH. reflexivity.
Qed.

End HexFacts.

Section Mouse.
Import Activation.
Variable tk : Toolkit.

(** X15.  A double click with the left button is accepted and flips the zoom
    action when the action is checkable, so that a second such click
    brings the window back to where it was; on an action that is not
    checkable the click is accepted and changes nothing.  Any other
    button is left to [QMainWindow]. *)
Theorem mouseDoubleClickEvent_toggles_zoom (event : QMouseEvent) (mw : MainWindow) :
  let zoom := action_utility_zoom mw in
  let r := mouseDoubleClickEvent tk event mw in
  (button event = LeftButton ->
     accepted (fst r) = true /\ ops (snd r) = ops mw /\
     (checkable zoom = true ->
        checked (action_utility_zoom (snd r)) = negb (checked zoom) /\
        forall event', button event' = LeftButton ->
          snd (mouseDoubleClickEvent tk event' (snd r)) = mw) /\
     (checkable zoom = false -> snd r = mw)) /\
  (button event <> LeftButton -> r = super_mouseDoubleClickEvent tk event mw).
Proof.
  intros zoom r. unfold r, mouseDoubleClickEvent. split.
  - intros ->. cbn. split; [reflexivity |]. split; [reflexivity |].
    unfold zoom, setChecked. destruct mw as [[cb ch] o]. cbn. split.
    + intros ->. cbn. split; [reflexivity |]. intros event' ->. cbn.
      rewrite negb_involutive. reflexivity.
    + intros ->. reflexivity.
  - intros Hb. destruct (button event); [contradiction | reflexivity..].
Qed.
End Mouse.

Ltac method_exec :=
  cbv [Activation.window Activation.update_widgets Activation.lift
       Confocal.update_gui Confocal.query];
  run_handler; cbn.

Section AxisDicts.
Import Confocal Activation.
Variable tk : Toolkit.

Lemma enumerate_names {A} (start : Z) (l : list A) : (enumerate start l).*2 = l.
Proof.
  revert start. induction l as [| x l IH]; intros start; [reflexivity |].
  cbn. rewrite IH. reflexivity.
Qed.

Lemma enumerate_lookup {A} (start : Z) (l : list A) (i : Z) (x : A) :
  (i, x) ∈ enumerate start l <-> exists n : nat, l !! n = Some x /\ i = start + Z.of_nat n.
Proof.
  revert start. induction l as [| y l IH]; intros start; cbn [enumerate].
  - split; [intros H; inversion H | intros (n & H & _); discriminate].
  - rewrite elem_of_cons, IH. split.
    + intros [[= -> ->] | (n & Hn & ->)].
      * exists 0%nat. split; [reflexivity | lia].
      * exists (S n). split; [exact Hn | lia].
    + intros ([| n] & Hn & ->).
      * left. cbn in Hn. injection Hn as ->. f_equal. lia.
      * right. exists n. split; [exact Hn | lia].
Qed.

Lemma filled_cons {W} (f : Z -> string -> W) i k es (m : gmap string W) :
  filled f ((i, k) :: es) m = filled f es (<[k := f i k]> m).
Proof. reflexivity. Qed.

Lemma filled_is_Some {W} (f : Z -> string -> W) es (m : gmap string W) k :
  is_Some (filled f es m !! k) <-> k ∈ es.*2 \/ is_Some (m !! k).
Proof.
  revert m. induction es as [| [i k'] es IH]; intros m.
  - cbn. split; [auto | intros [H | H]; [inversion H | exact H]].
  - rewrite filled_cons, IH, fmap_cons, elem_of_cons. cbn.
    rewrite lookup_insert_is_Some. split.
    + intros [H | [H | [_ H]]]; auto.
    + intros [[-> | H] | H]; auto.
      destruct (decide (k' = k)) as [-> | Hne]; auto.
Qed.

Lemma filled_lookup_notin {W} (f : Z -> string -> W) es (m : gmap string W) k :
  k ∉ es.*2 -> filled f es m !! k = m !! k.
Proof.
  revert m. induction es as [| [i k'] es IH]; intros m Hk; [reflexivity |].
  cbn in Hk. apply not_elem_of_cons in Hk as [Hne Hk].
  rewrite filled_cons, IH, lookup_insert_ne by auto. reflexivity.
Qed.

Lemma filled_lookup_in {W} (f : Z -> string -> W) es (m : gmap string W) i k :
  NoDup es.*2 -> (i, k) ∈ es -> filled f es m !! k = Some (f i k).
Proof.
  revert m. induction es as [| [i' k'] es IH]; intros m Hnd Hin.
  - inversion Hin.
  - cbn in Hnd. apply NoDup_cons in Hnd as [Hnotin Hnd].
    rewrite filled_cons. apply elem_of_cons in Hin as [[= <- <-] | Hin].
    + rewrite filled_lookup_notin by exact Hnotin. apply lookup_insert_eq.
    + apply IH; assumption.
Qed.

Lemma method_bind_ok {A B} (m : method A) (f : A -> method B) s a s1 t1 b s2 t2 :
  m s = Ok a s1 t1 -> f a s1 = Ok b s2 t2 -> (m ≫= f) s = Ok b s2 (t1 ++ t2)%list.
Proof. intros Hm Hf. run_handler. rewrite Hm, Hf. reflexivity. Qed.

Lemma generate_axis_control_run i k s :
  exists s', generate_axis_control tk (i, k) s = Ok tt s' [] /\
             axes_widgets (confocal s')
               = <[k := axis_control tk i k]> (axes_widgets (confocal s)) /\
             outside_axes (confocal s') = outside_axes (confocal s) /\
             beside_window s' = beside_window s.
Proof.
  unfold generate_axis_control. destruct (Z.eqb i 1); method_exec;
    eexists; (split; [reflexivity |]); repeat split.
Qed.

Lemma generate_optimizer_axis_run i k s :
  exists s', generate_optimizer_axis tk (i, k) s = Ok tt s' [] /\
             optimizer_widgets (confocal s')
               = <[k := optimizer_axis tk i k]> (optimizer_widgets (confocal s)) /\
             outside_optimizer (confocal s') = outside_optimizer (confocal s) /\
             beside_window s' = beside_window s.
Proof.
  unfold generate_optimizer_axis. destruct (Z.eqb i 1); method_exec;
    eexists; (split; [reflexivity |]); repeat split.
Qed.

Lemma generate_axes_loop_run (es : list (Z * string)) :
  forall s,
    exists s', for_all (generate_axis_control tk) es s = Ok tt s' [] /\
               axes_widgets (confocal s')
                 = filled (axis_control tk) es (axes_widgets (confocal s)) /\
               outside_axes (confocal s') = outside_axes (confocal s) /\
               beside_window s' = beside_window s.
Proof.
  induction es as [| [i k] es IH]; intros s.
  - exists s. repeat split; reflexivity.
  - destruct (generate_axis_control_run i k s) as (s1 & Hrun1 & Ha1 & Ho1 & Hb1).
    destruct (IH s1) as (s2 & Hrun2 & Ha2 & Ho2 & Hb2).
    exists s2. split; [exact (method_bind_ok _ _ _ _ _ _ _ _ _ Hrun1 Hrun2) |].
    rewrite Ha2, Ha1, Ho2, Ho1, Hb2, Hb1. repeat split.
Qed.

Lemma generate_optimizer_loop_run (es : list (Z * string)) :
  forall s,
    exists s', for_all (generate_optimizer_axis tk) es s = Ok tt s' [] /\
               optimizer_widgets (confocal s')
                 = filled (optimizer_axis tk) es (optimizer_widgets (confocal s)) /\
               outside_optimizer (confocal s') = outside_optimizer (confocal s) /\
               beside_window s' = beside_window s.
Proof.
  induction es as [| [i k] es IH]; intros s.
  - exists s. repeat split; reflexivity.
  - destruct (generate_optimizer_axis_run i k s) as (s1 & Hrun1 & Ha1 & Ho1 & Hb1).
    destruct (IH s1) as (s2 & Hrun2 & Ha2 & Ho2 & Hb2).
    exists s2. split; [exact (method_bind_ok _ _ _ _ _ _ _ _ _ Hrun1 Hrun2) |].
    rewrite Ha2, Ha1, Ho2, Ho1, Hb2, Hb1. repeat split.
Qed.

Lemma generate_axes_run (s : state) :
  let names := scanner_axes_names (scannerlogic (confocal s)) in
  exists s', _generate_axes_control_widgets tk s
             = Ok tt s' [Query "scannerlogic" "scanner_axes_names"] /\
             axes_widgets (confocal s') = filled (axis_control tk) (enumerate 1 names) ∅ /\
             outside_axes (confocal s') = outside_axes (confocal s) /\
             beside_window s' = beside_window s.
Proof.
  intros names. unfold _generate_axes_control_widgets. method_exec. fold names.
  match goal with
  | |- context [for_all _ _ ?s1] =>
      destruct (generate_axes_loop_run (enumerate 1 names) s1)
        as (s' & Hrun & Haxes & Hout & Hbeside); rewrite Hrun
  end.
  eexists. split; [reflexivity |]. cbn. split; [exact Haxes |]. split; assumption.
Qed.

Lemma generate_optimizer_run (s : state) :
  let names := scanner_axes_names (scannerlogic (confocal s)) in
  exists s', _generate_optimizer_axes_widgets tk s
             = Ok tt s' [Query "scannerlogic" "scanner_axes_names"] /\
             optimizer_widgets (confocal s')
               = filled (optimizer_axis tk) (enumerate 1 names) ∅ /\
             outside_optimizer (confocal s') = outside_optimizer (confocal s) /\
             beside_window s' = beside_window s.
Proof.
  intros names. unfold _generate_optimizer_axes_widgets. method_exec. fold names.
  match goal with
  | |- context [for_all _ _ ?s1] =>
      destruct (generate_optimizer_loop_run (enumerate 1 names) s1)
        as (s' & Hrun & Haxes & Hout & Hbeside); rewrite Hrun
  end.
  eexists. split; [reflexivity |]. cbn. split; [exact Haxes |]. split; assumption.
Qed.

(** X16.  What [_generate_axes_control_widgets] and
    [_generate_optimizer_axes_widgets] leave behind.  Each returns after
    one query; the dict it builds has exactly the axis names of the
    logic as keys, whatever it held before, so an empty list of names
    gives an empty dict; nothing else is touched but the layout the new
    widgets are put in.  When no
    name occurs twice, the first axis has the widgets of the [.ui] file
    and every other axis new ones: a slider from 0 to 99, a resolution
    input from 2 to 2^31 - 1 showing 2, and fresh [ScienDSpinBox]es;
    every label reads "<name>-Axis:". *)
Theorem axis_dicts_generated (s : state) :
  let names := scanner_axes_names (scannerlogic (confocal s)) in
  let o1 := _generate_axes_control_widgets tk s in
  let o2 := _generate_optimizer_axes_widgets tk s in
  (o1 = Ok tt (final o1) [Query "scannerlogic" "scanner_axes_names"] /\
   o2 = Ok tt (final o2) [Query "scannerlogic" "scanner_axes_names"]) /\
  (outside_axes (confocal (final o1)) = outside_axes (confocal s) /\
   outside_optimizer (confocal (final o2)) = outside_optimizer (confocal s) /\
   beside_window (final o1) = beside_window s /\
   beside_window (final o2) = beside_window s) /\
  (forall k, (is_Some (axes_widgets (confocal (final o1)) !! k) <-> k ∈ names) /\
             (is_Some (optimizer_widgets (confocal (final o2)) !! k) <-> k ∈ names)) /\
  (NoDup names ->
   forall (n : nat) (k : string), names !! n = Some k ->
     exists a o,
       axes_widgets (confocal (final o1)) !! k = Some a /\
       optimizer_widgets (confocal (final o2)) !! k = Some o /\
       label a = String.append k "-Axis:" /\ opt_label o = String.append k "-Axis:" /\
       (n = 0%nat ->
          (res_spinbox a, min_spinbox a, max_spinbox a, slider a, pos_spinbox a)
          = (res_spinbox (ui_axis_0 tk), min_spinbox (ui_axis_0 tk),
             max_spinbox (ui_axis_0 tk), slider (ui_axis_0 tk),
             pos_spinbox (ui_axis_0 tk)) /\
          (range_spinbox o, opt_res_spinbox o)
          = (range_spinbox (ui_optimizer_axis_0 tk),
             opt_res_spinbox (ui_optimizer_axis_0 tk))) /\
       (n <> 0%nat ->
          res_spinbox a = {| minimum := 2; maximum := 2 ^ 31 - 1; value := 2;
                             signalsBlocked := false |} /\
          opt_res_spinbox o = res_spinbox a /\
          slider a = {| minimum := 0; maximum := 99; value := 0;
                        signalsBlocked := false |} /\
          min_spinbox a = new_ScienDSpinBox tk /\ max_spinbox a = new_ScienDSpinBox tk /\
          pos_spinbox a = new_ScienDSpinBox tk /\
          range_spinbox o = new_ScienDSpinBox tk)).
Proof.
  intros names o1 o2.
  destruct (generate_axes_run s) as (s1 & Hrun1 & Ha1 & Ho1 & Hb1).
  destruct (generate_optimizer_run s) as (s2 & Hrun2 & Ha2 & Ho2 & Hb2).
  fold names in Ha1, Ha2. unfold o1, o2. rewrite Hrun1, Hrun2. cbn [final].
  split; [split; reflexivity |]. split; [repeat split; assumption |].
  rewrite Ha1, Ha2. split.
  - intros k. rewrite !filled_is_Some, enumerate_names, !lookup_empty.
    split; (split; [intros [H | [? [=]]]; exact H | intros H; left; exact H]).
  - intros Hnd n k Hn.
    assert (Hin : (1 + Z.of_nat n, k) ∈ enumerate 1 names)
      by (apply enumerate_lookup; exists n; split; [exact Hn | reflexivity]).
    exists (axis_control tk (1 + Z.of_nat n) k), (optimizer_axis tk (1 + Z.of_nat n) k).
    split; [apply filled_lookup_in; [rewrite enumerate_names |]; assumption |].
    split; [apply filled_lookup_in; [rewrite enumerate_names |]; assumption |].
    unfold axis_control, optimizer_axis.
    destruct (Z.eqb_spec (1 + Z.of_nat n) 1) as [E | E].
    + repeat split; intros; try reflexivity; lia.
    + repeat split; intros; try reflexivity; lia.
Qed.

End AxisDicts.

Section Docks.
Import Confocal Activation.
Variable tk : Toolkit.

Lemma add_key_elem (k : string) (order : list string) (k' : string) :
  k' ∈ add_key k order <-> k' = k \/ k' ∈ order.
Proof.
  unfold add_key. destruct (existsb (String.eqb k) order) eqn:E.
  - apply existsb_exists in E as (x & Hx & Heq). apply String.eqb_eq in Heq. subst x.
    apply list_elem_of_In in Hx. split; [auto | intros [-> | H]; assumption].
  - rewrite elem_of_app, elem_of_cons. split.
    + intros [H | [H | H]]; [auto | auto | inversion H].
    + intros [H | H]; auto.
Qed.

Lemma add_key_NoDup (k : string) (order : list string) :
  NoDup order -> NoDup (add_key k order).
Proof.
  intros Hnd. unfold add_key. destruct (existsb (String.eqb k) order) eqn:E; [exact Hnd |].
  apply NoDup_app. split; [exact Hnd |]. split; [| apply NoDup_singleton].
  intros x Hx Hx'. apply elem_of_cons in Hx' as [-> | Hx']; [| inversion Hx'].
  apply not_true_iff_false in E. apply E. apply existsb_exists. exists k.
  split; [apply list_elem_of_In; exact Hx | apply String.eqb_refl].
Qed.

Lemma dict_order_insert {W} (order : list string) (m : gmap string W) k v :
  dict_order order m -> dict_order (add_key k order) (<[k := v]> m).
Proof.
  intros [Hnd Hkeys]. split; [apply add_key_NoDup; exact Hnd |].
  intros k'. rewrite add_key_elem, lookup_insert_is_Some, Hkeys. split.
  - intros [-> | H]; [left; reflexivity |].
    destruct (decide (k = k')) as [-> | Hne]; [left; reflexivity | right; auto].
  - intros [-> | [_ H]]; auto.
Qed.

Lemma dict_order_empty {W} : dict_order [] (∅ : gmap string W).
Proof.
  split; [constructor |]. intros k. rewrite lookup_empty.
  split; [intros H; inversion H | intros [? [=]]].
Qed.

Lemma with_dock_order axes d2 o2 d1 o1 :
  dict_order o2 d2 -> dict_order o1 d1 ->
  let '(d2', o2', d1', o1') := with_dock tk axes (d2, o2, d1, o1) in
  dict_order o2' d2' /\ dict_order o1' d1'.
Proof.
  intros H2 H1. unfold with_dock.
  destruct axes as [| a0 [| a1 [| a2 l]]]; try (split; assumption).
  - split; [exact H2 | apply dict_order_insert; exact H1].
  - split; [apply dict_order_insert; exact H2 | exact H1].
Qed.

(** One entry whose axes have constraints. *)
Lemma generate_scan_dockwidget_run cs axes s :
  has_units cs axes ->
  exists s', generate_scan_dockwidget tk cs axes s = Ok tt s' [] /\
             dock_dicts s' = with_dock tk axes (dock_dicts s) /\
             beside_docks s' = beside_docks s.
Proof.
  unfold has_units, generate_scan_dockwidget, unit_of, dock_dicts, with_dock.
  destruct axes as [| a0 [| a1 [| a2 l]]].
  - intros _. exists s. repeat split.
  - intros [c0 H0]. rewrite H0. method_exec. rewrite insert_insert_eq.
    eexists. split; [reflexivity |]. repeat split.
  - intros [[c0 H0] [c1 H1]]. rewrite H0, H1. method_exec.
    eexists. split; [reflexivity |]. repeat split.
  - intros _. exists s. repeat split.
Qed.

Lemma generate_scan_dockwidgets_loop cs (l : list (list string)) :
  Forall (has_units cs) l ->
  forall s,
    exists s', for_all (generate_scan_dockwidget tk cs) l s = Ok tt s' [] /\
               dock_dicts s' = foldl (fun d axes => with_dock tk axes d) (dock_dicts s) l /\
               beside_docks s' = beside_docks s.
Proof.
  induction 1 as [| axes l Haxes _ IH]; intros s.
  - exists s. repeat split.
  - destruct (generate_scan_dockwidget_run cs axes s Haxes) as (s1 & Hrun1 & Hd1 & Hb1).
    destruct (IH s1) as (s2 & Hrun2 & Hd2 & Hb2).
    exists s2. split; [exact (method_bind_ok _ _ _ _ _ _ _ _ _ Hrun1 Hrun2) |].
    rewrite Hd2, Hd1, Hb2, Hb1. split; reflexivity.
Qed.

(** The keys the loop adds. *)
Lemma with_docks_keys (l : list (list string)) :
  forall d2 o2 d1 o1,
    let '(d2', o2', d1', o1') :=
      foldl (fun d axes => with_dock tk axes d) (d2, o2, d1, o1) l in
    (forall k, is_Some (d2' !! k) <->
               is_Some (d2 !! k) \/ exists a0 a1, [a0; a1] ∈ l /\ k = key_of a0 a1) /\
    (forall k, is_Some (d1' !! k) <-> is_Some (d1 !! k) \/ [k] ∈ l) /\
    (dict_order o2 d2 -> dict_order o1 d1 -> dict_order o2' d2' /\ dict_order o1' d1').
Proof.
  induction l as [| axes l IH]; intros d2 o2 d1 o1.
  - cbn. split; [| split; [| auto]].
    + intros k. split; [auto | intros [H | (a0 & a1 & H & _)]; [exact H | inversion H]].
    + intros k. split; [auto | intros [H | H]; [exact H | inversion H]].
  - cbn [foldl].
    pose proof (with_dock_order axes d2 o2 d1 o1) as Hord.
    destruct (with_dock tk axes (d2, o2, d1, o1)) as [[[d2a o2a] d1a] o1a] eqn:E.
    specialize (IH d2a o2a d1a o1a).
    destruct (foldl _ (d2a, o2a, d1a, o1a) l) as [[[d2' o2'] d1'] o1'].
    destruct IH as (IH2 & IH1 & IHo).
    assert (E2 : forall k, is_Some (d2a !! k) <->
                   is_Some (d2 !! k) \/ exists a0 a1, axes = [a0; a1] /\ k = key_of a0 a1).
    { intros k. unfold with_dock in E.
      destruct axes as [| a0 [| a1 [| a2 r]]]; injection E as <- _ <- _;
        try (split; [auto | intros [H | (? & ? & [=] & _)]; exact H]).
      rewrite lookup_insert_is_Some. split.
      - intros [<- | [_ H]]; [right; eauto | left; exact H].
      - intros [H | (? & ? & [= <- <-] & ->)]; [| left; reflexivity].
        destruct (decide (key_of a0 a1 = k)); auto. }
    assert (E1 : forall k, is_Some (d1a !! k) <-> is_Some (d1 !! k) \/ axes = [k]).
    { intros k. unfold with_dock in E.
      destruct axes as [| a0 [| a1 [| a2 r]]]; injection E as <- _ <- _;
        try (split; [auto | intros [H | [=]]; exact H]).
      rewrite lookup_insert_is_Some. split.
      - intros [<- | [_ H]]; [right; reflexivity | left; exact H].
      - intros [H | [= <-]]; [| left; reflexivity].
        destruct (decide (a0 = k)); auto. }
    split; [| split].
    + intros k. rewrite IH2, E2. split.
      * intros [[H | (a0 & a1 & -> & ->)] | (a0 & a1 & H & ->)]; [auto | |].
        -- right. exists a0, a1. split; [left | reflexivity].
        -- right. exists a0, a1. split; [right; exact H | reflexivity].
      * intros [H | (a0 & a1 & H & ->)]; [auto |].
        apply elem_of_cons in H as [<- | H]; [left; right; eauto | right; eauto].
    + intros k. rewrite IH1, E1. split.
      * intros [[H | ->] | H]; [auto | right; left | right; right; exact H].
      * intros [H | H]; [auto |].
        apply elem_of_cons in H as [<- | H]; auto.
    + intros H2 H1. destruct (Hord H2 H1) as [H2a H1a]. apply IHo; assumption.
Qed.

End Docks.

Section ScanDocks.
Import Confocal Activation.
Variable tk : Toolkit.

(** X17.  [_generate_scan_dockwidgets] against a logic whose ['2d_scan_axes']
    only names axes with constraints: it returns after its two
    queries; whatever dock widgets there were before, the 2D dict has
    exactly the keys "a,b" of the two-axis entries and the 1D dict
    exactly the axes of the one-axis entries, entries of any other
    length being skipped; the key orders kept beside the dicts list
    exactly these keys, each once; nothing else is touched but the
    window the dock widgets are added to. *)
Theorem scan_dockwidgets_generated (s : state) (l : list (list string)) :
  scan_axes s = Some l ->
  Forall (has_units (scanner_constraints (scannerlogic (confocal s)))) l ->
  let o := _generate_scan_dockwidgets tk s in
  let g := gui (confocal (final o)) in
  o = Ok tt (final o) [Query "scannerlogic" "scanner_settings";
                       Query "scannerlogic" "scanner_constraints"] /\
  beside_docks (final o) = beside_docks s /\
  (forall k, is_Some (scan_2d_dockwidgets g !! k) <->
             exists a0 a1, [a0; a1] ∈ l /\ k = key_of a0 a1) /\
  (forall k, is_Some (scan_1d_dockwidgets g !! k) <-> [k] ∈ l) /\
  dict_order (scan_2d_order (final o)) (scan_2d_dockwidgets g) /\
  dict_order (scan_1d_order (final o)) (scan_1d_dockwidgets g).
Proof.
  intros Hl Hunits o g.
  set (cs := scanner_constraints (scannerlogic (confocal s))) in *.
  assert (Hrun : exists s',
             o = Ok tt s' [Query "scannerlogic" "scanner_settings";
                           Query "scannerlogic" "scanner_constraints"] /\
             dock_dicts s' = foldl (fun d axes => with_dock tk axes d) (∅, [], ∅, []) l /\
             beside_docks s' = beside_docks s).
  { unfold o, _generate_scan_dockwidgets. method_exec. rewrite Hl. fold cs.
    match goal with
    | |- context [for_all _ _ ?s1] =>
        destruct (generate_scan_dockwidgets_loop tk cs l Hunits s1) as (s' & Hrun & Hd & Hb);
          rewrite Hrun
    end.
    exists s'. split; [reflexivity |]. split; [exact Hd | exact Hb]. }
  destruct Hrun as (s' & Ho & Hd & Hb). unfold g. rewrite Ho. cbn [final].
  split; [reflexivity |]. split; [exact Hb |].
  pose proof (with_docks_keys tk l ∅ [] ∅ []) as Hkeys.
  unfold dock_dicts in Hd. rewrite <- Hd in Hkeys.
  destruct Hkeys as (H2 & H1 & Hord).
  destruct (Hord dict_order_empty dict_order_empty) as [Ho2 Ho1].
  split; [| split; [| split; assumption]].
  - intros k. rewrite H2, lookup_empty. split; [intros [[? [=]] | H]; exact H | auto].
  - intros k. rewrite H1, lookup_empty. split; [intros [[? [=]] | H]; exact H | auto].
Qed.

(** The loop stops at the first entry that raises. *)
Lemma for_all_stops {A} (body : A -> method unit) (pre : list A) (x : A) (post : list A) :
  forall s s1 t1 e s2 t2,
    for_all body pre s = Ok tt s1 t1 ->
    body x s1 = Raise e s2 t2 ->
    for_all body (pre ++ x :: post) s = Raise e s2 (t1 ++ t2)%list.
Proof.
  induction pre as [| p pre IH]; intros s s1 t1 e s2 t2 Hpre Hx.
  - cbn in Hpre. injection Hpre as <- <-. cbn [app for_all]. run_handler.
    rewrite Hx. reflexivity.
  - cbn [app for_all] in *. revert Hpre. run_handler.
    destruct (body p s) as [[] sp tp | ep sp tp]; [| discriminate].
    destruct (for_all body pre sp) as [[] sq tq | eq sq tq] eqn:Hrest; [| discriminate].
    intros [= <- <-]. rewrite (IH _ _ _ _ _ _ Hrest Hx), app_assoc. reflexivity.
Qed.

(** X18.  What [_generate_scan_dockwidgets] does with incomplete data.  When
    the settings have no ['2d_scan_axes'] entry it raises [KeyError]
    for that key, having forgotten the dock widgets there were.  When
    an entry with one or two axes starts with an axis that has no
    constraints it raises [KeyError] for that axis: the dock widgets of
    the entries before it are in place, and so is the dock widget of
    the entry itself, registered before its axis label was looked up. *)
Theorem scan_dockwidgets_incomplete (s : state) :
  let cs := scanner_constraints (scannerlogic (confocal s)) in
  let o := _generate_scan_dockwidgets tk s in
  let g := gui (confocal (final o)) in
  let queries := [Query "scannerlogic" "scanner_settings";
                  Query "scannerlogic" "scanner_constraints"] in
  (scan_axes s = None ->
     o = Raise (KeyError "2d_scan_axes") (final o) queries /\
     dock_dicts (final o) = (∅, [], ∅, [])) /\
  (forall pre axes post a rest,
     scan_axes s = Some (pre ++ axes :: post)%list ->
     Forall (has_units cs) pre ->
     axes = a :: rest -> (length rest <= 1)%nat -> item a cs = None ->
     o = Raise (KeyError a) (final o) queries /\
     (forall a0 a1, [a0; a1] ∈ pre -> is_Some (scan_2d_dockwidgets g !! key_of a0 a1)) /\
     (forall k, [k] ∈ pre -> is_Some (scan_1d_dockwidgets g !! k)) /\
     match rest with
     | [] => scan_1d_dockwidgets g !! a = Some (new_Scan1dWidget tk)
     | a1 :: _ => scan_2d_dockwidgets g !! key_of a a1 = Some (new_Scan2dWidget tk)
     end).
Proof.
  intros cs o g queries. split.
  - intros Hnone. unfold o, g, _generate_scan_dockwidgets. method_exec. rewrite Hnone.
    cbn. split; reflexivity.
  - intros pre axes post a rest Hl Hpre -> Hlen Ha.
    assert (Hbody : forall s1, exists s2,
               generate_scan_dockwidget tk cs (a :: rest) s1 = Raise (KeyError a) s2 [] /\
               match rest with
               | [] => scan_1d_dockwidgets (gui (confocal s2))
                       = <[a := new_Scan1dWidget tk]> (scan_1d_dockwidgets (gui (confocal s1))) /\
                       scan_2d_dockwidgets (gui (confocal s2))
                       = scan_2d_dockwidgets (gui (confocal s1)) /\
                       scan_1d_order s2 = add_key a (scan_1d_order s1) /\
                       scan_2d_order s2 = scan_2d_order s1
               | a1 :: _ =>
                       scan_2d_dockwidgets (gui (confocal s2))
                       = <[key_of a a1 := new_Scan2dWidget tk]>
                           (scan_2d_dockwidgets (gui (confocal s1))) /\
                       scan_1d_dockwidgets (gui (confocal s2))
                       = scan_1d_dockwidgets (gui (confocal s1)) /\
                       scan_2d_order s2 = add_key (key_of a a1) (scan_2d_order s1) /\
                       scan_1d_order s2 = scan_1d_order s1
               end).
    { intros s1. unfold generate_scan_dockwidget, unit_of.
      destruct rest as [| a1 [| a2 r]]; [| | cbn in Hlen; lia];
        rewrite Ha; method_exec; eexists; (split; [reflexivity |]); repeat split. }
    assert (Hrun : exists s1 s2,
               o = Raise (KeyError a) s2 queries /\
               dock_dicts s1 = foldl (fun d axes => with_dock tk axes d) (∅, [], ∅, []) pre /\
               generate_scan_dockwidget tk cs (a :: rest) s1 = Raise (KeyError a) s2 []).
    { unfold o, _generate_scan_dockwidgets. method_exec. rewrite Hl. fold cs.
      match goal with
      | |- context [for_all _ _ ?s0] =>
          destruct (generate_scan_dockwidgets_loop tk cs pre Hpre s0) as (s1 & Hrun & Hd & _);
          destruct (Hbody s1) as (s2 & Hfail & _);
          rewrite (for_all_stops _ _ _ post _ _ _ _ _ _ Hrun Hfail)
      end.
      exists s1, s2. split; [reflexivity |]. split; [exact Hd | exact Hfail]. }
    destruct Hrun as (s1 & s2 & Ho & Hd & Hfail).
    destruct (Hbody s1) as (s2' & Hfail' & Hdicts).
    rewrite Hfail in Hfail'. injection Hfail' as <-.
    unfold g. rewrite Ho. cbn [final]. split; [reflexivity |].
    pose proof (with_docks_keys tk pre ∅ [] ∅ []) as Hkeys.
    unfold dock_dicts in Hd. rewrite <- Hd in Hkeys. destruct Hkeys as (H2 & H1 & _).
    destruct rest as [| a1 [| a2 r]]; [| | cbn in Hlen; lia];
      destruct Hdicts as (E1 & E2 & E3 & E4); rewrite E1, E2;
      (split; [| split; [| apply lookup_insert_eq]]).
    + intros a0 a1 Hin. apply H2. right. eauto.
    + intros k Hin. rewrite lookup_insert_is_Some.
      destruct (decide (a = k)); [left; assumption | right; split; [assumption |]].
      apply H1. right. exact Hin.
    + intros a0 a1' Hin. rewrite lookup_insert_is_Some.
      destruct (decide (key_of a a1 = key_of a0 a1')); [left; assumption |].
      right; split; [assumption |]. apply H2. right. eauto.
    + intros k Hin. apply H1. right. exact Hin.
Qed.

End ScanDocks.

Section Plots.
Import Confocal Activation.
Variable tk : Toolkit.

Lemma stocked_lookup {W} (v : W) (keys : list string) (m : gmap string W) k :
  stocked v keys m !! k = if decide (k ∈ keys) then Some v else m !! k.
Proof.
  revert m. induction keys as [| k' keys IH]; intros m.
  - cbn. rewrite decide_False by (intros H; inversion H). reflexivity.
  - cbn [stocked foldl]. fold (stocked v keys (<[k' := v]> m)). rewrite IH.
    destruct (decide (k ∈ keys)) as [Hin | Hnotin].
    + rewrite decide_True by (right; exact Hin). reflexivity.
    + destruct (decide (k = k')) as [-> | Hne].
      * rewrite decide_True by left. apply lookup_insert_eq.
      * rewrite decide_False by (intros H; apply elem_of_cons in H as [? | ?]; auto).
        apply lookup_insert_ne. auto.
Qed.

Lemma init_2d_plots_run (keys : list string) :
  forall s,
    exists s', for_all (init_2d_plot tk) keys s = Ok tt s' [] /\
               scan_2d_images (gui (confocal s'))
                 = stocked (fresh_image tk) keys (scan_2d_images (gui (confocal s))) /\
               scan_1d_plots (gui (confocal s')) = scan_1d_plots (gui (confocal s)) /\
               optimizer_plots s' = optimizer_plots s /\
               beside_plots s' = beside_plots s.
Proof.
  induction keys as [| k keys IH]; intros s.
  - exists s. repeat split.
  - cbn [for_all].
    assert (Hbody : exists s1,
               init_2d_plot tk k s = Ok tt s1 [] /\
               scan_2d_images (gui (confocal s1))
                 = <[k := fresh_image tk]> (scan_2d_images (gui (confocal s))) /\
               scan_1d_plots (gui (confocal s1)) = scan_1d_plots (gui (confocal s)) /\
               optimizer_plots s1 = optimizer_plots s /\
               beside_plots s1 = beside_plots s).
    { unfold init_2d_plot. method_exec. eexists. split; [reflexivity |]. repeat split. }
    destruct Hbody as (s1 & Hrun1 & Hi1 & Hp1 & Ho1 & Hb1).
    destruct (IH s1) as (s2 & Hrun2 & Hi2 & Hp2 & Ho2 & Hb2).
    exists s2. split; [exact (method_bind_ok _ _ _ _ _ _ _ _ _ Hrun1 Hrun2) |].
    rewrite Hi2, Hi1, Hp2, Hp1, Ho2, Ho1, Hb2, Hb1. repeat split.
Qed.

Lemma init_1d_plots_run (keys : list string) :
  forall s,
    exists s', for_all (init_1d_plot) keys s = Ok tt s' [] /\
               scan_1d_plots (gui (confocal s'))
                 = stocked fresh_plot keys (scan_1d_plots (gui (confocal s))) /\
               scan_2d_images (gui (confocal s')) = scan_2d_images (gui (confocal s)) /\
               optimizer_plots s' = optimizer_plots s /\
               beside_plots s' = beside_plots s.
Proof.
  induction keys as [| k keys IH]; intros s.
  - exists s. repeat split.
  - cbn [for_all].
    assert (Hbody : exists s1,
               init_1d_plot k s = Ok tt s1 [] /\
               scan_1d_plots (gui (confocal s1))
                 = <[k := fresh_plot]> (scan_1d_plots (gui (confocal s))) /\
               scan_2d_images (gui (confocal s1)) = scan_2d_images (gui (confocal s)) /\
               optimizer_plots s1 = optimizer_plots s /\
               beside_plots s1 = beside_plots s).
    { unfold init_1d_plot. method_exec. eexists. split; [reflexivity |]. repeat split. }
    destruct Hbody as (s1 & Hrun1 & Hi1 & Hp1 & Ho1 & Hb1).
    destruct (IH s1) as (s2 & Hrun2 & Hi2 & Hp2 & Ho2 & Hb2).
    exists s2. split; [exact (method_bind_ok _ _ _ _ _ _ _ _ _ Hrun1 Hrun2) |].
    rewrite Hi2, Hi1, Hp2, Hp1, Ho2, Ho1, Hb2, Hb1. repeat split.
Qed.

Lemma init_plots_run (s : state) :
  exists s', _init_plots tk s = Ok tt s' [] /\
             scan_2d_images (gui (confocal s'))
               = stocked (fresh_image tk) (scan_2d_order s) ∅ /\
             scan_1d_plots (gui (confocal s')) = stocked fresh_plot (scan_1d_order s) ∅ /\
             optimizer_plots s'
               = Some {| optimizer_2d_image := fresh_image tk;
                         optimizer_1d_plot := (arange 10, zeros 10);
                         optimizer_1d_fit_plot := (arange 10, zeros 10) |} /\
             beside_plots s' = beside_plots s.
Proof.
  unfold _init_plots. method_exec.
  match goal with
  | |- context [for_all (init_2d_plot tk) _ ?s0] =>
      destruct (init_2d_plots_run (scan_2d_order s) s0) as (s1 & Hrun1 & Hi1 & Hp1 & Ho1 & Hb1);
      rewrite Hrun1
  end.
  cbn.
  assert (Eo : scan_1d_order s1 = scan_1d_order s).
  { unfold beside_plots, dock_dicts in Hb1. cbn in Hb1. congruence. }
  rewrite Eo.
  match goal with
  | |- context [for_all (init_1d_plot) _ ?s0] =>
      destruct (init_1d_plots_run (scan_1d_order s) s0) as (s2 & Hrun2 & Hp2 & Hi2 & Ho2 & Hb2);
      rewrite Hrun2
  end.
  cbn. eexists. split; [reflexivity |]. cbn.
  rewrite Hi2, Hp2. cbn. rewrite Hi1. cbn.
  split; [reflexivity |]. split; [reflexivity |]. split; [reflexivity |].
  unfold beside_plots, dock_dicts in *. cbn in *. congruence.
Qed.

(** X19.  [_init_plots] on a GUI whose dock widget dicts are in step with
    their key orders: afterwards every 2D dock widget has a 2 x 2 image
    of zeros under its key and every 1D dock widget a two-point plot
    of zeros, and there is no image or plot without a dock widget; the
    optimizer has its three plot items.  From then on every frame with
    one or two axes that has a dock widget (and, with two axes, carries
    a scan) finds what [scan_data_updated] looks up for it. *)
Theorem init_plots_match_docks (s : state) :
  let g0 := gui (confocal s) in
  dict_order (scan_2d_order s) (scan_2d_dockwidgets g0) ->
  dict_order (scan_1d_order s) (scan_1d_dockwidgets g0) ->
  let o := _init_plots tk s in
  let g := gui (confocal (final o)) in
  o = Ok tt (final o) [] /\
  beside_plots (final o) = beside_plots s /\
  (forall k, scan_2d_images g !! k
             = if decide (is_Some (scan_2d_dockwidgets g0 !! k))
               then Some {| image := [[0; 0]; [0; 0]]%Q; image_extent := new_image_extent tk |}
               else None) /\
  (forall k, scan_1d_plots g !! k
             = if decide (is_Some (scan_1d_dockwidgets g0 !! k))
               then Some [[0; 1]; [0; 0]]%Q else None) /\
  is_Some (optimizer_plots (final o)) /\
  (forall d, has_dock (confocal s) d -> paintable (confocal (final o)) d).
Proof.
  intros g0 [_ H2] [_ H1] o g.
  destruct (init_plots_run s) as (s' & Hrun & Hi & Hp & Ho & Hb).
  unfold g, o. rewrite Hrun. cbn [final].
  assert (Himg : forall k, scan_2d_images (gui (confocal s')) !! k
             = if decide (is_Some (scan_2d_dockwidgets g0 !! k))
               then Some (fresh_image tk) else None).
  { intros k. rewrite Hi, stocked_lookup, lookup_empty.
    destruct (decide (k ∈ scan_2d_order s)) as [Hin | Hnotin].
    - rewrite decide_True by (apply H2; exact Hin). reflexivity.
    - rewrite decide_False by (intros H; apply Hnotin, H2; exact H). reflexivity. }
  assert (Hplot : forall k, scan_1d_plots (gui (confocal s')) !! k
             = if decide (is_Some (scan_1d_dockwidgets g0 !! k))
               then Some fresh_plot else None).
  { intros k. rewrite Hp, stocked_lookup, lookup_empty.
    destruct (decide (k ∈ scan_1d_order s)) as [Hin | Hnotin].
    - rewrite decide_True by (apply H1; exact Hin). reflexivity.
    - rewrite decide_False by (intros H; apply Hnotin, H1; exact H). reflexivity. }
  split; [reflexivity |]. split; [exact Hb |]. split; [exact Himg |].
  split; [exact Hplot |]. split; [rewrite Ho; eexists; reflexivity |].
  intros d. unfold has_dock, paintable.
  assert (E2 : scan_2d_dockwidgets (gui (confocal s')) = scan_2d_dockwidgets g0)
    by (unfold beside_plots, dock_dicts in Hb; cbn in Hb; unfold g0; congruence).
  assert (E1 : scan_1d_dockwidgets (gui (confocal s')) = scan_1d_dockwidgets g0)
    by (unfold beside_plots, dock_dicts in Hb; cbn in Hb; unfold g0; congruence).
  fold g0. destruct (axes_names d) as [| a0 [| a1 [| a2 l]]]; try exact (fun H => H).
  - intros Hd. rewrite E1, Hplot, decide_True by exact Hd.
    split; [intros _; eexists; reflexivity | exact Hd].
  - intros [Hscan Hd]. rewrite E2, Himg, decide_True by exact Hd.
    split; [exact Hscan |]. split; [eexists; reflexivity | exact Hd].
Qed.

End Plots.

Section DefaultView.
Import Confocal Activation.
Variable tk : Toolkit.

Lemma tabified_app l1 l2 : tabified (l1 ++ l2) = (tabified l1 ++ tabified l2)%list.
Proof. apply flat_map_app. Qed.

Lemma stacked_app l1 l2 : stacked (l1 ++ l2) = (stacked l1 ++ stacked l2)%list.
Proof. apply flat_map_app. Qed.

(** From the index [limit + 1] on every dock widget is put into a tab
    with the first one. *)
Lemma tabified_arrange_2d (first : string) (l : list string) :
  forall start, 2 <= start ->
    tabified (flat_map (arrange_2d first) (enumerate start l))
    = map (fun k => (Scan2d first, Scan2d k)) l.
Proof.
  induction l as [| k l IH]; intros start Hs; [reflexivity |].
  cbn [enumerate flat_map]. rewrite tabified_app, IH by lia.
  unfold arrange_2d. destruct (Z.ltb_spec 1 start); [reflexivity | lia].
Qed.

Lemma tabified_arrange_1d (first : string) (l : list string) :
  forall start, 1 <= start ->
    tabified (flat_map (arrange_1d first) (enumerate start l))
    = map (fun k => (Scan1d first, Scan1d k)) l.
Proof.
  induction l as [| k l IH]; intros start Hs; [reflexivity |].
  cbn [enumerate flat_map]. rewrite tabified_app, IH by lia.
  unfold arrange_1d. destruct (Z.ltb_spec 0 start); [reflexivity | lia].
Qed.

Lemma stacked_arrange_2d first es : stacked (flat_map (arrange_2d first) es) = [].
Proof.
  induction es as [| [i k] es IH]; [reflexivity |].
  cbn [flat_map]. rewrite stacked_app, IH. unfold arrange_2d.
  destruct (Z.ltb 1 i); reflexivity.
Qed.

Lemma stacked_arrange_1d first es : stacked (flat_map (arrange_1d first) es) = [].
Proof.
  induction es as [| [i k] es IH]; [reflexivity |].
  cbn [flat_map]. rewrite stacked_app, IH. unfold arrange_1d.
  destruct (Z.ltb 0 i); reflexivity.
Qed.

Lemma arrange_2d_docked first (l : list string) start k :
  k ∈ l ->
  Forall (fun op => op ∈ flat_map (arrange_2d first) (enumerate start l))
         [ShowDock (Scan2d k); SetFloating (Scan2d k) false;
          AddDockWidget TopDockWidgetArea (Scan2d k)].
Proof.
  revert start. induction l as [| k' l IH]; intros start Hin; [inversion Hin |].
  cbn [enumerate flat_map]. apply elem_of_cons in Hin as [-> | Hin].
  - repeat constructor; apply elem_of_app; left; unfold arrange_2d;
      apply elem_of_app; left; set_solver.
  - eapply Forall_impl; [apply (IH (start + 1) Hin) |].
    intros op Hop. apply elem_of_app. right. exact Hop.
Qed.

Lemma arrange_1d_docked first (l : list string) start k :
  k ∈ l ->
  Forall (fun op => op ∈ flat_map (arrange_1d first) (enumerate start l))
         [ShowDock (Scan1d k); SetFloating (Scan1d k) false;
          AddDockWidget TopDockWidgetArea (Scan1d k)].
Proof.
  revert start. induction l as [| k' l IH]; intros start Hin; [inversion Hin |].
  cbn [enumerate flat_map]. apply elem_of_cons in Hin as [-> | Hin].
  - repeat constructor; apply elem_of_app; left; unfold arrange_1d;
      apply elem_of_app; left; set_solver.
  - eapply Forall_impl; [apply (IH (start + 1) Hin) |].
    intros op Hop. apply elem_of_app. right. exact Hop.
Qed.

Lemma restore_default_view_run (s : state) :
  let o2 := scan_2d_order s in
  let o1 := scan_1d_order s in
  exists s',
    restore_default_view s = Ok tt s' [] /\
    confocal s' = confocal s /\ beside_window s' = beside_window s /\
    ops (_mw s')
    = (ops (_mw s) ++
       [SetDockNestingEnabled true] ++
       flat_map (arrange_2d (hd "" o2)) (enumerate 0 o2) ++
       flat_map (arrange_1d (hd "" o1)) (enumerate 0 o1) ++
       [SetFloating Optimizer false; SetFloating TiltCorrection false;
        HideDock TiltCorrection; AddDockWidget LeftDockWidgetArea TiltCorrection;
        ShowDock Optimizer; AddDockWidget TopDockWidgetArea Optimizer] ++
       split_optimizer o2 o1)%list.
Proof.
  intros o2 o1. unfold restore_default_view. method_exec.
  eexists. split; [reflexivity |]. cbn. split; [reflexivity |]. split; [reflexivity |].
  fold o2 o1. rewrite <- !app_assoc. reflexivity.
Qed.

(** X20.  The default arrangement.  The 2D scans from the third on become
    tabs of the first 2D scan, so the first two stay side by side; the
    1D scans from the second on become tabs of the first 1D scan.  The
    optimizer is stacked with the first 1D scan if there is one, else
    with the second 2D scan if there are two, else it is not stacked at
    all.  Every scan dock widget is shown, docked again and put in the
    top area; the tilt correction is hidden.  No widget dict and no
    logic value is touched, and no event goes out. *)
Theorem restore_default_view_arrangement (s : state) :
  let o2 := scan_2d_order s in
  let o1 := scan_1d_order s in
  let o := restore_default_view s in
  let added := new_ops s (final o) in
  o = Ok tt (final o) [] /\
  confocal (final o) = confocal s /\ beside_window (final o) = beside_window s /\
  take (length (ops (_mw s))) (ops (_mw (final o))) = ops (_mw s) /\
  tabified added
  = (map (fun k => (Scan2d (hd "" o2), Scan2d k)) (drop 2 o2) ++
     map (fun k => (Scan1d (hd "" o1), Scan1d k)) (drop 1 o1))%list /\
  stacked added
  = match o1, o2 with
    | first :: _, _ => [(Scan1d first, Optimizer)]
    | [], _ :: second :: _ => [(Scan2d second, Optimizer)]
    | [], _ => []
    end /\
  (forall k, k ∈ o2 ->
     Forall (fun op => op ∈ added)
            [ShowDock (Scan2d k); SetFloating (Scan2d k) false;
             AddDockWidget TopDockWidgetArea (Scan2d k)]) /\
  (forall k, k ∈ o1 ->
     Forall (fun op => op ∈ added)
            [ShowDock (Scan1d k); SetFloating (Scan1d k) false;
             AddDockWidget TopDockWidgetArea (Scan1d k)]) /\
  HideDock TiltCorrection ∈ added /\ ShowDock Optimizer ∈ added.
Proof.
  intros o2 o1 o added.
  destruct (restore_default_view_run s) as (s' & Hrun & Hc & Hb & Hops).
  fold o2 o1 in Hops. unfold added, new_ops, o. rewrite Hrun. cbn [final].
  rewrite Hops, drop_app_length, take_app_length.
  split; [reflexivity |]. split; [exact Hc |]. split; [exact Hb |]. split; [reflexivity |].
  split; [| split; [| split; [| split; [| split]]]].
  - rewrite !tabified_app. cbn [tabified flat_map app]. rewrite ?app_nil_r.
    assert (tabified (split_optimizer o2 o1) = []) as ->.
    { unfold split_optimizer. destruct o1; [destruct o2 as [| ? [| ? ?]] |]; reflexivity. }
    rewrite app_nil_r. f_equal.
    + destruct o2 as [| k0 [| k1 l]]; [reflexivity | reflexivity |].
      cbn [enumerate flat_map hd drop]. rewrite !tabified_app.
      rewrite tabified_arrange_2d by lia. reflexivity.
    + destruct o1 as [| k0 l]; [reflexivity |].
      cbn [enumerate flat_map hd drop]. rewrite !tabified_app.
      rewrite tabified_arrange_1d by lia. reflexivity.
  - rewrite !stacked_app, stacked_arrange_2d, stacked_arrange_1d.
    cbn [stacked flat_map app]. unfold split_optimizer.
    destruct o1; [destruct o2 as [| ? [| ? ?]] |]; reflexivity.
  - intros k Hk. eapply Forall_impl; [apply (arrange_2d_docked (hd "" o2) o2 0 k Hk) |].
    intros op Hop. rewrite !elem_of_app. right. left. exact Hop.
  - intros k Hk. eapply Forall_impl; [apply (arrange_1d_docked (hd "" o1) o1 0 k Hk) |].
    intros op Hop. rewrite !elem_of_app. right. right. left. exact Hop.
  - rewrite !elem_of_app. right. right. right. left. set_solver.
  - rewrite !elem_of_app. right. right. right. left. set_solver.
Qed.

End DefaultView.

Section SavedWindow.
Import Confocal Activation.
Variable tk : Toolkit.

Lemma keeps_bind {A B} (m : method A) (f : A -> method B) :
  keeps_saved_window m -> (forall a, keeps_saved_window (f a)) ->
  keeps_saved_window (m ≫= f).
Proof.
  intros Hm Hf s. specialize (Hm s). run_handler.
  destruct (m s) as [a s1 t1 | e s1 t1]; cbn in *; [| exact Hm].
  specialize (Hf a s1). destruct (f a s1); cbn in *; congruence.
Qed.

Lemma keeps_ret {A} (a : A) : keeps_saved_window (mret a : method A).
Proof. intros s. reflexivity. Qed.

Lemma keeps_raise {A} (e : exn) : keeps_saved_window (raise e : method A).
Proof. intros s. reflexivity. Qed.

Lemma keeps_gets {A} (f : state -> A) : keeps_saved_window (gets f : method A).
Proof. intros s. reflexivity. Qed.

Lemma keeps_window (l : list window_op) : keeps_saved_window (window l).
Proof. intros s. reflexivity. Qed.

Lemma keeps_lift {A} (m : handler A) : keeps_saved_window (lift m).
Proof. intros s. unfold lift. destruct (m (confocal s)); reflexivity. Qed.

Lemma keeps_update_widgets f : keeps_saved_window (update_widgets f).
Proof. apply keeps_lift. Qed.

Lemma keeps_for_all {A} (body : A -> method unit) (l : list A) :
  (forall x, keeps_saved_window (body x)) -> keeps_saved_window (for_all body l).
Proof.
  intros Hb. induction l as [| x l IH]; [apply keeps_ret |].
  cbn [for_all]. apply keeps_bind; [apply Hb | intros _; exact IH].
Qed.

Ltac keeps :=
  repeat first
    [ apply keeps_bind; [| intros ?]
    | apply keeps_ret | apply keeps_raise | apply keeps_gets | apply keeps_window
    | apply keeps_update_widgets | apply keeps_lift
    | apply keeps_for_all; intros ? ].

Lemma keeps_unit_of cs a : keeps_saved_window (unit_of cs a).
Proof. unfold unit_of. destruct (item a cs); keeps. Qed.

Lemma keeps_set_orders (f : state -> state) :
  (forall s, saved_window (f s) = saved_window s) -> keeps_saved_window (modify f).
Proof. intros Hf s. apply Hf. Qed.

Lemma generate_axes_keeps : keeps_saved_window (_generate_axes_control_widgets tk).
Proof.
  unfold _generate_axes_control_widgets. keeps.
  match goal with x : (Z * string)%type |- _ => destruct x as [i k] end.
  unfold generate_axis_control. keeps. destruct (Z.eqb i 1); keeps.
Qed.

Lemma generate_optimizer_keeps : keeps_saved_window (_generate_optimizer_axes_widgets tk).
Proof.
  unfold _generate_optimizer_axes_widgets. keeps.
  match goal with x : (Z * string)%type |- _ => destruct x as [i k] end.
  unfold generate_optimizer_axis. keeps. destruct (Z.eqb i 1); keeps.
Qed.

Lemma generate_scan_dockwidget_keeps cs axes :
  keeps_saved_window (generate_scan_dockwidget tk cs axes).
Proof.
  unfold generate_scan_dockwidget.
  destruct axes as [| a0 [| a1 [| ? ?]]]; keeps;
    try (apply keeps_set_orders; reflexivity); apply keeps_unit_of.
Qed.

Lemma generate_scan_dockwidgets_keeps : keeps_saved_window (_generate_scan_dockwidgets tk).
Proof.
  unfold _generate_scan_dockwidgets. keeps; try (apply keeps_set_orders; reflexivity).
  match goal with o : option (list (list string)) |- _ => destruct o end; keeps.
  apply generate_scan_dockwidget_keeps.
Qed.

Lemma restore_default_view_keeps : keeps_saved_window restore_default_view.
Proof. unfold restore_default_view. keeps. Qed.

Lemma build_window_keeps : keeps_saved_window (build_window tk).
Proof.
  unfold build_window.
  apply keeps_bind; [apply keeps_update_widgets | intros _].
  apply keeps_bind; [apply keeps_set_orders; reflexivity | intros _].
  apply keeps_bind; [apply keeps_window | intros _].
  apply keeps_bind; [apply generate_axes_keeps | intros _].
  apply keeps_bind; [apply generate_optimizer_keeps | intros _].
  apply keeps_bind; [apply generate_scan_dockwidgets_keeps | intros _].
  apply restore_default_view_keeps.
Qed.

Lemma on_deactivate_run (s : state) :
  on_deactivate tk s
  = Ok 0 (set_mw (add_ops [CloseWindow] (_mw s))
            (set_window_state (Some (Hex.hex (saveState tk (_mw s))))
               (set_window_geometry (Some (Hex.hex (saveGeometry tk (_mw s)))) s))) [].
Proof. reflexivity. Qed.

Lemma restore_window_geometry_hex (s : state) (b : list Byte.byte) :
  _window_geometry s = Some (Hex.hex b) ->
  exists s2, restore_window_geometry tk s = inr s2 /\
             ops (_mw s2) = (ops (_mw s) ++ [RestoreGeometry b])%list /\
             _window_state s2 = _window_state s.
Proof.
  intros Hg. unfold restore_window_geometry. rewrite Hg, fromhex_hex.
  destruct (restoreGeometry tk b (_mw s)); eexists; (split; [reflexivity |]);
    split; reflexivity.
Qed.

Lemma restore_window_state_hex (s : state) (b : list Byte.byte) :
  _window_state s = Some (Hex.hex b) ->
  exists s3, restore_window_state tk s = inr s3 /\
             ops (_mw s3) = (ops (_mw s) ++ [RestoreState b])%list.
Proof.
  intros Hs. unfold restore_window_state. rewrite Hs, fromhex_hex.
  destruct (restoreState tk b (_mw s)); eexists; (split; [reflexivity |]); reflexivity.
Qed.

(** X21.  Deactivating and activating again.  [on_deactivate] returns 0,
    sends nothing, closes the window and keeps the widgets; what it
    stores in the two status variables reads back, with
    [bytearray.fromhex], as the bytes the window gave.  So the next
    [on_activate] never ends in the [ValueError] of [fromhex], and once
    the window is built it hands the new window exactly the geometry
    and the dock state of the old one, whatever they are. *)
Theorem deactivate_activate_round_trip (s : state) :
  let d := on_deactivate tk s in
  let b := build_window tk (final d) in
  d = Ok 0 (final d) [] /\
  confocal (final d) = confocal s /\
  ops (_mw (final d)) = (ops (_mw s) ++ [CloseWindow])%list /\
  (_window_geometry (final d) ≫= Hex.fromhex) = Some (saveGeometry tk (_mw s)) /\
  (_window_state (final d) ≫= Hex.fromhex) = Some (saveState tk (_mw s)) /\
  (forall s' t, on_activate tk (final d) <> Failed ValueError s' t) /\
  (returned b = true ->
   exists s2 s3,
     restore_window_geometry tk (final b) = inr s2 /\
     restore_window_state tk s2 = inr s3 /\
     ops (_mw s3) = (ops (_mw (final b)) ++
                     [RestoreGeometry (saveGeometry tk (_mw s));
                      RestoreState (saveState tk (_mw s))])%list).
Proof.
  intros d b. unfold d in *. rewrite on_deactivate_run in *. cbn [final] in *.
  set (sd := set_mw _ _) in *.
  split; [reflexivity |]. split; [reflexivity |]. split; [reflexivity |].
  split; [apply fromhex_hex |]. split; [apply fromhex_hex |].
  assert (_window_geometry (final b) = Some (Hex.hex (saveGeometry tk (_mw s)))) as Hg
    by exact (f_equal fst (build_window_keeps sd)).
  assert (_window_state (final b) = Some (Hex.hex (saveState tk (_mw s)))) as Hs
    by exact (f_equal snd (build_window_keeps sd)).
  assert (exists s2 s3,
            restore_window_geometry tk (final b) = inr s2 /\
            restore_window_state tk s2 = inr s3 /\
            ops (_mw s3) = (ops (_mw (final b)) ++
                            [RestoreGeometry (saveGeometry tk (_mw s));
                             RestoreState (saveState tk (_mw s))])%list)
    as (s2 & s3 & H2 & H3 & Hops).
  { destruct (restore_window_geometry_hex _ _ Hg) as (s2 & H2 & Hops2 & Hs2).
    rewrite <- Hs2 in Hs.
    destruct (restore_window_state_hex _ _ Hs) as (s3 & H3 & Hops3).
    exists s2, s3. split; [exact H2 |]. split; [exact H3 |].
    rewrite Hops3, Hops2, <- app_assoc. reflexivity. }
  split; [| intros _; exists s2, s3; auto].
  intros s' t. unfold on_activate. change (build_window tk sd) with b. clearbody b.
  destruct b as [[] s1 t1 | e s1 t1]; cbn [final] in *; [| intros H; discriminate H].
  rewrite H2, H3. destruct (fill_window tk s3); intros H; discriminate H.
Qed.

(** X22.  A status variable that does not hold hex digits: once the window
    is built, the activation ends in [ValueError], before any plot is
    made and with the events of the build only. *)
Theorem on_activate_bad_geometry (s : state) (text : string) :
  _window_geometry s = Some text -> Hex.fromhex text = None ->
  let b := build_window tk s in
  returned b = true ->
  on_activate tk s = Failed ValueError (final b) (events b).
Proof.
  intros Hg Hf b Hr.
  assert (_window_geometry (final b) = Some text) as Hg'
    by (rewrite <- Hg; exact (f_equal fst (build_window_keeps s))).
  unfold on_activate. fold b. clearbody b.
  destruct b as [[] s1 t1 | e s1 t1]; [| discriminate].
  cbn [final events] in *. unfold restore_window_geometry. rewrite Hg', Hf. reflexivity.
Qed.

End SavedWindow.

Section WidgetKeys.
Import Confocal.

#[local] Abbreviation any := (fun _ : event Q => True).

(** [d[key]] followed by code that may rely on the key being there. *)
Lemma frame_getitem {A B} (R : relation world) `{!PreOrder R} (E : event Q -> Prop)
      (d : world -> gmap string A) (key : string) (f : A -> handler B) :
  (forall a w, d w !! key = Some a -> R w (final (f a w)) /\ Forall E (events (f a w))) ->
  frame R E (getitem d key ≫= f).
Proof.
  intros Hf w. unfold getitem. run_handler.
  destruct (d w !! key) as [a |] eqn:Hd; cbn; [| split; [reflexivity | constructor]].
  destruct (Hf a w Hd) as [HR HE]. destruct (f a w); cbn in *; split; assumption.
Qed.

(** One state change followed by framed code. *)
Lemma step_then {B} (R : relation world) `{!PreOrder R} (E : event Q -> Prop)
      (g : ConfocalGui -> ConfocalGui) (f : unit -> handler B) (w : world) :
  R w (set_gui (g (gui w)) w) -> frame R E (f tt) ->
  R w (final ((update_gui g ≫= f) w)) /\ Forall E (events ((update_gui g ≫= f) w)).
Proof.
  intros Hstep Hf. unfold update_gui. run_handler.
  destruct (Hf (set_gui (g (gui w)) w)) as [HR HE].
  destruct (f tt _); cbn in *; (split; [etransitivity; eassumption | assumption]).
Qed.

Lemma keys_alter_axes f axis w :
  widget_keys (set_gui (set_axes_control_widgets
                          (alter f axis (axes_control_widgets (gui w))) (gui w)) w)
  = widget_keys w.
Proof. unfold widget_keys, plot_keys. cbn. rewrite dom_alter_L. reflexivity. Qed.

Lemma keys_alter_optimizer f axis w :
  widget_keys (set_gui (set_optimizer_widgets
                          (alter f axis (optimizer_settings_axes_widgets (gui w))) (gui w)) w)
  = widget_keys w.
Proof. unfold widget_keys, plot_keys. cbn. rewrite dom_alter_L. reflexivity. Qed.

Lemma apply_axis_constraints_keys item :
  frame (same widget_keys) any (apply_axis_constraints item).
Proof.
  destruct item as [axis c]. unfold apply_axis_constraints.
  confocal_frame; unfold same; cbn;
    first [apply keys_alter_axes | apply keys_alter_optimizer | exact I | reflexivity].
Qed.

Lemma apply_scanner_constraints_keys :
  frame (same widget_keys) any apply_scanner_constraints.
Proof.
  unfold apply_scanner_constraints.
  apply frame_bind; [typeclasses eauto | confocal_frame; exact I |].
  intros cs. apply frame_for_each; [typeclasses eauto |]. apply apply_axis_constraints_keys.
Qed.

Lemma keys_spinboxes b b' w :
  widget_keys (set_gui (set_pixel_clock b (gui w)) w) = widget_keys w /\
  widget_keys (set_gui (set_backscan_speed b' (gui w)) w) = widget_keys w.
Proof. split; reflexivity. Qed.

Lemma mirror_resolution_keys item : frame (same widget_keys) any (mirror_resolution item).
Proof.
  destruct item as [axis r]. unfold mirror_resolution.
  confocal_frame; unfold same; cbn; first [apply keys_alter_axes | exact I | reflexivity].
Qed.

Lemma mirror_range_keys item : frame (same widget_keys) any (mirror_range item).
Proof.
  destruct item as [axis r]. unfold mirror_range.
  confocal_frame; unfold same; cbn; first [apply keys_alter_axes | exact I | reflexivity].
Qed.

Lemma mirror_position_keys item : frame (same widget_keys) any (mirror_position item).
Proof.
  destruct item as [axis r]. unfold mirror_position.
  confocal_frame; unfold same; cbn; first [apply keys_alter_axes | exact I | reflexivity].
Qed.

Lemma scanner_settings_updated_keys arg :
  frame (same widget_keys) any (scanner_settings_updated arg).
Proof.
  unfold scanner_settings_updated.
  apply frame_bind; [typeclasses eauto | destruct arg; confocal_frame; exact I |].
  intros st.
  apply frame_bind; [typeclasses eauto | | intros _].
  { unfold mirror_pixel_clock_frequency. confocal_frame; first [exact I | reflexivity]. }
  apply frame_bind; [typeclasses eauto | | intros _].
  { unfold mirror_backscan_speed. confocal_frame; first [exact I | reflexivity]. }
  apply frame_bind; [typeclasses eauto | | intros _].
  { destruct (scan_resolution st); cbn [if_present];
      [apply frame_for_each; [typeclasses eauto | apply mirror_resolution_keys]
      | apply frame_ret; typeclasses eauto]. }
  destruct (scan_range st); cbn [if_present];
    [apply frame_for_each; [typeclasses eauto | apply mirror_range_keys]
    | apply frame_ret; typeclasses eauto].
Qed.

Lemma scanner_position_updated_keys arg :
  frame (same widget_keys) any (scanner_position_updated arg).
Proof.
  unfold scanner_position_updated.
  apply frame_bind; [typeclasses eauto | destruct arg; confocal_frame; exact I |].
  intros p. apply frame_for_each; [typeclasses eauto | apply mirror_position_keys].
Qed.

Lemma keys_insert_image k v w :
  is_Some (scan_2d_images (gui w) !! k) ->
  widget_keys (set_gui (set_scan_2d_images (<[k := v]> (scan_2d_images (gui w))) (gui w)) w)
  = widget_keys w.
Proof.
  intros [x Hx]. unfold widget_keys, plot_keys. cbn.
  rewrite (dom_insert_lookup_L _ k v) by (eexists; exact Hx). reflexivity.
Qed.

Lemma keys_insert_plot k v w :
  is_Some (scan_1d_plots (gui w) !! k) ->
  widget_keys (set_gui (set_scan_1d_plots (<[k := v]> (scan_1d_plots (gui w))) (gui w)) w)
  = widget_keys w.
Proof.
  intros [x Hx]. unfold widget_keys, plot_keys. cbn.
  rewrite (dom_insert_lookup_L _ k v) by (eexists; exact Hx). reflexivity.
Qed.

Lemma keys_insert_dock2 k v w :
  is_Some (scan_2d_dockwidgets (gui w) !! k) ->
  widget_keys (set_gui (set_scan_2d_dockwidgets
                          (<[k := v]> (scan_2d_dockwidgets (gui w))) (gui w)) w)
  = widget_keys w.
Proof.
  intros [x Hx]. unfold widget_keys, plot_keys. cbn.
  rewrite (dom_insert_lookup_L _ k v) by (eexists; exact Hx). reflexivity.
Qed.

Lemma keys_insert_dock1 k v w :
  is_Some (scan_1d_dockwidgets (gui w) !! k) ->
  widget_keys (set_gui (set_scan_1d_dockwidgets
                          (<[k := v]> (scan_1d_dockwidgets (gui w))) (gui w)) w)
  = widget_keys w.
Proof.
  intros [x Hx]. unfold widget_keys, plot_keys. cbn.
  rewrite (dom_insert_lookup_L _ k v) by (eexists; exact Hx). reflexivity.
Qed.

(** Lines 706-711 for a key: the extent and the colour bar label. *)
Lemma show_frame_tail_keys (k : string) (data : ScanData) :
  frame (same widget_keys) any
    (item ← getitem (fun w => scan_2d_images (gui w)) k;
     update_gui (fun g =>
       set_scan_2d_images
         (<[k := {| image := image item; image_extent := axes_extent data |}]>
            (scan_2d_images g)) g);;
     _ ← getitem (fun w => scan_2d_dockwidgets (gui w)) k;
     update_gui (fun g =>
       set_scan_2d_dockwidgets
         (<[k := {| colorbar_text := "scan data"; colorbar_unit := data_unit data |}]>
            (scan_2d_dockwidgets g)) g);;
     mret (Some k)).
Proof.
  apply frame_getitem; [typeclasses eauto |]. intros item w Hitem.
  apply step_then; [typeclasses eauto | apply keys_insert_image; eexists; exact Hitem |].
  apply frame_getitem; [typeclasses eauto |]. intros dock w1 Hdock.
  apply step_then; [typeclasses eauto | apply keys_insert_dock2; eexists; exact Hdock |].
  apply frame_ret. typeclasses eauto.
Qed.

Lemma show_frame_keys (key : option string) (data : ScanData) :
  frame (same widget_keys) any (show_frame key data).
Proof.
  unfold show_frame. destruct (axes_names data) as [| a0 [| a1 [| a2 rest]]];
    try (apply frame_ret; typeclasses eauto).
  - apply frame_bind; [typeclasses eauto | | intros _].
    + destruct (scan data) as [img |]; [| apply frame_ret; typeclasses eauto].
      apply frame_getitem; [typeclasses eauto |]. intros item w Hitem.
      unfold update_gui, same. run_handler. cbn. split; [| constructor].
      apply keys_insert_plot. eexists; exact Hitem.
    + apply frame_getitem; [typeclasses eauto |]. intros dock w Hdock.
      apply step_then; [typeclasses eauto | apply keys_insert_dock1; eexists; exact Hdock |].
      apply frame_ret. typeclasses eauto.
  - apply frame_bind; [typeclasses eauto | | intros [k |]].
    + destruct (scan data) as [img |]; [| apply frame_ret; typeclasses eauto].
      apply frame_getitem; [typeclasses eauto |]. intros item w Hitem.
      apply step_then; [typeclasses eauto | apply keys_insert_image; eexists; exact Hitem |].
      apply frame_ret. typeclasses eauto.
    + apply show_frame_tail_keys.
    + apply frame_raise. typeclasses eauto.
Qed.

Lemma show_frames_keys (frames : list ScanData) :
  forall key, frame (same widget_keys) any (show_frames key frames).
Proof.
  induction frames as [| data rest IH]; intros key; cbn [show_frames].
  - apply frame_ret. typeclasses eauto.
  - apply frame_bind; [typeclasses eauto | apply show_frame_keys | intros key'; apply IH].
Qed.

Lemma scan_data_updated_keys arg : frame (same widget_keys) any (scan_data_updated arg).
Proof.
  unfold scan_data_updated.
  apply frame_bind; [typeclasses eauto | destruct arg; confocal_frame; exact I |].
  intros frames. apply show_frames_keys.
Qed.

(** X23.  The update handlers and [apply_scanner_constraints] work on the
    widgets that are there: whether they return or raise, and whatever
    they are given, none of the six widget dicts gains or loses a key,
    and the logic object is as before. *)
Theorem handlers_keep_widget_keys (w : world) :
  widget_keys (final (apply_scanner_constraints w)) = widget_keys w /\
  (forall arg, widget_keys (final (scanner_settings_updated arg w)) = widget_keys w) /\
  (forall arg, widget_keys (final (scanner_position_updated arg w)) = widget_keys w) /\
  (forall arg, widget_keys (final (scan_data_updated arg w)) = widget_keys w).
Proof.
  split; [apply apply_scanner_constraints_keys |].
  split; [intros arg; apply scanner_settings_updated_keys |].
  split; [intros arg; apply scanner_position_updated_keys |].
  intros arg; apply scan_data_updated_keys.
Qed.

End WidgetKeys.

Section ActivationRun.
Import Confocal Activation.
Variable tk : Toolkit.





Lemma generate_scan_dockwidgets_run (s : state) (l : list (list string)) :
  scan_axes s = Some l ->
  Forall (has_units (scanner_constraints (scannerlogic (confocal s)))) l ->
  exists s', _generate_scan_dockwidgets tk s
             = Ok tt s' [Query "scannerlogic" "scanner_settings";
                         Query "scannerlogic" "scanner_constraints"] /\
             dock_dicts s' = foldl (fun d axes => with_dock tk axes d) (∅, [], ∅, []) l /\
             beside_docks s' = beside_docks s.
Proof.
  intros Hl Hunits.
  set (cs := scanner_constraints (scannerlogic (confocal s))) in *.
  unfold _generate_scan_dockwidgets. method_exec. rewrite Hl. fold cs.
  match goal with
  | |- context [for_all _ _ ?s1] =>
      destruct (generate_scan_dockwidgets_loop tk cs l Hunits s1) as (s' & Hrun & Hd & Hb);
        rewrite Hrun
  end.
  exists s'. split; [reflexivity |]. split; [exact Hd | exact Hb].
Qed.

Lemma filled_keys {W} (f : Z -> string -> W) (names : list string) k :
  is_Some (filled f (enumerate 1 names) ∅ !! k) <-> k ∈ names.
Proof.
  rewrite filled_is_Some, enumerate_names, lookup_empty.
  split; [intros [H | [? [=]]]; exact H | auto].
Qed.

(** Lines 207-228 against a logic whose scans only name axes with
    constraints. *)
Lemma build_window_run (s : state) (l : list (list string)) :
  let logic := scannerlogic (confocal s) in
  scan_axes s = Some l ->
  Forall (has_units (scanner_constraints logic)) l ->
  exists s1 t1,
    build_window tk s = Ok tt s1 t1 /\
    scannerlogic (confocal s1) = logic /\
    built_for (scanner_axes_names logic) l (confocal s1) /\
    dict_order (scan_2d_order s1) (scan_2d_dockwidgets (gui (confocal s1))) /\
    dict_order (scan_1d_order s1) (scan_1d_dockwidgets (gui (confocal s1))).
Proof.
  intros logic Hl Hunits. unfold build_window.
  set (s0 := set_mw {| action_utility_zoom := ui_zoom tk;
                       ops := [NewDock Optimizer "Optimizer" "optimizer_dockWidget" ""
                                 TopDockWidgetArea;
                               NewDock TiltCorrection "Tilt Correction"
                                 "tilt_correction_dockWidget" "" RightDockWidgetArea] |}
               (set_confocal
                  (set_gui (set_backscan_speed (ui_backscan_speed tk)
                              (set_pixel_clock (ui_pixel_clock_frequency tk)
                                 (gui (confocal s)))) (confocal s)) s)).
  destruct (generate_axes_run tk s0) as (sa & Hruna & Haxes & Houta & Hbesa).
  destruct (generate_optimizer_run tk sa) as (so & Hruno & Hopt & Houto & Hbeso).
  assert (Ela : scannerlogic (confocal sa) = logic)
    by (unfold outside_axes in Houta; cbn in Houta; unfold logic; congruence).
  assert (Elo : scannerlogic (confocal so) = logic)
    by (unfold outside_optimizer in Houto; cbn in Houto; congruence).
  assert (Hscan : scan_axes so = Some l)
    by (unfold beside_window in Hbesa, Hbeso; cbn in Hbesa, Hbeso; congruence).
  rewrite <- Elo in Hunits.
  destruct (generate_scan_dockwidgets_run so l Hscan Hunits) as (sd & Hrund & Hdocks & Hbesd).
  destruct (restore_default_view_run sd) as (sv & Hrunv & Hcv & Hbesv & _).
  exists sv. eexists. split.
  { eapply method_bind_ok; [reflexivity |].
    eapply method_bind_ok; [reflexivity |].
    eapply method_bind_ok; [reflexivity |].
    eapply method_bind_ok; [exact Hruna |].
    eapply method_bind_ok; [exact Hruno |].
    eapply method_bind_ok; [exact Hrund |]. exact Hrunv. }
  assert (Esd : axes_widgets (confocal sd) = axes_widgets (confocal sa) /\
                optimizer_widgets (confocal sd) = optimizer_widgets (confocal so) /\
                scannerlogic (confocal sd) = logic).
  { unfold beside_docks in Hbesd. unfold outside_optimizer in Houto.
    unfold axes_widgets, optimizer_widgets. cbn in Hbesd, Houto.
    repeat split; congruence. }
  destruct Esd as (Ea & Eo & El).
  pose proof (with_docks_keys tk l ∅ [] ∅ []) as Hkeys.
  unfold dock_dicts in Hdocks. rewrite <- Hdocks in Hkeys.
  destruct Hkeys as (H2 & H1 & Hord).
  destruct (Hord dict_order_empty dict_order_empty) as [Ho2 Ho1].
  assert (Eorders : scan_2d_order sv = scan_2d_order sd /\
                    scan_1d_order sv = scan_1d_order sd)
    by (unfold beside_window in Hbesv; cbn in Hbesv; split; congruence).
  destruct Eorders as [-> ->]. rewrite Hcv.
  split; [exact El |]. split; [| split; assumption].
  unfold built_for. fold (axes_widgets (confocal sd)) (optimizer_widgets (confocal sd)).
  rewrite Ea, Eo, Haxes, Hopt, Ela.
  split; [intros k; apply filled_keys |]. split; [intros k; apply filled_keys |].
  split.
  - intros k. rewrite H2, lookup_empty. split; [intros [[? [=]] | H]; exact H | auto].
  - intros k. rewrite H1, lookup_empty. split; [intros [[? [=]] | H]; exact H | auto].
Qed.





End ActivationRun.

#[global] Instance stays_unshown_preorder : PreOrder stays_unshown.
Proof. split; unfold stays_unshown; [intros s | intros s1 s2 s3]; auto. Qed.

Section Shown.
Import Confocal Activation.
Variable tk : Toolkit.

#[local] Abbreviation any_event := (fun _ : event Q => True).
#[local] Abbreviation unshown := (frame stays_unshown any_event).

Lemma unshown_window (l : list window_op) : ShowWindow ∉ l -> unshown (window l).
Proof.
  intros Hl s. split; [| constructor]. unfold stays_unshown. cbn.
  intros Hs. rewrite elem_of_app. intros [H | H]; auto.
Qed.

Lemma unshown_lift {A} (m : handler A) : unshown (lift m).
Proof.
  intros s. unfold lift.
  destruct (m (confocal s)) as [a w t | e w t]; cbn;
    (split; [exact (fun H => H) | apply Forall_forall; auto]).
Qed.

Lemma unshown_modify (f : state -> state) :
  (forall s, _mw (f s) = _mw s) -> unshown (modify f).
Proof.
  intros Hf. apply frame_modify. intros s. unfold stays_unshown. rewrite Hf. exact (fun H => H).
Qed.

Lemma unshown_for_all {A} (body : A -> method unit) (l : list A) :
  (forall x, unshown (body x)) -> unshown (for_all body l).
Proof.
  intros Hb. induction l as [| x l IH]; cbn [for_all].
  - apply frame_ret. typeclasses eauto.
  - apply frame_bind; [typeclasses eauto | apply Hb | intros _; exact IH].
Qed.

Ltac no_show :=
  cbn; rewrite ?elem_of_cons; intros H; decompose [or] H; try discriminate;
  try (eapply not_elem_of_nil; eassumption).

Ltac unshown_step :=
  lazymatch goal with
  | |- frame _ _ (_ ≫= _) => apply frame_bind; [typeclasses eauto | | intros ?]
  | |- frame _ _ (mret _) => apply frame_ret; typeclasses eauto
  | |- frame _ _ (gets _) => apply frame_gets; typeclasses eauto
  | |- frame _ _ (raise _) => apply frame_raise; typeclasses eauto
  | |- frame _ _ (lift _) => apply unshown_lift
  | |- frame _ _ (update_widgets _) => apply unshown_lift
  | |- frame _ _ (window _) => apply unshown_window
  | |- frame _ _ (modify _) => apply unshown_modify; reflexivity
  | |- frame _ _ (for_all _ _) => apply unshown_for_all; intros ?
  | |- frame _ _ (if ?b then _ else _) => destruct b
  | |- frame _ _ (match ?x with _ => _ end) => destruct x
  end.

Lemma unshown_generate_axes : unshown (_generate_axes_control_widgets tk).
Proof.
  unfold _generate_axes_control_widgets. repeat unshown_step; try solve [no_show].
  unfold generate_axis_control. repeat unshown_step; no_show.
Qed.

Lemma unshown_generate_optimizer : unshown (_generate_optimizer_axes_widgets tk).
Proof.
  unfold _generate_optimizer_axes_widgets. repeat unshown_step; try solve [no_show].
  unfold generate_optimizer_axis. repeat unshown_step; no_show.
Qed.

Lemma unshown_unit_of cs a : unshown (unit_of cs a).
Proof. unfold unit_of. repeat unshown_step. Qed.

Lemma unshown_generate_scan_dockwidgets : unshown (_generate_scan_dockwidgets tk).
Proof.
  unfold _generate_scan_dockwidgets. repeat unshown_step; try solve [no_show].
  unfold generate_scan_dockwidget.
  repeat first [apply unshown_unit_of | unshown_step]; no_show.
Qed.

Lemma arrange_2d_no_show first es : ShowWindow ∉ flat_map (arrange_2d first) es.
Proof.
  induction es as [| [i k] es IH]; cbn [flat_map]; [apply not_elem_of_nil |].
  rewrite elem_of_app. intros [H | H]; [| exact (IH H)].
  revert H. unfold arrange_2d. destruct (Z.ltb 1 i); no_show.
Qed.

Lemma arrange_1d_no_show first es : ShowWindow ∉ flat_map (arrange_1d first) es.
Proof.
  induction es as [| [i k] es IH]; cbn [flat_map]; [apply not_elem_of_nil |].
  rewrite elem_of_app. intros [H | H]; [| exact (IH H)].
  revert H. unfold arrange_1d. destruct (Z.ltb 0 i); no_show.
Qed.

Lemma unshown_restore_default_view : unshown restore_default_view.
Proof.
  unfold restore_default_view. repeat unshown_step;
    first [apply arrange_2d_no_show | apply arrange_1d_no_show | idtac].
  - no_show.
  - no_show.
  - unfold split_optimizer.
    repeat match goal with |- context [match ?l with [] => _ | _ :: _ => _ end] =>
      destruct l end; no_show.
Qed.

Lemma unshown_init_plots : unshown (_init_plots tk).
Proof.
  unfold _init_plots. repeat unshown_step; try solve [no_show].
  - unfold init_2d_plot. repeat unshown_step; no_show.
  - unfold init_1d_plot. repeat unshown_step; no_show.
Qed.

Lemma bind_first {A B} (m : method A) (f : A -> method B) s a s1 :
  m s = Ok a s1 [] -> (m ≫= f) s = f a s1.
Proof. intros H. run_handler. rewrite H. destruct (f a s1); reflexivity. Qed.

(** However [build_window] ends, the window it leaves is a new one
    that has not been shown. *)
Lemma build_window_unshown (s : state) :
  ShowWindow ∉ ops (_mw (final (build_window tk s))).
Proof.
  unfold build_window.
  erewrite bind_first by reflexivity. erewrite bind_first by reflexivity.
  match goal with
  | |- _ ∉ ops (_mw (final (?m ?s0))) =>
      assert (Hm : unshown m); [| apply (Hm s0); apply not_elem_of_nil]
  end.
  repeat unshown_step;
    first [ apply unshown_generate_axes | apply unshown_generate_optimizer
          | apply unshown_generate_scan_dockwidgets | apply unshown_restore_default_view
          | no_show ].
Qed.

Lemma restore_window_geometry_unshown (s : state) :
  ShowWindow ∉ ops (_mw s) ->
  match restore_window_geometry tk s with
  | inl e => True
  | inr s2 => ShowWindow ∉ ops (_mw s2)
  end.
Proof.
  intros Hs. unfold restore_window_geometry.
  destruct (_window_geometry s) as [text |]; [| exact Hs].
  destruct (Hex.fromhex text) as [b |]; [| exact I].
  destruct (restoreGeometry tk b (_mw s)); cbn; rewrite elem_of_app;
    intros [H | H]; auto; revert H; no_show.
Qed.

Lemma restore_window_state_unshown (s : state) :
  ShowWindow ∉ ops (_mw s) ->
  match restore_window_state tk s with
  | inl e => True
  | inr s2 => ShowWindow ∉ ops (_mw s2)
  end.
Proof.
  intros Hs. unfold restore_window_state.
  destruct (_window_state s) as [text |]; [| exact Hs].
  destruct (Hex.fromhex text) as [b |]; [| exact I].
  destruct (restoreState tk b (_mw s)); cbn; rewrite elem_of_app;
    intros [H | H]; auto; revert H; no_show.
Qed.

(** A run that ends with [show], reached through code that does not
    show the window. *)
Lemma shown_after {A} (m : method A) (f : A -> method unit) (s : state) :
  unshown m ->
  (forall a s1, ShowWindow ∉ ops (_mw s1) ->
     match f a s1 with
     | Ok _ s2 _ => exists before,
         ops (_mw s2) = (before ++ [ShowWindow; ActivateWindow; RaiseWindow])%list /\
         ShowWindow ∉ before
     | Raise _ s2 _ => ShowWindow ∉ ops (_mw s2)
     end) ->
  ShowWindow ∉ ops (_mw s) ->
  match (m ≫= f) s with
  | Ok _ s2 _ => exists before,
      ops (_mw s2) = (before ++ [ShowWindow; ActivateWindow; RaiseWindow])%list /\
      ShowWindow ∉ before
  | Raise _ s2 _ => ShowWindow ∉ ops (_mw s2)
  end.
Proof.
  intros Hm Hf Hs. destruct (Hm s) as [HR _]. specialize (HR Hs). run_handler.
  destruct (m s) as [a s1 t1 | e s1 t1]; cbn in HR; [| exact HR].
  specialize (Hf a s1 HR). destruct (f a s1); exact Hf.
Qed.

(** X25.  The window is shown at the very end or not at all.  However
    [on_activate] is started: when it runs to its end the last three
    calls on the window are [show], [activateWindow] and [raise_] and
    no call before them shows it; when it stops with an exception the
    window it has built has not been shown. *)
Theorem on_activate_shows_last (s : state) :
  match on_activate tk s with
  | Activated s' _ =>
      exists before,
        ops (_mw s') = (before ++ [ShowWindow; ActivateWindow; RaiseWindow])%list /\
        ShowWindow ∉ before
  | Failed _ s' _ => ShowWindow ∉ ops (_mw s')
  end.
Proof.
  unfold on_activate. pose proof (build_window_unshown s) as H1.
  destruct (build_window tk s) as [[] s1 t1 | e s1 t1]; cbn [final] in H1; [| exact H1].
  pose proof (restore_window_geometry_unshown s1 H1) as H2.
  destruct (restore_window_geometry tk s1) as [e | s2]; [exact H1 |].
  pose proof (restore_window_state_unshown s2 H2) as H3.
  destruct (restore_window_state tk s2) as [e | s3]; [exact H2 |].
  assert (H4 : match fill_window tk s3 with
               | Ok _ s4 _ => exists before,
                   ops (_mw s4) = (before ++ [ShowWindow; ActivateWindow; RaiseWindow])%list /\
                   ShowWindow ∉ before
               | Raise _ s4 _ => ShowWindow ∉ ops (_mw s4)
               end).
  { unfold fill_window.
    apply shown_after; [apply unshown_init_plots | intros _ sa Ha | exact H3].
    apply shown_after; [apply unshown_lift | intros _ sb Hb | exact Ha].
    apply shown_after; [apply unshown_lift | intros _ sc Hc | exact Hb].
    apply shown_after; [apply unshown_lift | intros _ sd Hd | exact Hc].
    apply shown_after; [apply unshown_lift | intros _ se He | exact Hd].
    cbn. exists (ops (_mw se)). split; [reflexivity | exact He]. }
  destruct (fill_window tk s3); exact H4.
Qed.

End Shown.

Ltac in_list := repeat first [apply list_elem_of_here | apply list_elem_of_further].
Ltac each_of H := repeat (apply elem_of_cons in H as [-> | H]); [.. | inversion H].
Ltac not_in H := repeat (apply elem_of_cons in H as [H | H]; [discriminate H |]); inversion H.
Ltac no_dup :=
  repeat (apply NoDup_cons; split; [let H := fresh in intros H; not_in H |]);
  apply NoDup_nil_2.






(** The x,y image and the z line on the constrained sample GUI: the z
    plot shows the line. *)
Lemma scan_data_updated_paints_witness :
  let w := SampleConfocal.constrained 1000 100 in
  let o := Confocal.scan_data_updated (Some [SampleFrames.xy_scan; SampleFrames.z_scan]) w in
  o = Ok tt (final o) [] /\
  Confocal.scan_1d_plots (Confocal.gui (final o)) !! "z" = Some [[7; 8; 9]]%Q.
Proof.
  intros w o.
  destruct (scan_data_updated_paints [SampleFrames.xy_scan; SampleFrames.z_scan] w)
    as (Hrun & _ & _ & Hshows).
  - repeat constructor; vm_compute; try (eexists; reflexivity); intros _; eexists; reflexivity.
  - split; [exact Hrun |].
    destruct (Hshows [SampleFrames.xy_scan] SampleFrames.z_scan eq_refl) as [Hplot _].
    apply Hplot. reflexivity.
Defined.

(** A frame with three axes is passed over. *)
Lemma scan_data_updated_skips_other_axes_witness :
  let w := SampleConfocal.constrained 1000 100 in
  let d := {| Confocal.axes_names := ["x"; "y"; "z"]; Confocal.axes_extent := [];
              Confocal.scan := Some [[1%Q]]; Confocal.data_unit := "c/s" |} in
  Confocal.scan_data_updated (Some [d]) w = Ok tt w [].
Proof.
  intros w d. apply scan_data_updated_skips_other_axes.
  repeat constructor; cbn; discriminate.
Defined.

(** An image of the y,z plane, for which the sample GUI has no plot:
    [KeyError] for "y,z", after the z line has been shown. *)
Lemma scan_data_updated_unknown_key_witness :
  let w := SampleConfocal.constrained 1000 100 in
  let d := {| Confocal.axes_names := ["y"; "z"]; Confocal.axes_extent := [];
              Confocal.scan := Some [[1%Q]]; Confocal.data_unit := "c/s" |} in
  exists w', Confocal.scan_data_updated (Some [SampleFrames.z_scan; d]) w
             = Raise (KeyError "y,z") w' [] /\
             Confocal.scan_1d_plots (Confocal.gui w') !! "z" = Some [[7; 8; 9]]%Q.
Proof.
  intros w d.
  destruct (scan_data_updated_unknown_key [SampleFrames.z_scan] d [] w "y" "z" [[1%Q]])
    as (_ & Hraise).
  - repeat constructor; vm_compute; try (eexists; reflexivity); intros _; eexists; reflexivity.
  - reflexivity.
  - reflexivity.
  - vm_compute. reflexivity.
  - eexists. split; [exact Hraise |]. vm_compute. reflexivity.
Defined.


(** The dock widgets of the sample scans: x,y and x,z in the 2D dict,
    in this order, and z in the 1D dict. *)
Lemma scan_dockwidgets_generated_witness :
  let s := SampleActivation.loaded None None (Some SampleActivation.scans) in
  let o := Activation._generate_scan_dockwidgets SampleActivation.toolkit s in
  returned o = true /\
  is_Some (Confocal.scan_2d_dockwidgets (Confocal.gui (Activation.confocal (final o)))
             !! "x,z") /\
  Confocal.scan_2d_dockwidgets (Confocal.gui (Activation.confocal (final o))) !! "y,z" = None.
Proof.
  intros s o.
  destruct (scan_dockwidgets_generated SampleActivation.toolkit s SampleActivation.scans)
    as (Hrun & _ & H2 & _).
  - reflexivity.
  - repeat constructor; cbn; eexists; reflexivity.
  - fold o in Hrun, H2. split; [rewrite Hrun; reflexivity |]. split.
    + apply H2. exists "x", "z". split; [in_list | reflexivity].
    + apply eq_None_not_Some. rewrite H2. intros (a0 & a1 & Hin & Hkey).
      repeat (apply elem_of_cons in Hin as [Heq | Hin];
              [try discriminate Heq; injection Heq as -> ->; discriminate Hkey |]).
      inversion Hin.
Defined.

(** Settings without ['2d_scan_axes'], and scans that start with an
    axis "u" the scanner has no constraints for. *)
Lemma scan_dockwidgets_incomplete_witness :
  (exists s', Activation._generate_scan_dockwidgets SampleActivation.toolkit
                (SampleActivation.loaded None None None)
              = Raise (KeyError "2d_scan_axes") s'
                      [Query "scannerlogic" "scanner_settings";
                       Query "scannerlogic" "scanner_constraints"]) /\
  (exists s', Activation._generate_scan_dockwidgets SampleActivation.toolkit
                (SampleActivation.loaded None None (Some [["x"; "y"]; ["u"; "x"]; ["z"]]))
              = Raise (KeyError "u") s'
                      [Query "scannerlogic" "scanner_settings";
                       Query "scannerlogic" "scanner_constraints"] /\
              is_Some (Confocal.scan_2d_dockwidgets
                         (Confocal.gui (Activation.confocal s')) !! "x,y")).
Proof.
  split.
  - destruct (scan_dockwidgets_incomplete SampleActivation.toolkit
                (SampleActivation.loaded None None None)) as [Hnone _].
    destruct (Hnone eq_refl) as [Hraise _]. eexists. exact Hraise.
  - destruct (scan_dockwidgets_incomplete SampleActivation.toolkit
                (SampleActivation.loaded None None (Some [["x"; "y"]; ["u"; "x"]; ["z"]])))
      as [_ Hsome].
    destruct (Hsome [["x"; "y"]] ["u"; "x"] [["z"]] "u" ["x"]) as (Hraise & H2 & _).
    + reflexivity.
    + repeat constructor; cbn; eexists; reflexivity.
    + reflexivity.
    + cbn. lia.
    + reflexivity.
    + eexists. split; [exact Hraise |]. apply (H2 "x" "y"). in_list.
Defined.

(** The plots of the built sample window: x,y has its image of zeros,
    and the z line of the sample data finds its plot. *)
Lemma init_plots_match_docks_witness :
  let o := Activation._init_plots SampleActivation.toolkit SampleActivation.built in
  returned o = true /\
  Confocal.scan_2d_images (Confocal.gui (Activation.confocal (final o))) !! "x,y"
  = Some {| Confocal.image := [[0; 0]; [0; 0]]%Q;
            Confocal.image_extent := [(0, 1); (0, 1)]%Q |} /\
  paintable (Activation.confocal (final o)) SampleFrames.z_scan.
Proof.
  intros o.
  assert (H2 : dict_order (Activation.scan_2d_order SampleActivation.built)
                 (Confocal.scan_2d_dockwidgets
                    (Confocal.gui (Activation.confocal SampleActivation.built)))).
  { split; [vm_compute; no_dup |]. intros k. split.
    - intros Hk. vm_compute in Hk. each_of Hk; vm_compute; eexists; reflexivity.
    - intros Hk. destruct (decide (k ∈ ["x,y"; "x,z"])) as [Hin | Hnotin]; [exact Hin |].
      exfalso. assert (Hx : k <> "x,y") by (intros ->; apply Hnotin; in_list).
      assert (Hz : k <> "x,z") by (intros ->; apply Hnotin; in_list).
      revert Hk. change (Confocal.scan_2d_dockwidgets _)
        with (<["x,y" := SampleConfocal.blank_dock2]>
                (<["x,z" := SampleConfocal.blank_dock2]> (∅ : gmap string Confocal.Scan2dDock))).
      rewrite !lookup_insert_ne, lookup_empty by congruence. intros [? [=]]. }
  assert (H1 : dict_order (Activation.scan_1d_order SampleActivation.built)
                 (Confocal.scan_1d_dockwidgets
                    (Confocal.gui (Activation.confocal SampleActivation.built)))).
  { split; [vm_compute; no_dup |]. intros k. split.
    - intros Hk. vm_compute in Hk. each_of Hk; vm_compute; eexists; reflexivity.
    - intros Hk. destruct (decide (k ∈ ["z"])) as [Hin | Hnotin]; [exact Hin |].
      exfalso. assert (Hz : k <> "z") by (intros ->; apply Hnotin; in_list).
      revert Hk. change (Confocal.scan_1d_dockwidgets _)
        with (<["z" := SampleConfocal.blank_dock1]> (∅ : gmap string Confocal.Scan1dDock)).
      rewrite !lookup_insert_ne, lookup_empty by congruence. intros [? [=]]. }
  destruct (init_plots_match_docks SampleActivation.toolkit SampleActivation.built H2 H1)
    as (Hrun & _ & Himg & _ & _ & Hpaint).
  fold o in Hrun, Himg, Hpaint. split; [rewrite Hrun; reflexivity |]. split.
  - rewrite Himg. rewrite decide_True by (vm_compute; eexists; reflexivity). reflexivity.
  - apply Hpaint. vm_compute. eexists; reflexivity.
Defined.

(** A geometry status variable that is not hex: the activation of the
    sample module ends in [ValueError]. *)
Lemma on_activate_bad_geometry_witness :
  exists s' t,
    Activation.on_activate SampleActivation.toolkit
      (SampleActivation.loaded (Some "01g9") None (Some SampleActivation.scans))
    = Activation.Failed Activation.ValueError s' t.
Proof.
  eexists _, _.
  apply (on_activate_bad_geometry SampleActivation.toolkit
           (SampleActivation.loaded (Some "01g9") None (Some SampleActivation.scans)) "01g9").
  - reflexivity.
  - reflexivity.
  - destruct (build_window_run SampleActivation.toolkit
                (SampleActivation.loaded (Some "01g9") None (Some SampleActivation.scans))
                SampleActivation.scans) as (s1 & t1 & Hrun & _).
    + reflexivity.
    + repeat constructor; cbn; eexists; reflexivity.
    + rewrite Hrun. reflexivity.
Defined.

(** Deactivating the built sample window and building it again: the
    new window is handed the two geometry bytes and the three state
    bytes of the old one. *)
Lemma deactivate_activate_round_trip_witness :
  let d := Activation.on_deactivate SampleActivation.toolkit SampleActivation.built in
  let b := Activation.build_window SampleActivation.toolkit (final d) in
  Activation._window_geometry (final d) = Some "01d9" /\
  Activation._window_state (final d) = Some "00ff7a" /\
  exists s2 s3,
    Activation.restore_window_geometry SampleActivation.toolkit (final b) = inr s2 /\
    Activation.restore_window_state SampleActivation.toolkit s2 = inr s3 /\
    Activation.ops (Activation._mw s3)
    = (Activation.ops (Activation._mw (final b)) ++
       [Activation.RestoreGeometry [Byte.x01; Byte.xd9];
        Activation.RestoreState [Byte.x00; Byte.xff; Byte.x7a]])%list.
Proof.
  intros d b. split; [reflexivity |]. split; [reflexivity |].
  destruct (deactivate_activate_round_trip SampleActivation.toolkit SampleActivation.built)
    as (_ & _ & _ & _ & _ & _ & Hb).
  apply Hb. fold d.
  destruct (build_window_run SampleActivation.toolkit (final d) SampleActivation.scans)
    as (s1 & t1 & Hrun & _).
  - reflexivity.
  - repeat constructor; cbn; eexists; reflexivity.
  - rewrite Hrun. reflexivity.
Defined.

(** The axis dicts of the sample module: the first axis has the
    designer's widgets, the later ones fresh ones. *)
Lemma axis_dicts_generated_witness :
  let s := SampleActivation.loaded None None (Some SampleActivation.scans) in
  let o := Activation._generate_axes_control_widgets SampleActivation.toolkit s in
  exists ax ay,
    axes_widgets (Activation.confocal (final o)) !! "x" = Some ax /\
    axes_widgets (Activation.confocal (final o)) !! "y" = Some ay /\
    Confocal.label ax = "x-Axis:" /\ Confocal.label ay = "y-Axis:" /\
    Confocal.slider ax = Confocal.slider (SampleConfocal.fresh_axis "X") /\
    Confocal.pos_spinbox ay = SampleConfocal.fresh_scien.
Proof.
  intros s o.
  destruct (axis_dicts_generated SampleActivation.toolkit s) as (_ & _ & _ & Hall).
  assert (Hnd : NoDup ["x"; "y"; "z"]) by no_dup.
  destruct (Hall Hnd 0%nat "x" eq_refl) as (ax & ox & Hax & _ & Hlx & _ & H0 & _).
  destruct (Hall Hnd 1%nat "y" eq_refl) as (ay & oy & Hay & _ & Hly & _ & _ & H1).
  exists ax, ay. fold o in Hax, Hay.
  split; [exact Hax |]. split; [exact Hay |]. split; [exact Hlx |]. split; [exact Hly |].
  destruct (H0 eq_refl) as [Hw _]. injection Hw as _ _ _ Hs _.
  destruct H1 as (_ & _ & _ & _ & _ & Hp & _); [discriminate |].
  split; [exact Hs | exact Hp].
Defined.

(** Two left double clicks on the sample window leave it as it was. *)
Lemma mouseDoubleClickEvent_toggles_zoom_witness :
  let mw := {| Activation.action_utility_zoom := Activation.ui_zoom SampleActivation.toolkit;
               Activation.ops := [] |} in
  let click := {| Activation.button := Activation.LeftButton;
                  Activation.accepted := false |} in
  let r := Activation.mouseDoubleClickEvent SampleActivation.toolkit click mw in
  Activation.checked (Activation.action_utility_zoom (snd r)) = true /\
  snd (Activation.mouseDoubleClickEvent SampleActivation.toolkit click (snd r)) = mw.
Proof.
  intros mw click r.
  destruct (mouseDoubleClickEvent_toggles_zoom SampleActivation.toolkit click mw)
    as [Hleft _].
  destruct (Hleft eq_refl) as (_ & _ & Hcheckable & _).
  destruct (Hcheckable eq_refl) as [Hflip Hback].
  split; [exact Hflip | apply Hback; reflexivity].
Defined.

